(** * NoOffice: the two batch converters [mkpdf] and [ppt2pdf]

    A shallow embedding of [src/mkpdf/__main__.py] (documents to Markdown
    through the [markitdown] command) and [src/ppt2pdf/__main__.py]
    (PPTX to PDF through PowerPoint automation), and the properties of
    their discovery / selection / dispatch workflow.

    Conventions of the embedding.
    - A Python [str] is the [string] of its UTF-8 bytes.  Comparison,
      [endswith], [split] and [rfind] on the bytes agree with Python's on
      the code points.  [str.lower], [str.strip] and [int] are written
      out for ASCII text; what they do with text that is not ASCII
      depends on the Unicode tables of the interpreter, which are part of
      the environment (class [Unicode]).
    - A Python [int] is a [Z]; the interpreter's limit on the number of
      digits [int] accepts is not modelled.
    - [os.path] is its POSIX flavour ([posixpath]).  [ppt2pdf] needs
      [comtypes], so it only gets past its imports on Windows: its
      [pathlib] paths match and compare with their case folded.
    - Everything outside the two files is an explicit environment.  The
      lines typed at the prompts are read from a script, and the prompts
      of [rich] are modelled by what they return for a typed line.  The
      file system is any type with the four calls the programs make.  The
      external converter and the automation server are oracles that say
      how each call ends; what they write is not part of the file system
      of the model.  Every observable action is appended to a trace. *)

From Stdlib Require Import List String Ascii ZArith Bool Arith Lia.
From Stdlib Require Import Sorting.Sorted Sorting.Permutation.
Import ListNotations.

Local Open Scope string_scope.
Local Open Scope list_scope.

Set Implicit Arguments.

(* ================================================================== *)
(** ** Python built-ins used by the two programs *)

Module Py.

(** What the interpreter does with text that is not ASCII: the results
    of [str.lower()], [str.strip()] and [int()] on such text come from
    its Unicode tables.  Nothing is assumed about them. *)
Class Unicode : Type := {
  u_lower : string -> string;
  u_strip : string -> string;
  u_int : string -> option Z
}.

(** Every character of [s] is an ASCII character. *)
Fixpoint is_ascii (s : string) : bool :=
  match s with
  | EmptyString => true
  | String c s' => (nat_of_ascii c <? 128)%nat && is_ascii s'
  end.

(** [c.isupper()] / [c.lower()] on one ASCII character. *)
Definition is_upper (c : ascii) : bool :=
  let n := nat_of_ascii c in (65 <=? n)%nat && (n <=? 90)%nat.

Definition lower_char (c : ascii) : ascii :=
  if is_upper c then ascii_of_nat (nat_of_ascii c + 32) else c.

(** [s.lower()] for ASCII text *)
Fixpoint lower_ascii (s : string) : string :=
  match s with
  | EmptyString => EmptyString
  | String c s' => String (lower_char c) (lower_ascii s')
  end.

(** [s.lower()] *)
Definition lower {U : Unicode} (s : string) : string :=
  if is_ascii s then lower_ascii s else u_lower s.

(** [s.endswith(suffix)]: some tail of [s] is [suffix]. *)
Fixpoint endswith (s suffix : string) : bool :=
  if String.eqb s suffix then true
  else match s with
       | EmptyString => false
       | String _ s' => endswith s' suffix
       end.

(** [s.startswith(p)] *)
Definition startswith (s p : string) : bool := String.prefix p s.

(** [s.split(sep)] for a one-character separator: always at least one
    field, empty fields kept. *)
Fixpoint split (sep : ascii) (s : string) : list string :=
  match s with
  | EmptyString => [EmptyString]
  | String c s' =>
      if Ascii.eqb c sep then EmptyString :: split sep s'
      else match split sep s' with
           | f :: fs => String c f :: fs
           | [] => [String c EmptyString]
           end
  end.

(** [c.isspace()] for an ASCII character: TAB, LF, VT, FF, CR, FS, GS, RS,
    US, SPACE. *)
Definition is_space (c : ascii) : bool :=
  let n := nat_of_ascii c in
  ((9 <=? n)%nat && (n <=? 13)%nat) || ((28 <=? n)%nat && (n <=? 32)%nat).

Fixpoint lstrip (s : string) : string :=
  match s with
  | EmptyString => EmptyString
  | String c s' => if is_space c then lstrip s' else s
  end.

Fixpoint rstrip (s : string) : string :=
  match s with
  | EmptyString => EmptyString
  | String c s' =>
      match rstrip s' with
      | EmptyString => if is_space c then EmptyString else String c EmptyString
      | r => String c r
      end
  end.

(** [s.strip()] for ASCII text *)
Definition strip_ascii (s : string) : string := rstrip (lstrip s).

(** [s.strip()] *)
Definition strip {U : Unicode} (s : string) : string :=
  if is_ascii s then strip_ascii s else u_strip s.

(** [s.rstrip(ch)] for a one-character set. *)
Fixpoint rstrip_char (ch : ascii) (s : string) : string :=
  match s with
  | EmptyString => EmptyString
  | String c s' =>
      match rstrip_char ch s' with
      | EmptyString =>
          if Ascii.eqb c ch then EmptyString else String c EmptyString
      | r => String c r
      end
  end.

(** [s.rfind(ch)]: the highest index of [ch] in [s], or [-1]. *)
Fixpoint rfind (ch : ascii) (s : string) : Z :=
  match s with
  | EmptyString => (-1)%Z
  | String c s' =>
      let r := rfind ch s' in
      if (0 <=? r)%Z then (r + 1)%Z
      else if Ascii.eqb c ch then 0%Z else (-1)%Z
  end.

(** Slices [s[:i]] and [s[i:]] for [0 <= i]. *)
Definition slice_to (i : Z) (s : string) : string :=
  String.substring 0 (Z.to_nat i) s.

Definition slice_from (i : Z) (s : string) : string :=
  String.substring (Z.to_nat i) (String.length s - Z.to_nat i) s.

(** [ch * n] *)
Fixpoint repeat_char (ch : ascii) (n : nat) : string :=
  match n with
  | O => EmptyString
  | S n' => String ch (repeat_char ch n')
  end.

(** *** [int(s)] for base 10

    In ASCII text, white space around the literal is ignored, one sign is
    allowed, and a single underscore may separate two digits; anything
    else raises [ValueError], here [None]. *)

Definition is_digit (c : ascii) : bool :=
  let n := nat_of_ascii c in (48 <=? n)%nat && (n <=? 57)%nat.

Definition digit_val (c : ascii) : Z := Z.of_nat (nat_of_ascii c - 48).

(** [digits acc prev s]: [prev] tells whether the previous character was a
    digit, which is what allows an underscore here and the end of the
    literal. *)
Fixpoint digits (acc : Z) (prev : bool) (s : string) : option Z :=
  match s with
  | EmptyString => if prev then Some acc else None
  | String c s' =>
      if is_digit c then digits (10 * acc + digit_val c)%Z true s'
      else if Ascii.eqb c "_"%char then
             if prev then
               match s' with
               | String d _ => if is_digit d then digits acc false s' else None
               | EmptyString => None
               end
             else None
           else None
  end.

Definition int_ascii (s : string) : option Z :=
  match strip_ascii s with
  | String "-"%char s' => option_map Z.opp (digits 0 false s')
  | String "+"%char s' => digits 0 false s'
  | s' => digits 0 false s'
  end.

(** [int(s)] *)
Definition int {U : Unicode} (s : string) : option Z :=
  if is_ascii s then int_ascii s else u_int s.

(** *** [sorted(xs)] with the order given by a string key

    Python's sort is stable and only asks for [<]; an insertion sort that
    puts an element in front of the first one that is not smaller has the
    same result. *)
Section Sorted.
Variable A : Type.
Variable key : A -> string.

Definition lt (x y : A) : bool := String.ltb (key x) (key y).

Fixpoint insert (x : A) (l : list A) : list A :=
  match l with
  | [] => [x]
  | y :: l' => if lt y x then y :: insert x l' else x :: l
  end.

Definition sorted (l : list A) : list A := fold_right insert [] l.
End Sorted.

End Py.

(* ================================================================== *)
(** ** [os.path] (POSIX flavour) *)

Module PosixPath.
Import Py.

Definition sep : ascii := "/"%char.
Definition extsep : ascii := "."%char.

(** [os.path.dirname(p)] *)
Definition dirname (p : string) : string :=
  let i := (rfind sep p + 1)%Z in
  let head := slice_to i p in
  if negb (String.eqb head "")
     && negb (String.eqb head (repeat_char sep (String.length head)))
  then rstrip_char sep head
  else head.

(** [os.path.basename(p)] *)
Definition basename (p : string) : string :=
  let i := (rfind sep p + 1)%Z in
  slice_from i p.

(** The loop of [genericpath._splitext] that skips leading dots: is there
    a character other than [extsep] in [p[k:dot]]?  [n] counts the
    positions left to look at. *)
Fixpoint has_non_dot (p : string) (k : nat) (n : nat) : bool :=
  match n with
  | O => false
  | S n' =>
      match String.get k p with
      | Some c => if Ascii.eqb c extsep then has_non_dot p (S k) n' else true
      | None => true
      end
  end.

(** [os.path.splitext(p)] *)
Definition splitext (p : string) : string * string :=
  let sepIndex := rfind sep p in
  let dotIndex := rfind extsep p in
  if (sepIndex <? dotIndex)%Z
     && has_non_dot p (Z.to_nat (sepIndex + 1))
                    (Z.to_nat dotIndex - Z.to_nat (sepIndex + 1))
  then (slice_to dotIndex p, slice_from dotIndex p)
  else (p, EmptyString).

(** [os.path.join(a, b)] *)
Definition join (a b : string) : string :=
  if startswith b (String sep EmptyString) then b
  else if String.eqb a "" || endswith a (String sep EmptyString) then a ++ b
  else a ++ String sep EmptyString ++ b.

End PosixPath.

(* ================================================================== *)
(** ** The run-time environment: exceptions, terminal, file system,
       external calls *)

Module Rt.
Import Py.

(** The exceptions that can reach the two programs.  All of them but
    [KeyboardInterrupt] are subclasses of [Exception]. *)
Inductive exn : Type :=
| KeyboardInterrupt
| EOFError
| ValueError
| IndexError
| KeyError
| OSError (path : string)
| CalledProcessError (returncode : Z)
| COMError (hresult : Z).

Definition is_Exception (e : exn) : bool :=
  match e with
  | KeyboardInterrupt => false
  | _ => true
  end.

Inductive result (A : Type) : Type :=
| Ret (a : A)
| Raise (e : exn).
Arguments Ret {A} a.
Arguments Raise {A} e.

(** What the operator does at a prompt: type a line, or press Ctrl-C.
    A script that is used up is a closed terminal ([EOFError]). *)
Inductive key : Type :=
| Line (s : string)
| CtrlC.

(** The calls made on the automation server, per application instance. *)
Inductive com_call : Type :=
| CreateObject
| SetVisible (v : Z)
| OpenNoWindow (path : string)
| Open (path : string)
| SaveAs (path : string) (format : Z)
| Close
| Quit.

(** How one run of the external command ends. *)
Inductive proc_outcome : Type :=
| Exit (code : Z)
| LaunchFailure
| Interrupted.

(** Everything either program writes to the console. *)
Inductive msg : Type :=
(* rich *)
| IllegalChoice
| InvalidYesNo
(* mkpdf *)
| MdBanner
| MdAskInputDir
| MdFormatMenu
| MdAskChoice
| MdAskExtensions
| MdAskOutputDir
| MdNoneFound (format_name : string)
| MdFound (n : nat) (format_name : string)
| MdAskStart
| MdConverting (file_path output_path : string)
| MdConverted (output_path : string)
| MdConvertFailed (file_path : string) (e : exn)
| MdSummary (success_count total : nat)
| MdCancelled
(* ppt2pdf *)
| PptMissingDeps (deps : list string)
| PptBanner
| PptAskDir
| PptNoneIn (directory : string)
| PptNoFiles
| PptTable (rows : list (nat * string * Z))
| PptAskSelection
| PptNoValidSelection
| PptFormatError
| PptSelected (names : list (nat * string))
| PptAskConfirm
| PptCancelled
| PptAskOutputDir
| PptProgress (i total : nat) (name : string)
| PptAdvance
| PptVisibleWarning
| PptConvertError (name : string) (e : exn)
| PptDone (output_dir : string)
| PptError (e : exn).

(** The observable actions of a run, in the order they happen. *)
Inductive event : Type :=
| Print (m : msg)
| Makedirs (path : string)
| Run (argv : list string)
| Com (app : nat) (c : com_call).

(** The file-system calls the programs make.  [None] is an [OSError]. *)
Class FileSystem (FS : Type) : Type := {
  isdir : FS -> string -> bool;
  listdir : FS -> string -> option (list string);
  getsize : FS -> string -> option Z;
  makedirs : FS -> string -> option FS
}.

(** What they rely on: a path that is not a directory cannot be listed,
    and a successful [makedirs] leaves a directory behind. *)
Class FileSystemLaws (FS : Type) `{FileSystem FS} : Prop := {
  listdir_notdir : forall (f : FS) (p : string),
    isdir f p = false -> listdir f p = None;
  makedirs_isdir : forall (f f' : FS) (p : string),
    makedirs f p = Some f' -> isdir f' p = true
}.
Arguments FileSystemLaws FS {_}.

(** The parts of the world the programs do not control. *)
Record env : Type := {
  e_proc : nat -> list string -> proc_outcome;  (* n-th command run *)
  e_com : nat -> com_call -> option exn;        (* n-th application *)
  e_resolve : string -> string;                 (* Path.resolve() *)
  e_script_dir : string;     (* dirname(abspath(__file__)) of mkpdf *)
  e_cwd : string;                               (* Path.cwd() *)
  e_missing_deps : list string                  (* failed imports *)
}.

Section Monad.
Context {FS : Type} `{FileSystem FS} {U : Unicode}.

Record world : Type := {
  w_stdin : list key;
  w_fs : FS;
  w_nproc : nat;
  w_napp : nat;
  w_trace : list event
}.

Definition initial (f : FS) (script : list key) : world :=
  {| w_stdin := script; w_fs := f; w_nproc := 0; w_napp := 0;
     w_trace := [] |}.

Definition M (A : Type) : Type := world -> result A * world.

Definition ret {A} (a : A) : M A := fun w => (Ret a, w).

Definition raise {A} (e : exn) : M A := fun w => (Raise e, w).

Definition bind {A B} (m : M A) (k : A -> M B) : M B :=
  fun w =>
    match m w with
    | (Ret a, w') => k a w'
    | (Raise e, w') => (Raise e, w')
    end.

(** [try: m  except <handles>: h e] *)
Definition try_except {A} (m : M A) (handles : exn -> bool)
           (h : exn -> M A) : M A :=
  fun w =>
    match m w with
    | (Raise e, w') => if handles e then h e w' else (Raise e, w')
    | r => r
    end.

Definition emits (evs : list event) : M unit :=
  fun w =>
    (Ret tt, {| w_stdin := w_stdin w; w_fs := w_fs w;
                w_nproc := w_nproc w; w_napp := w_napp w;
                w_trace := w_trace w ++ evs |}).

Definition emit (ev : event) : M unit := emits [ev].

Definition print (m : msg) : M unit := emit (Print m).

(** A prompt that is repeated until the typed line is accepted:
    [body] either yields the value or the complaint to print before
    asking again.  Each round reads one line. *)
Fixpoint ask_loop {A} (q : msg) (body : string -> A + msg)
         (script : list key) : result A * list key * list event :=
  match script with
  | [] => (Raise EOFError, [], [Print q])
  | CtrlC :: rest => (Raise KeyboardInterrupt, rest, [Print q])
  | Line l :: rest =>
      match body l with
      | inl a => (Ret a, rest, [Print q])
      | inr complaint =>
          let '(r, rest', evs) := ask_loop q body rest in
          (r, rest', Print q :: Print complaint :: evs)
      end
  end.

Definition ask {A} (q : msg) (body : string -> A + msg) : M A :=
  fun w =>
    let '(r, rest, evs) := ask_loop q body (w_stdin w) in
    (r, {| w_stdin := rest; w_fs := w_fs w; w_nproc := w_nproc w;
           w_napp := w_napp w; w_trace := w_trace w ++ evs |}).

(** [rich.prompt.Prompt.ask(q, default=d)]: an empty line is the
    default, any other line is returned stripped. *)
Definition Prompt_ask (q : msg) (default : option string) : M string :=
  ask q (fun l =>
           inl (match default with
                | Some d => if String.eqb l "" then d else strip l
                | None => strip l
                end)).

(** [Prompt.ask(q, choices=cs, default=d)] *)
Definition Prompt_ask_choices (q : msg) (choices : list string)
           (default : string) : M string :=
  ask q (fun l =>
           if String.eqb l "" then inl default
           else if existsb (String.eqb (strip l)) choices
                then inl (strip l)
                else inr IllegalChoice).

(** [rich.prompt.Confirm.ask(q)] and [Confirm.ask(q, default=b)] *)
Definition Confirm_ask (q : msg) (default : option bool) : M bool :=
  ask q (fun l =>
           match default, String.eqb l "" with
           | Some b, true => inl b
           | _, _ =>
               let v := lower (strip l) in
               if String.eqb v "y" then inl true
               else if String.eqb v "n" then inl false
               else inr InvalidYesNo
           end).

(** [os.makedirs(p, exist_ok=True)], [Path(p).mkdir(parents=True,
    exist_ok=True)] *)
Definition os_makedirs (p : string) : M unit :=
  fun w =>
    match makedirs (w_fs w) p with
    | Some f' =>
        (Ret tt, {| w_stdin := w_stdin w; w_fs := f';
                    w_nproc := w_nproc w; w_napp := w_napp w;
                    w_trace := w_trace w ++ [Makedirs p] |})
    | None => (Raise (OSError p), w)
    end.

(** [os.listdir(p)] *)
Definition os_listdir (p : string) : M (list string) :=
  fun w =>
    match listdir (w_fs w) p with
    | Some names => (Ret names, w)
    | None => (Raise (OSError p), w)
    end.

(** [Path(p).stat().st_size] *)
Definition stat_size (p : string) : M Z :=
  fun w =>
    match getsize (w_fs w) p with
    | Some n => (Ret n, w)
    | None => (Raise (OSError p), w)
    end.

(** [subprocess.run(argv, check=True)] *)
Definition subprocess_run (E : env) (argv : list string) : M unit :=
  fun w =>
    let w' := {| w_stdin := w_stdin w; w_fs := w_fs w;
                 w_nproc := S (w_nproc w); w_napp := w_napp w;
                 w_trace := w_trace w ++ [Run argv] |} in
    match e_proc E (w_nproc w) argv with
    | Exit code =>
        if Z.eqb code 0 then (Ret tt, w')
        else (Raise (CalledProcessError code), w')
    | LaunchFailure => (Raise (OSError (hd "" argv)), w')
    | Interrupted => (Raise KeyboardInterrupt, w')
    end.

(** [comtypes.client.CreateObject("Powerpoint.Application")]: the
    handle of a new application instance. *)
Definition create_object (E : env) : M nat :=
  fun w =>
    let app := w_napp w in
    let w' := {| w_stdin := w_stdin w; w_fs := w_fs w;
                 w_nproc := w_nproc w; w_napp := S app;
                 w_trace := w_trace w ++ [Com app CreateObject] |} in
    match e_com E app CreateObject with
    | None => (Ret app, w')
    | Some e => (Raise e, w')
    end.

(** Any other call on the instance [app]. *)
Definition com_invoke (E : env) (app : nat) (c : com_call) : M unit :=
  fun w =>
    let w' := {| w_stdin := w_stdin w; w_fs := w_fs w;
                 w_nproc := w_nproc w; w_napp := w_napp w;
                 w_trace := w_trace w ++ [Com app c] |} in
    match e_com E app c with
    | None => (Ret tt, w')
    | Some e => (Raise e, w')
    end.

End Monad.

Arguments world : clear implicits.
Arguments M : clear implicits.

(** How the interpreter ends the process. *)
Record process_end : Type := {
  exit_code : Z;
  traceback : option exn
}.

(** An exception that leaves the top level is printed with its stack
    trace and gives a non-zero status; [sys.exit(n)] gives [n]. *)
Definition uncaught (e : exn) : process_end :=
  {| exit_code := match e with KeyboardInterrupt => 130%Z | _ => 1%Z end;
     traceback := Some e |}.

Definition normal_exit : process_end :=
  {| exit_code := 0%Z; traceback := None |}.

End Rt.

Declare Scope py_scope.
Delimit Scope py_scope with py.
Notation "x <- m ;; k" := (Rt.bind m (fun x => k))
  (at level 61, m at next level, right associativity) : py_scope.
Notation "m ;; k" := (Rt.bind m (fun _ => k))
  (at level 61, right associativity) : py_scope.

Local Open Scope py_scope.

(* ================================================================== *)
(** ** [src/mkpdf/__main__.py] *)

Module Mkpdf.
Import Py PosixPath Rt.

(** The path handed to the converter after [-o]. *)
Definition output_path_of (file_path : string) (output_dir : option string)
  : string :=
  let output_dir :=
    match output_dir with
    | None => dirname file_path
    | Some d => d
    end in
  let base_name := basename file_path in
  let file_name := fst (splitext base_name) in
  join output_dir (file_name ++ ".md").

Definition markitdown_argv (file_path output_path : string) : list string :=
  ["markitdown"; file_path; "-o"; output_path].

Record format : Type := { name : string; ext : list string }.

Definition format_choices : list (string * format) :=
  [ ("1", {| name := "PDF文件 (.pdf)"; ext := [".pdf"] |});
    ("2", {| name := "Word文档 (.doc, .docx)"; ext := [".doc"; ".docx"] |});
    ("3", {| name := "PowerPoint演示文稿 (.ppt, .pptx)";
             ext := [".ppt"; ".pptx"] |});
    ("4", {| name := "手动输入扩展名"; ext := [] |}) ].

Fixpoint getitem (d : list (string * format)) (k : string) : option format :=
  match d with
  | [] => None
  | (k', v) :: d' => if String.eqb k k' then Some v else getitem d' k
  end.

(** [[ext.strip() for ext in extensions_input.split(",")]] *)
Definition parse_extensions {U : Unicode} (extensions_input : string)
  : list string :=
  map strip (split ","%char extensions_input).

(** The loop over [os.listdir(input_dir)]: a name is kept, once, when its
    lower-cased form ends with one of [extensions]. *)
Definition matches {U : Unicode} (extensions : list string) (file : string)
  : bool :=
  let file_lower := lower file in
  existsb (fun ext => endswith file_lower ext) extensions.

Definition target_files_of {U : Unicode} (extensions listing : list string)
  : list string :=
  filter (matches extensions) listing.

Section Program.
Context {FS : Type} `{FileSystem FS} {U : Unicode}.
Variable E : env.

Definition convert_file_to_md (file_path : string)
           (output_dir : option string) : M FS bool :=
  let output_path := output_path_of file_path output_dir in
  print (MdConverting file_path output_path) ;;
  try_except
    (subprocess_run E (markitdown_argv file_path output_path) ;;
     print (MdConverted output_path) ;;
     ret true)
    is_Exception
    (fun e => print (MdConvertFailed file_path e) ;; ret false).

(** [for file in target_files: ...] with the running [success_count]. *)
Fixpoint convert_all (input_dir output_dir : string)
         (target_files : list string) (success_count : nat) : M FS nat :=
  match target_files with
  | [] => ret success_count
  | file :: rest =>
      let file_path := join input_dir file in
      ok <- convert_file_to_md file_path (Some output_dir) ;;
      convert_all input_dir output_dir rest
                  (if ok then S success_count else success_count)
  end.

(** Lines 66-75 of [main]: the candidates of [input_dir]. *)
Definition list_target_files (input_dir : string)
           (selected_ext : list string) : M FS (list string) :=
  let extensions := map lower selected_ext in
  listing <- os_listdir input_dir ;;
  ret (target_files_of extensions listing).

(** Lines 66-95 of [main]: what follows the creation of the output
    directory. *)
Definition find_and_convert (input_dir output_dir : string)
           (selected_format : format) : M FS unit :=
  target_files <- list_target_files input_dir (ext selected_format) ;;
  match target_files with
  | [] => print (MdNoneFound (name selected_format))
  | _ :: _ =>
      print (MdFound (List.length target_files) (name selected_format)) ;;
      go <- Confirm_ask MdAskStart (Some true) ;;
      if go : bool then
        success_count <- convert_all input_dir output_dir target_files 0 ;;
        print (MdSummary success_count (List.length target_files))
      else print MdCancelled
  end.

Definition main : M FS unit :=
  print MdBanner ;;
  let current_dir := e_script_dir E in
  input_dir <- Prompt_ask MdAskInputDir (Some current_dir) ;;
  print MdFormatMenu ;;
  choice <- Prompt_ask_choices MdAskChoice ["1"; "2"; "3"; "4"] "1" ;;
  selected_format <-
    match getitem format_choices choice with
    | Some f => ret f
    | None => raise KeyError
    end ;;
  selected_format <-
    (if String.eqb choice "4" then
       extensions_input <- Prompt_ask MdAskExtensions None ;;
       ret {| name := name selected_format;
              ext := parse_extensions extensions_input |}
     else ret selected_format) ;;
  output_dir <-
    Prompt_ask MdAskOutputDir (Some (join input_dir "markdown_output")) ;;
  os_makedirs output_dir ;;
  find_and_convert input_dir output_dir selected_format.

(** [if __name__ == "__main__": main()] *)
Definition program (w : world FS) : process_end * world FS :=
  match main w with
  | (Ret _, w') => (normal_exit, w')
  | (Raise e, w') => (uncaught e, w')
  end.

End Program.
End Mkpdf.

(* ================================================================== *)
(** ** [src/ppt2pdf/__main__.py] *)

Module Ppt2pdf.
Import Py PosixPath Rt.

(** A [pathlib.Path] is its string.  The program needs [comtypes], so it
    only gets past its imports on Windows, where [pathlib] compares and
    matches names with their case folded; [/] is written for the
    separator. *)
Definition Path : Type := string.

Definition truediv (p : Path) (child : string) : Path := join p child.

Definition path_name (p : Path) : string := basename p.

(** [Path.stem] *)
Definition stem (p : Path) : string :=
  let name := path_name p in
  let i := rfind extsep name in
  if (0 <? i)%Z && (i <? Z.of_nat (String.length name) - 1)%Z
  then slice_to i name
  else name.

Definition normcase {U : Unicode} (s : string) : string := lower s.

(** The order of [sorted] on paths of one directory. *)
Definition path_key {U : Unicode} (p : Path) : string := normcase p.

(** [enumerate(xs, start)] *)
Fixpoint enumerate {A} (xs : list A) (start : nat) : list (nat * A) :=
  match xs with
  | [] => []
  | x :: xs' => (start, x) :: enumerate xs' (S start)
  end.

(** [[int(idx.strip()) - 1 for idx in selection.split(",")]]; [None] is
    the [ValueError] of [int]. *)
Fixpoint parse_tokens {U : Unicode} (tokens : list string)
  : option (list Z) :=
  match tokens with
  | [] => Some []
  | idx :: rest =>
      match int (strip idx) with
      | None => None
      | Some n =>
          match parse_tokens rest with
          | None => None
          | Some ns => Some ((n - 1)%Z :: ns)
          end
      end
  end.

Definition parse_indices {U : Unicode} (selection : string)
  : option (list Z) :=
  parse_tokens (split ","%char selection).

(** [[files[idx] for idx in indices if 0 <= idx < len(files)]]; [None] is
    the [IndexError] of [files[idx]]. *)
Fixpoint pick (files : list Path) (indices : list Z) : option (list Path) :=
  match indices with
  | [] => Some []
  | idx :: rest =>
      if (0 <=? idx)%Z && (idx <? Z.of_nat (List.length files))%Z then
        match nth_error files (Z.to_nat idx) with
        | None => None
        | Some f => option_map (cons f) (pick files rest)
        end
      else pick files rest
  end.

(** One round of the [while True] loop of [select_ppt_files], after the
    prompt: the selection to return, or what is printed before asking
    again. *)
Definition select_round {U : Unicode} (files : list Path)
           (selection : string) : list Path + msg :=
  if String.eqb (lower selection) "0" then inl files
  else
    match parse_indices selection with
    | None => inr PptFormatError
    | Some indices =>
        match pick files indices with
        | None => inr PptFormatError
        | Some [] => inr PptNoValidSelection
        | Some selected_files => inl selected_files
        end
    end.

Section Program.
Context {FS : Type} `{FileSystem FS} {U : Unicode}.
Variable E : env.

(** [path.glob("*.pptx")]: nothing when [path] is not a directory that
    can be listed. *)
Definition glob_pptx (f : FS) (directory : string) : list Path :=
  if isdir f directory then
    match listdir f directory with
    | Some names =>
        map (truediv directory)
            (filter (fun n => endswith (normcase n) ".pptx") names)
    | None => []
    end
  else [].

Definition get_ppt_files (directory : string) : M FS (list Path) :=
  fun w => (Ret (sorted path_key (glob_pptx (w_fs w) directory)), w).

(** The rows of the table: number, name, [st_size]. *)
Fixpoint table_rows (numbered : list (nat * Path))
  : M FS (list (nat * string * Z)) :=
  match numbered with
  | [] => ret []
  | (i, file) :: rest =>
      size <- stat_size file ;;
      rows <- table_rows rest ;;
      ret ((i, path_name file, size) :: rows)
  end.

Definition select_ppt_files (files : list Path) : M FS (list Path) :=
  match files with
  | [] => print PptNoFiles ;; ret []
  | _ :: _ =>
      rows <- table_rows (enumerate files 1) ;;
      print (PptTable rows) ;;
      ask PptAskSelection (fun l => select_round files (strip l))
  end.

(** The body of the outer [try] once the application exists. *)
Definition export (powerpoint : nat) (pptx_path pdf_path : Path)
  : M FS Path :=
  try_except (com_invoke E powerpoint (SetVisible 0))
             (fun _ => true)
             (fun _ => print PptVisibleWarning) ;;
  try_except (com_invoke E powerpoint (OpenNoWindow pptx_path))
             (fun _ => true)
             (fun _ => com_invoke E powerpoint (Open pptx_path)) ;;
  com_invoke E powerpoint (SaveAs pdf_path 32) ;;
  com_invoke E powerpoint Close ;;
  ret pdf_path.

Definition convert_pptx_to_pdf (pptx_path output_folder : Path)
  : M FS Path :=
  fun w =>
    let pptx_path := e_resolve E pptx_path in
    let output_folder := e_resolve E output_folder in
    let pdf_path := truediv output_folder (stem pptx_path ++ ".pdf") in
    (* try *)
    let '(powerpoint, (r, w1)) :=
      match create_object E w with
      | (Ret app, w0) => (Some app, export app pptx_path pdf_path w0)
      | (Raise e, w0) => (None, (Raise e, w0))
      end in
    (* except Exception as e: report, raise *)
    let '(r, w2) :=
      match r with
      | Raise e =>
          if is_Exception e
          then (r, snd (print (PptConvertError (path_name pptx_path) e) w1))
          else (r, w1)
      | Ret _ => (r, w1)
      end in
    (* finally *)
    match powerpoint with
    | Some app =>
        let '(_, w3) := try_except (com_invoke E app Quit)
                                   (fun _ => true) (fun _ => ret tt) w2 in
        (r, w3)
    | None => (r, w2)
    end.

(** [for i, pptx_file in enumerate(selected_files, 1): ...] *)
Fixpoint convert_each (output_dir : Path) (file_count : nat)
         (numbered : list (nat * Path)) : M FS unit :=
  match numbered with
  | [] => ret tt
  | (i, pptx_file) :: rest =>
      print (PptProgress i file_count (path_name pptx_file)) ;;
      pdf_file <- convert_pptx_to_pdf pptx_file output_dir ;;
      print PptAdvance ;;
      convert_each output_dir file_count rest
  end.

Definition main : M FS unit :=
  print PptBanner ;;
  current_dir <- Prompt_ask PptAskDir (Some (e_cwd E)) ;;
  ppt_files <- get_ppt_files current_dir ;;
  match ppt_files with
  | [] => print (PptNoneIn current_dir)
  | _ :: _ =>
      selected_files <- select_ppt_files ppt_files ;;
      match selected_files with
      | [] => ret tt
      | _ :: _ =>
          print (PptSelected
                   (enumerate (map path_name selected_files) 1)) ;;
          go <- Confirm_ask PptAskConfirm None ;;
          if negb go then print PptCancelled
          else
            output_dir <-
              Prompt_ask PptAskOutputDir
                         (Some (truediv current_dir "PDF输出")) ;;
            os_makedirs output_dir ;;
            let file_count := List.length selected_files in
            convert_each output_dir file_count
                         (enumerate selected_files 1) ;;
            print (PptDone output_dir)
      end
  end.

(** The module level: the import check, then the guarded call of
    [main]. *)
Definition program (w : world FS) : process_end * world FS :=
  match e_missing_deps E with
  | _ :: _ =>
      ({| exit_code := 1%Z; traceback := None |},
       snd (print (PptMissingDeps (e_missing_deps E)) w))
  | [] =>
      match main w with
      | (Ret _, w') => (normal_exit, w')
      | (Raise KeyboardInterrupt, w') =>
          (normal_exit, snd (print PptCancelled w'))
      | (Raise e, w') =>
          if is_Exception e
          then (uncaught e, snd (print (PptError e) w'))
          else (uncaught e, w')
      end
  end.

End Program.
End Ppt2pdf.

(* ================================================================== *)
(** ** A file system to run the programs on

    Directories are trees; a path is looked up by its components, empty
    components and [.] being skipped.  It is used for the examples; the
    general statements hold for every [FileSystem] that obeys
    [FileSystemLaws]. *)

Module TreeFS.
Import Py Rt.

#[warnings="-register-all"]
Inductive node : Type :=
| File (size : Z)
| Dir (entries : list (string * node)).

Definition components (p : string) : list string :=
  filter (fun c => negb (String.eqb c "") && negb (String.eqb c "."))
         (split "/"%char p).

Fixpoint entry (n : string) (es : list (string * node)) : option node :=
  match es with
  | [] => None
  | (n', t) :: es' => if String.eqb n n' then Some t else entry n es'
  end.

Fixpoint resolve (cs : list string) (t : node) : option node :=
  match cs with
  | [] => Some t
  | c :: cs' =>
      match t with
      | File _ => None
      | Dir es =>
          match entry c es with
          | Some t' => resolve cs' t'
          | None => None
          end
      end
  end.

(** Replace the entry [n] by [g] of it, or add [g (Dir [])] at the end. *)
Fixpoint upsert (n : string) (g : node -> option node)
         (es : list (string * node)) : option (list (string * node)) :=
  match es with
  | [] => option_map (fun t => [(n, t)]) (g (Dir []))
  | (n', t) :: es' =>
      if String.eqb n n' then option_map (fun t' => (n', t') :: es') (g t)
      else option_map (cons (n', t)) (upsert n g es')
  end.

Fixpoint mkdirs (cs : list string) (t : node) : option node :=
  match cs with
  | [] => match t with
          | Dir _ => Some t
          | File _ => None
          end
  | c :: cs' =>
      match t with
      | File _ => None
      | Dir es => option_map Dir (upsert c (mkdirs cs') es)
      end
  end.

#[export] Instance tree_fs : FileSystem node := {
  isdir f p :=
    match resolve (components p) f with
    | Some (Dir _) => true
    | _ => false
    end;
  listdir f p :=
    match resolve (components p) f with
    | Some (Dir es) => Some (map fst es)
    | _ => None
    end;
  getsize f p :=
    match resolve (components p) f with
    | Some (File n) => Some n
    | Some (Dir _) => Some 0%Z
    | None => None
    end;
  makedirs f p := mkdirs (components p) f
}.

(** Tables that leave text outside ASCII alone, for running the
    programs on ASCII text, where they are not consulted.  They are not
    Python's, and no theorem is stated for them: the theorems hold for
    every [Unicode]. *)
#[export] Instance plain_text : Unicode := {
  u_lower s := s;
  u_strip s := s;
  u_int _ := None
}.

(** An environment in which every external call succeeds. *)
Definition quiet : env :=
  {| e_proc := fun _ _ => Exit 0;
     e_com := fun _ _ => None;
     e_resolve := fun p => p;
     e_script_dir := "/opt/mkpdf";
     e_cwd := "/home/op";
     e_missing_deps := [] |}.

(** An environment in which the first command exits with status 1 and
    the first application refuses to export. *)
Definition flaky : env :=
  {| e_proc := fun n _ => if Nat.eqb n 0 then Exit 1 else Exit 0;
     e_com := fun app c =>
                match app, c with
                | O, SaveAs _ _ => Some (COMError 5)
                | _, _ => None
                end;
     e_resolve := fun p => p;
     e_script_dir := "/opt/mkpdf";
     e_cwd := "/home/op";
     e_missing_deps := [] |}.

(** An environment in which the converter cannot be started. *)
Definition unlaunched : env :=
  {| e_proc := fun _ _ => LaunchFailure;
     e_com := fun _ _ => None;
     e_resolve := fun p => p;
     e_script_dir := "/opt/mkpdf";
     e_cwd := "/home/op";
     e_missing_deps := [] |}.

(** An environment in which no application can be quit. *)
Definition stubborn : env :=
  {| e_proc := fun _ _ => Exit 0;
     e_com := fun _ c =>
                match c with
                | Quit => Some (COMError 9)
                | _ => None
                end;
     e_resolve := fun p => p;
     e_script_dir := "/opt/mkpdf";
     e_cwd := "/home/op";
     e_missing_deps := [] |}.

(** A directory [docs] with documents, presentations and a
    sub-directory whose name looks like a document. *)
Definition sample : node :=
  Dir [("docs", Dir [("b.pdf", File 10); ("a.pdf", Dir []);
                     ("c.docx", File 3); ("B.pptx", File 5);
                     ("a.pptx", File 7)])].

End TreeFS.

(* ================================================================== *)
(** ** Runs used as examples *)

Module Scenario.
Import Rt TreeFS.

(** [ppt2pdf] on [docs], everything selected, the first export failing. *)
Definition failing_export : process_end * world node :=
  Ppt2pdf.program flaky
    (initial sample [Line "docs"; Line "0"; Line "y"; Line ""]).

End Scenario.

(* ================================================================== *)
(** ** Vocabulary of the statements *)

Module Spec.
Import Py PosixPath Rt.

(** What [dirname] can return: nothing, only separators, or a string
    that does not end with a separator. *)
Definition dirname_shape (d : string) : Prop :=
  rstrip_char sep d = d \/ d = repeat_char sep (String.length d).




(** The selection an operator means by the 1-based numbers [typed]:
    numbers outside [1, N] are dropped, the others are replaced by the
    candidate they number, in the order typed, repeats included. *)
Definition in_range (N : nat) (n : Z) : bool :=
  (1 <=? n)%Z && (n <=? Z.of_nat N)%Z.

Definition selection_of (files : list Ppt2pdf.Path) (typed : list Z)
  : list Ppt2pdf.Path :=
  map (fun n => nth (Z.to_nat (n - 1)) files "")
      (filter (in_range (List.length files)) typed).

(** [typed] are the integers written in [selection], field by field. *)
Definition reads_as {U : Unicode} (selection : string) (typed : list Z)
  : Prop :=
  Forall2 (fun field n => int (strip field) = Some n)
          (split ","%char selection) typed.

(** Every candidate can be looked at by [stat]. *)
Definition all_stat {FS : Type} `{FileSystem FS} (f : FS)
           (files : list Ppt2pdf.Path) : Prop :=
  Forall (fun p => getsize f p <> None) files.



Definition printed (ev : event) : Prop :=
  match ev with
  | Print _ => True
  | _ => False
  end.

(** A call that leaves the program: the converter or the application. *)
Definition external (ev : event) : bool :=
  match ev with
  | Run _ | Com _ _ => true
  | _ => false
  end.

(** The commands run, in order. *)
Definition runs_of (t : list event) : list (list string) :=
  flat_map (fun ev => match ev with
                      | Run argv => [argv]
                      | _ => []
                      end) t.

(** The applications started, in order. *)
Definition apps_of (t : list event) : list nat :=
  flat_map (fun ev => match ev with
                      | Com app CreateObject => [app]
                      | _ => []
                      end) t.

(** The command [mkpdf] runs for the entry [file]. *)
Definition argv_for (input_dir output_dir file : string) : list string :=
  let file_path := join input_dir file in
  Mkpdf.markitdown_argv file_path
                        (Mkpdf.output_path_of file_path (Some output_dir)).

Definition succeeded (o : proc_outcome) : bool :=
  match o with
  | Exit code => Z.eqb code 0
  | _ => false
  end.

(** How many of [files] the converter handles with exit status 0, when
    the first of them is the [n]-th command of the run. *)
Fixpoint successes (E : env) (input_dir output_dir : string) (n : nat)
         (files : list string) : nat :=
  match files with
  | [] => 0
  | file :: rest =>
      (if succeeded (e_proc E n (argv_for input_dir output_dir file))
       then 1 else 0)
      + successes E input_dir output_dir (S n) rest
  end.

(** The conversion of [pptx_path] into [pdf_path] by the application
    [app] fails with [e]: the application cannot be started, or the
    document cannot be opened either way, or it is opened and the export
    fails. *)
Definition conversion_fails (E : env) (app : nat)
           (pptx_path pdf_path : string) (e : exn) : Prop :=
  e_com E app CreateObject = Some e \/
  (e_com E app CreateObject = None /\
   e_com E app (OpenNoWindow pptx_path) <> None /\
   e_com E app (Open pptx_path) = Some e) \/
  (e_com E app CreateObject = None /\
   (e_com E app (OpenNoWindow pptx_path) = None \/
    e_com E app (Open pptx_path) = None) /\
   e_com E app (SaveAs pdf_path 32) = Some e).

(** [p] names an entry of the directory [d]: it is [d] joined with one
    path component. *)
Definition lies_in (d p : string) : Prop :=
  exists name,
    name <> ""%string /\ rfind sep name = (-1)%Z /\ p = join d name.

(** The event writes into the directory [d], if it writes at all: the
    path after [-o] of a converter command names an entry of [d], and the
    path an application saves to names an entry of [d] as resolved. *)
Definition aims_at (E : env) (d : string) (ev : event) : Prop :=
  match ev with
  | Run argv =>
      exists file_path output_path,
        argv = ["markitdown"; file_path; "-o"; output_path]%string /\
        lies_in d output_path
  | Com _ (SaveAs p _) => lies_in (e_resolve E d) p
  | Makedirs _ => False
  | _ => True
  end.

Section Steps.
Context {FS : Type} `{FileSystem FS} {U : Unicode}.

(** [m] adds to the trace only events that satisfy [P], and leaves the
    file system alone. *)
Definition emits_only {A} (P : event -> Prop) (m : M FS A) : Prop :=
  forall w, exists evs,
    w_trace (snd (m w)) = w_trace w ++ evs /\
    Forall P evs /\
    w_fs (snd (m w)) = w_fs w.

(** The new events are console output, then possibly the creation of
    a directory [d] that exists from then on, then events that aim at
    [d]. *)
Definition orderly_events (E : env) (evs : list event) (f : FS) : Prop :=
  Forall printed evs \/
  exists pre d post,
    evs = pre ++ Makedirs d :: post /\
    Forall printed pre /\
    isdir f d = true /\
    Forall (aims_at E d) post.

Definition orderly {A} (E : env) (m : M FS A) : Prop :=
  forall w, exists evs,
    w_trace (snd (m w)) = w_trace w ++ evs /\
    orderly_events E evs (w_fs (snd (m w))).

(** Every external call of the trace comes after the creation of the
    directory it aims at, and that directory exists. *)
Definition created_before (E : env) (w : world FS) : Prop :=
  forall pre ev post,
    w_trace w = pre ++ ev :: post ->
    external ev = true ->
    exists d,
      In (Makedirs d) pre /\ isdir (w_fs w) d = true /\ aims_at E d ev.

(** The world after reading one typed line. *)
Definition typed_away (w : world FS) (rest : list key)
           (evs : list event) : world FS :=
  {| w_stdin := rest; w_fs := w_fs w; w_nproc := w_nproc w;
     w_napp := w_napp w; w_trace := w_trace w ++ evs |}.
End Steps.

End Spec.

(* ================================================================== *)
(** ** Vocabulary of the further properties *)

Module Props.
Import Py PosixPath Rt Spec.

(** The document can be opened by the application, one way or the
    other. *)
Definition opened (E : env) (app : nat) (pptx_path : string) : Prop :=
  e_com E app (OpenNoWindow pptx_path) = None \/
  e_com E app (Open pptx_path) = None.

(** The life of the applications along a trace: [None] when none is
    running, [Some a] when [a] is.  An application may only be started
    when none is running, and it runs when [CreateObject] returned it; a
    call may only go to the running one; [Quit] ends it when the call
    succeeds, and leaves it running when the call raises.  A trace that
    breaks this has no state. *)
Definition step_app (E : env) (alive : option nat) (ev : event)
  : option (option nat) :=
  match ev with
  | Com a CreateObject =>
      match alive with
      | None =>
          Some (match e_com E a CreateObject with
                | None => Some a
                | Some _ => None
                end)
      | Some _ => None
      end
  | Com a c =>
      match alive with
      | Some b =>
          if Nat.eqb a b
          then Some (match c with
                     | Quit =>
                         match e_com E a Quit with
                         | None => None
                         | Some _ => alive
                         end
                     | _ => alive
                     end)
          else None
      | None => None
      end
  | _ => Some alive
  end.

Fixpoint run_apps (E : env) (alive : option nat) (evs : list event)
  : option (option nat) :=
  match evs with
  | [] => Some alive
  | ev :: rest =>
      match step_app E alive ev with
      | Some alive' => run_apps E alive' rest
      | None => None
      end
  end.

(** A call on the application [app] other than its start and its end, or
    console output. *)
Definition inner_call (app : nat) (ev : event) : Prop :=
  match ev with
  | Print _ => True
  | Com a c => a = app /\ c <> CreateObject /\ c <> Quit
  | _ => False
  end.

(** No application is running at the start of [evs], none at its end,
    and the calls in between are in order. *)
Definition settled (E : env) (evs : list event) : Prop :=
  run_apps E None evs = Some None.

(** The file [convert_pptx_to_pdf] exports [pptx_path] to. *)
Definition pdf_target (E : env) (pptx_path output_folder : string)
  : string :=
  Ppt2pdf.truediv (e_resolve E output_folder)
                  (Ppt2pdf.stem (e_resolve E pptx_path) ++ ".pdf").

(** The calls the conversion of [pptx_path] into [output_folder] can
    make on its application. *)
Definition call_of (E : env) (pptx_path output_folder : string)
           (c : com_call) : Prop :=
  c = CreateObject \/ c = SetVisible 0 \/
  c = OpenNoWindow (e_resolve E pptx_path) \/
  c = Open (e_resolve E pptx_path) \/
  c = SaveAs (pdf_target E pptx_path output_folder) 32 \/
  c = Close \/ c = Quit.

(** The event is console output, the creation of a directory, or a call
    of the conversion of one of [files]. *)
Definition concerns (E : env) (files : list string) (ev : event) : Prop :=
  match ev with
  | Com _ c =>
      exists file output_folder,
        In file files /\ call_of E file output_folder c
  | Run _ => False
  | _ => True
  end.

(** The entries of the directory [d], none when it cannot be listed. *)
Definition entries {FS : Type} `{FileSystem FS} (f : FS) (d : string)
  : list string :=
  match listdir f d with
  | Some names => names
  | None => []
  end.

(** The event is console output, the creation of a directory, or the
    command that converts one of the entries [names] of [input_dir] into
    an entry of [output_dir]. *)
Definition converts (input_dir output_dir : string) (names : list string)
           (ev : event) : Prop :=
  match ev with
  | Run argv =>
      exists file output_path,
        In file names /\
        lies_in output_dir output_path /\
        argv = ["markitdown"; join input_dir file; "-o"; output_path]%string
  | Com _ _ => False
  | _ => True
  end.

(** The operator has typed [y] at some point. *)
Definition said_yes {U : Unicode} (script : list key) : Prop :=
  exists l, In (Line l) script /\ lower (strip l) = "y"%string.

(** The operator has typed [y] or an empty line at some point. *)
Definition accepted {U : Unicode} (script : list key) : Prop :=
  exists l, In (Line l) script /\
            (l = ""%string \/ lower (strip l) = "y"%string).

(** The files exported, in order. *)
Definition saves_of (t : list event) : list string :=
  flat_map (fun ev => match ev with
                      | Com _ (SaveAs p _) => [p]
                      | _ => []
                      end) t.

Definition not_error (ev : event) : Prop :=
  forall name e, ev <> Print (PptConvertError name e).

Definition not_done (ev : event) : Prop :=
  forall d, ev <> Print (PptDone d).

(** The completion message of [ppt2pdf] comes without any conversion
    error. *)
Definition done_clean (evs : list event) : Prop :=
  (exists d, In (Print (PptDone d)) evs) -> Forall not_error evs.

(** After the operator has declined, [ppt2pdf] has only written to the
    console. *)
Definition declined_idle (evs : list event) : Prop :=
  In (Print PptCancelled) evs -> Forall printed evs.

(** Every summary line of the trace gives the number of commands run as
    its total and no more successes than that. *)
Definition summary_ok (evs : list event) : Prop :=
  forall k n,
    In (Print (MdSummary k n)) evs ->
    k <= n /\ n = List.length (runs_of evs).

(** The messages [mkpdf] prints instead of converting. *)
Definition gave_up (ev : event) : Prop :=
  ev = Print MdCancelled \/
  exists format_name, ev = Print (MdNoneFound format_name).

(** Neither a command nor one of those messages. *)
Definition calm (ev : event) : Prop :=
  (forall argv, ev <> Run argv) /\ ~ gave_up ev.

(** When [mkpdf] gave up, it ran no command. *)
Definition idle (evs : list event) : Prop :=
  (exists ev, In ev evs /\ gave_up ev) -> runs_of evs = [].

(** When [mkpdf] gave up, it ran no command, and it had created a
    directory. *)
Definition prepared (evs : list event) : Prop :=
  (exists ev, In ev evs /\ gave_up ev) ->
  runs_of evs = [] /\ exists d, In (Makedirs d) evs.

(** A piece of a file name: no separator and no dot in it. *)
Definition plain (s : string) : Prop :=
  rfind sep s = (-1)%Z /\ rfind extsep s = (-1)%Z.

(** A field of the answer is not an integer. *)
Definition malformed {U : Unicode} (selection : string) : Prop :=
  exists field,
    In field (split ","%char selection) /\ int (strip field) = None.

(** What can leave [main] of [mkpdf] once it has added the events [evs]
    to the trace: the interrupt of the operator, at any time; as long as
    no converter command has been run, also the end of the typed input
    and an [OSError]. *)
Definition leaves_main (e : exn) (evs : list event) : Prop :=
  e = KeyboardInterrupt \/
  (runs_of evs = [] /\ (e = EOFError \/ exists p, e = OSError p)).

Section Steps.
Context {FS : Type} `{FileSystem FS} {U : Unicode}.

(** The events [m] adds to the trace satisfy [R]. *)
Definition trace_sat {A} (R : list event -> Prop) (m : M FS A) : Prop :=
  forall w, exists evs,
    w_trace (snd (m w)) = w_trace w ++ evs /\ R evs.

(** The events [m] adds to the trace satisfy [R] when [m] returns. *)
Definition on_return {A} (R : list event -> Prop) (m : M FS A) : Prop :=
  forall w a w',
    m w = (Ret a, w') ->
    exists evs, w_trace w' = w_trace w ++ evs /\ R evs.

(** What [m] returns satisfies [Q]. *)
Definition returns {A} (Q : A -> Prop) (m : M FS A) : Prop :=
  forall w a w', m w = (Ret a, w') -> Q a.

(** What [m] raises satisfies [P]. *)
Definition raises_only {A} (P : exn -> Prop) (m : M FS A) : Prop :=
  forall w e w', m w = (Raise e, w') -> P e.

(** What [m] raises, and the events it has added to the trace by then,
    satisfy [P]. *)
Definition raises_after {A} (P : exn -> list event -> Prop)
           (m : M FS A) : Prop :=
  forall w e w',
    m w = (Raise e, w') ->
    exists evs, w_trace w' = w_trace w ++ evs /\ P e evs.

(** The events [m] adds to the trace and the world it ends in satisfy
    [R]. *)
Definition ends_sat {A} (R : world FS -> list event -> Prop)
           (m : M FS A) : Prop :=
  forall w, exists evs,
    w_trace (snd (m w)) = w_trace w ++ evs /\ R (snd (m w)) evs.

(** [m] takes what it reads from the front of the typed lines. *)
Definition reads {A} (m : M FS A) : Prop :=
  forall w, exists used, w_stdin w = used ++ w_stdin (snd (m w)).

(** The events [m] adds to the trace satisfy [S], unless the typed lines
    satisfy [Q]. *)
Definition unless {A} (Q : list key -> Prop) (S : event -> Prop)
           (m : M FS A) : Prop :=
  forall w, exists evs,
    w_trace (snd (m w)) = w_trace w ++ evs /\
    (Forall S evs \/ Q (w_stdin w)).

End Steps.

End Props.

(** Splits a [Forall] over a list built with [++] and [::]. *)
Ltac split_forall :=
  repeat match goal with
         | |- Forall _ (_ ++ _) => apply Forall_app; split
         | |- Forall _ (_ :: _) => constructor
         | |- Forall _ [] => constructor
         end; auto.

Unset Implicit Arguments.

(* ================================================================== *)
(** ** Facts about the string operations *)

Module StrFacts.
Import Py.
Local Open Scope string_scope.


Lemma endswith_intro (p suffix : string) : endswith (p ++ suffix) suffix = true.
Proof.
  induction p as [|c p IH].
  - destruct suffix; cbn [append endswith]; now rewrite String.eqb_refl.
  - cbn [append endswith]. rewrite IH.
    now destruct (String c (p ++ suffix) =? suffix).
Qed.

Lemma endswith_elim (s suffix : string) :
  endswith s suffix = true -> exists p, s = p ++ suffix.
Proof.
  induction s as [|c s IH]; cbn [endswith].
  - destruct ("" =? suffix) eqn:Heq; [|discriminate].
    apply String.eqb_eq in Heq. subst. now exists "".
  - destruct (String c s =? suffix) eqn:Heq.
    + apply String.eqb_eq in Heq. subst. now exists "".
    + intros Hs. destruct (IH Hs) as [p ->]. now exists (String c p).
Qed.

Lemma rfind_lower_bound (c : ascii) (s : string) : (-1 <= rfind c s)%Z.
Proof.
  induction s as [|a s IH]; simpl; [lia|].
  destruct (0 <=? rfind c s)%Z eqn:Hr; [lia|].
  destruct (Ascii.eqb a c); lia.
Qed.

Lemma rfind_none_cons (c a : ascii) (s : string) :
  rfind c (String a s) = (-1)%Z <-> a <> c /\ rfind c s = (-1)%Z.
Proof.
  simpl. pose proof (rfind_lower_bound c s) as Hb.
  destruct (0 <=? rfind c s)%Z eqn:Hr.
  - apply Z.leb_le in Hr. split; [lia | intros [_ ?]; lia].
  - apply Z.leb_gt in Hr.
    destruct (Ascii.eqb_spec a c) as [->|Hne].
    + split; [discriminate | intros [Hc _]; now elim Hc].
    + split; [intros _; split; [assumption | lia] | reflexivity].
Qed.

Lemma rfind_at_last (c : ascii) (h t : string) :
  rfind c t = (-1)%Z ->
  rfind c (h ++ String c t) = Z.of_nat (String.length h).
Proof.
  intros Ht. induction h as [|a h IH].
  - cbn [append String.length rfind]. rewrite Ht. simpl.
    now rewrite Ascii.eqb_refl.
  - cbn [append String.length rfind]. rewrite IH.
    replace (0 <=? Z.of_nat (String.length h))%Z with true
      by (symmetry; apply Z.leb_le; lia).
    lia.
Qed.

Lemma rfind_cases (c : ascii) (s : string) :
  rfind c s = (-1)%Z \/
  exists h t, s = h ++ String c t /\ rfind c t = (-1)%Z.
Proof.
  induction s as [|a s IH]; [now left|].
  destruct IH as [Hn | (h & t & -> & Ht)].
  - destruct (Ascii.eqb_spec a c) as [->|Hne].
    + right. exists "", s. now split.
    + left. now apply rfind_none_cons.
  - right. exists (String a h), t. now split.
Qed.

Lemma rfind_none_app (c : ascii) (a b : string) :
  rfind c a = (-1)%Z -> rfind c b = (-1)%Z -> rfind c (a ++ b) = (-1)%Z.
Proof.
  induction a as [|x a IH]; intros Ha Hb; [exact Hb|].
  apply rfind_none_cons in Ha. destruct Ha as [Hx Ha].
  cbn [append]. apply rfind_none_cons. auto.
Qed.

Lemma rfind_none_substring (c : ascii) (s : string) (n : nat) :
  rfind c s = (-1)%Z -> rfind c (substring 0 n s) = (-1)%Z.
Proof.
  revert n. induction s as [|a s IH]; intros [|n] Hs; try reflexivity.
  apply rfind_none_cons in Hs. destruct Hs as [Ha Hs].
  cbn [substring]. apply rfind_none_cons. auto.
Qed.

Lemma substring_all (s : string) : substring 0 (String.length s) s = s.
Proof. induction s as [|a s IH]; simpl; congruence. Qed.

Lemma substring_app_left (h t : string) :
  substring 0 (String.length h) (h ++ t) = h.
Proof.
  induction h as [|a h IH]; simpl; [now destruct t | congruence].
Qed.

Lemma substring_app_right (h t : string) (n : nat) :
  substring (String.length h) n (h ++ t) = substring 0 n t.
Proof. induction h as [|a h IH]; simpl; auto. Qed.

Lemma length_app (a b : string) :
  String.length (a ++ b) = String.length a + String.length b.
Proof. induction a as [|x a IH]; simpl; auto. Qed.

Lemma app_assoc (a b c : string) : (a ++ b) ++ c = a ++ (b ++ c).
Proof. induction a as [|x a IH]; simpl; congruence. Qed.

Lemma app_empty_r (a : string) : a ++ "" = a.
Proof. induction a as [|x a IH]; simpl; congruence. Qed.

(** Slicing at the last separator. *)
Lemma slice_to_last (c : ascii) (h t : string) :
  rfind c t = (-1)%Z ->
  slice_to (rfind c (h ++ String c t) + 1) (h ++ String c t)
  = h ++ String c "".
Proof.
  intros Ht. rewrite (rfind_at_last c h t Ht). unfold slice_to.
  replace (Z.to_nat (Z.of_nat (String.length h) + 1))
    with (String.length (h ++ String c "")) by (rewrite length_app; simpl; lia).
  replace (h ++ String c t) with ((h ++ String c "") ++ t)
    by (now rewrite app_assoc).
  apply substring_app_left.
Qed.

Lemma slice_from_last (c : ascii) (h t : string) :
  rfind c t = (-1)%Z ->
  slice_from (rfind c (h ++ String c t) + 1) (h ++ String c t) = t.
Proof.
  intros Ht. rewrite (rfind_at_last c h t Ht). unfold slice_from.
  replace (Z.to_nat (Z.of_nat (String.length h) + 1))
    with (String.length (h ++ String c "")) by (rewrite length_app; simpl; lia).
  replace (h ++ String c t) with ((h ++ String c "") ++ t)
    by (now rewrite app_assoc).
  rewrite substring_app_right, !length_app.
  replace (String.length h + String.length (String c "") + String.length t
           - (String.length h + String.length (String c "")))
    with (String.length t) by lia.
  apply substring_all.
Qed.

Lemma slice_none (c : ascii) (s : string) :
  rfind c s = (-1)%Z ->
  slice_to (rfind c s + 1) s = "" /\ slice_from (rfind c s + 1) s = s.
Proof.
  intros ->. unfold slice_to, slice_from. simpl. split.
  - now destruct s.
  - rewrite Nat.sub_0_r. apply substring_all.
Qed.

End StrFacts.

(* ================================================================== *)
(** ** Facts about [os.path] *)

Module PathFacts.
Import Py PosixPath Spec StrFacts.
Local Open Scope string_scope.

Lemma repeat_snoc (c : ascii) (n : nat) :
  repeat_char c (S n) = repeat_char c n ++ String c "".
Proof.
  induction n as [|n IH]; [reflexivity|]. simpl in *. now rewrite <- IH.
Qed.

Lemma length_repeat (c : ascii) (n : nat) :
  String.length (repeat_char c n) = n.
Proof. induction n; simpl; auto. Qed.

Lemma snoc_repeat_inv (c : ascii) (h : string) (n : nat) :
  h ++ String c "" = repeat_char c (S n) -> h = repeat_char c n.
Proof.
  revert n. induction h as [|a h IH]; intros n Heq.
  - destruct n; [reflexivity|]. simpl in Heq. discriminate.
  - destruct n as [|n].
    + simpl in Heq. destruct h; discriminate.
    + cbn [append repeat_char] in Heq. injection Heq as -> Heq.
      cbn [repeat_char]. f_equal. now apply IH.
Qed.

Lemma rstrip_char_repeat (c : ascii) (n : nat) :
  rstrip_char c (repeat_char c n) = "".
Proof.
  induction n as [|n IH]; [reflexivity|].
  cbn [repeat_char rstrip_char]. rewrite IH. now rewrite Ascii.eqb_refl.
Qed.

Lemma rstrip_char_snoc (c : ascii) (d : string) :
  rstrip_char c (d ++ String c "") = rstrip_char c d.
Proof.
  induction d as [|a d IH].
  - simpl. now rewrite Ascii.eqb_refl.
  - cbn [append rstrip_char]. now rewrite IH.
Qed.

Lemma rstrip_char_idem (c : ascii) (d : string) :
  rstrip_char c (rstrip_char c d) = rstrip_char c d.
Proof.
  induction d as [|a d IH]; [reflexivity|].
  cbn [rstrip_char]. destruct (rstrip_char c d) as [|b r] eqn:Hr.
  - destruct (Ascii.eqb a c) eqn:Hac; [reflexivity|].
    cbn [rstrip_char]. now rewrite Hac.
  - cbn [rstrip_char] in *. now rewrite IH.
Qed.

Lemma rstrip_fixed_no_sep (c : ascii) (d : string) :
  rstrip_char c d = d -> d <> "" -> endswith d (String c "") = false.
Proof.
  induction d as [|a d IH]; intros Hfix Hne; [congruence|].
  cbn [rstrip_char] in Hfix.
  destruct (rstrip_char c d) as [|b r] eqn:Hr.
  - destruct (Ascii.eqb_spec a c) as [->|Hac]; [discriminate|].
    injection Hfix as <-. cbn. 
    destruct (Ascii.eqb_spec a c); [contradiction | reflexivity].
  - injection Hfix as <-.
    cbn [endswith].
    replace (String a (String b r) =? String c "") with false.
    + apply IH; [reflexivity | discriminate].
    + symmetry. apply String.eqb_neq. intros Heq. discriminate.
Qed.

Lemma sep_free_not_absolute (n : string) :
  rfind sep n = (-1)%Z -> startswith n (String sep "") = false.
Proof.
  destruct n as [|a n]; [reflexivity|].
  intros Hn. apply rfind_none_cons in Hn. destruct Hn as [Ha _].
  unfold startswith. cbn [prefix].
  destruct (ascii_dec sep a) as [Heq|]; [now elim Ha | reflexivity].
Qed.

Lemma dirname_has_shape (p : string) : dirname_shape (dirname p).
Proof.
  unfold dirname. set (head := slice_to (rfind sep p + 1) p).
  destruct (String.eqb_spec head "") as [->|Hne]; cbn [negb andb].
  - now left.
  - destruct (String.eqb_spec head (repeat_char sep (String.length head)))
      as [Hall|Hnot]; cbn [negb].
    + now right.
    + left. apply rstrip_char_idem.
Qed.

Lemma head_of_free (n : string) :
  rfind sep n = (-1)%Z -> dirname n = "" /\ basename n = n.
Proof.
  intros Hn. unfold dirname, basename.
  destruct (slice_none sep n Hn) as [-> ->]. now split.
Qed.

Lemma dirname_join (d n : string) :
  dirname_shape d -> rfind sep n = (-1)%Z -> dirname (join d n) = d.
Proof.
  intros Hd Hn. unfold join. rewrite (sep_free_not_absolute n Hn).
  destruct (String.eqb_spec d "") as [->|Hne]; cbn [orb].
  - cbn [append]. now apply head_of_free.
  - destruct Hd as [Hfix|Hall].
    + rewrite (rstrip_fixed_no_sep sep d Hfix Hne).
      cbn [append]. unfold dirname.
      rewrite (slice_to_last sep d n Hn).
      destruct (String.eqb_spec (d ++ String sep "") "") as [He|_].
      { destruct d; discriminate. }
      cbn [negb andb].
      destruct (String.eqb_spec (d ++ String sep "")
                  (repeat_char sep (String.length (d ++ String sep ""))))
        as [He|_]; cbn [negb].
      { exfalso. rewrite length_app in He. cbn in He.
        rewrite Nat.add_1_r in He. apply snoc_repeat_inv in He.
        rewrite He, rstrip_char_repeat in Hfix. congruence. }
      rewrite rstrip_char_snoc. exact Hfix.
    + destruct (String.length d) as [|k] eqn:Hlen.
      { destruct d; [congruence | discriminate]. }
      rewrite Hall, repeat_snoc, endswith_intro, app_assoc.
      cbn [append]. unfold dirname.
      rewrite (slice_to_last sep (repeat_char sep k) n Hn).
      rewrite <- repeat_snoc, length_repeat, String.eqb_refl.
      now rewrite andb_false_r.
Qed.

Lemma basename_join (d n : string) :
  rfind sep n = (-1)%Z -> basename (join d n) = n.
Proof.
  intros Hn. unfold join. rewrite (sep_free_not_absolute n Hn).
  destruct (String.eqb_spec d "") as [->|Hne]; cbn [orb].
  - now apply head_of_free.
  - destruct (endswith d (String sep "")) eqn:Hc.
    + apply endswith_elim in Hc. destruct Hc as [h ->].
      rewrite app_assoc. cbn [append]. unfold basename.
      now apply slice_from_last.
    + unfold basename. now apply slice_from_last.
Qed.

Lemma basename_sep_free (p : string) : rfind sep (basename p) = (-1)%Z.
Proof.
  destruct (rfind_cases sep p) as [Hp | (h & t & -> & Ht)].
  - now rewrite (proj2 (head_of_free p Hp)).
  - unfold basename. now rewrite (slice_from_last sep h t Ht).
Qed.

Lemma splitext_root_sep_free (b : string) :
  rfind sep b = (-1)%Z -> rfind sep (fst (splitext b)) = (-1)%Z.
Proof.
  intros Hb. unfold splitext.
  destruct (_ && _); cbn [fst]; [|exact Hb].
  now apply rfind_none_substring.
Qed.

(** The name [mkpdf] gives its output file. *)
Lemma md_name_plain (file_path : string) :
  let name := fst (splitext (basename file_path)) ++ ".md" in
  name <> "" /\ rfind sep name = (-1)%Z.
Proof.
  cbn zeta. split.
  - destruct (fst (splitext (basename file_path))); discriminate.
  - apply StrFacts.rfind_none_app; [|reflexivity].
    apply splitext_root_sep_free, basename_sep_free.
Qed.

Lemma output_path_lies_in (file_path d : string) :
  lies_in d (Mkpdf.output_path_of file_path (Some d)).
Proof.
  exists (fst (splitext (basename file_path)) ++ ".md").
  destruct (md_name_plain file_path) as [Hne Hfree]. auto.
Qed.

Lemma stem_sep_free (p : string) : rfind sep (Ppt2pdf.stem p) = (-1)%Z.
Proof.
  unfold Ppt2pdf.stem, Ppt2pdf.path_name.
  destruct (_ && _); [|apply basename_sep_free].
  apply StrFacts.rfind_none_substring, basename_sep_free.
Qed.

(** The name [ppt2pdf] gives its output file. *)
Lemma pdf_path_lies_in (folder pptx_path : string) :
  lies_in folder
          (Ppt2pdf.truediv folder (Ppt2pdf.stem pptx_path ++ ".pdf")).
Proof.
  exists (Ppt2pdf.stem pptx_path ++ ".pdf"). repeat split.
  - destruct (Ppt2pdf.stem pptx_path); discriminate.
  - apply StrFacts.rfind_none_app; [apply stem_sep_free | reflexivity].
Qed.

End PathFacts.

(* ================================================================== *)
(** ** Reasoning about the steps of a run *)

Module StepFacts.
Import Py PosixPath Rt Spec.

Section Steps.
Context {FS : Type} {HFS : FileSystem FS} {U : Unicode}.

Lemma emits_only_weaken {A} (P Q : event -> Prop) (m : M FS A) :
  (forall ev, P ev -> Q ev) -> emits_only P m -> emits_only Q m.
Proof.
  intros HPQ Hm w. destruct (Hm w) as (evs & Ht & HP & Hf).
  exists evs. repeat split; auto.
  eapply Forall_impl; eauto.
Qed.

Lemma emits_only_ret {A} (P : event -> Prop) (a : A) :
  emits_only P (ret (FS := FS) a).
Proof.
  intros w. exists []. cbn. now rewrite app_nil_r.
Qed.

Lemma emits_only_raise {A} (P : event -> Prop) (e : exn) :
  emits_only P (raise (FS := FS) (A := A) e).
Proof.
  intros w. exists []. cbn. now rewrite app_nil_r.
Qed.

Lemma emits_only_emits (P : event -> Prop) (evs : list event) :
  Forall P evs -> emits_only P (emits (FS := FS) evs).
Proof.
  intros HP w. exists evs. cbn. auto.
Qed.

Lemma emits_only_print (P : event -> Prop) (m : msg) :
  P (Print m) -> emits_only P (print (FS := FS) m).
Proof.
  intros HP. apply emits_only_emits. now constructor.
Qed.

Lemma emits_only_bind {A B} (P : event -> Prop) (m : M FS A)
      (k : A -> M FS B) :
  emits_only P m -> (forall a, emits_only P (k a)) ->
  emits_only P (bind m k).
Proof.
  intros Hm Hk w. unfold bind.
  destruct (Hm w) as (evs1 & Ht1 & HP1 & Hf1).
  destruct (m w) as [[a|e] w1]; cbn [snd] in *.
  - destruct (Hk a w1) as (evs2 & Ht2 & HP2 & Hf2).
    exists (evs1 ++ evs2). rewrite Ht2, Ht1, Hf2, Hf1, app_assoc.
    repeat split; auto. now apply Forall_app.
  - exists evs1. auto.
Qed.

Lemma emits_only_try {A} (P : event -> Prop) (m : M FS A)
      (handles : exn -> bool) (h : exn -> M FS A) :
  emits_only P m -> (forall e, emits_only P (h e)) ->
  emits_only P (try_except m handles h).
Proof.
  intros Hm Hh w. unfold try_except.
  destruct (Hm w) as (evs1 & Ht1 & HP1 & Hf1).
  destruct (m w) as [[a|e] w1]; cbn [snd] in *.
  - exists evs1. auto.
  - destruct (handles e); cbn [snd].
    + destruct (Hh e w1) as (evs2 & Ht2 & HP2 & Hf2).
      exists (evs1 ++ evs2). rewrite Ht2, Ht1, Hf2, Hf1, app_assoc.
      repeat split; auto. now apply Forall_app.
    + exists evs1. auto.
Qed.

Lemma ask_loop_prints {A} (q : msg) (body : string -> A + msg)
      (script : list key) :
  Forall printed (snd (ask_loop q body script)).
Proof.
  induction script as [|[l|] script IH]; cbn [ask_loop].
  - repeat constructor.
  - destruct (body l) as [a|complaint].
    + repeat constructor.
    + destruct (ask_loop q body script) as [[r rest] evs].
      cbn [snd] in *. repeat constructor. exact IH.
  - repeat constructor.
Qed.

Lemma emits_only_ask {A} (P : event -> Prop) (q : msg)
      (body : string -> A + msg) :
  (forall m, P (Print m)) -> emits_only P (ask (FS := FS) q body).
Proof.
  intros HP w. unfold ask.
  pose proof (ask_loop_prints q body (w_stdin w)) as Hpr.
  destruct (ask_loop q body (w_stdin w)) as [[r rest] evs].
  exists evs. cbn in *. repeat split; auto.
  eapply Forall_impl; [|exact Hpr].
  intros [m| | |]; cbn; intros Hm; try contradiction. apply HP.
Qed.

Lemma emits_only_listdir (P : event -> Prop) (p : string) :
  emits_only P (os_listdir (FS := FS) p).
Proof.
  intros w. exists []. unfold os_listdir.
  destruct (listdir (w_fs w) p); cbn; now rewrite app_nil_r.
Qed.

Lemma emits_only_stat (P : event -> Prop) (p : string) :
  emits_only P (stat_size (FS := FS) p).
Proof.
  intros w. exists []. unfold stat_size.
  destruct (getsize (w_fs w) p); cbn; now rewrite app_nil_r.
Qed.

Lemma orderly_of_console {A} (E : env) (m : M FS A) :
  emits_only printed m -> orderly E m.
Proof.
  intros Hm w. destruct (Hm w) as (evs & Ht & HP & _).
  exists evs. split; [assumption | now left].
Qed.

Lemma orderly_bind {A B} (E : env) (m : M FS A) (k : A -> M FS B) :
  emits_only printed m -> (forall a, orderly E (k a)) ->
  orderly E (bind m k).
Proof.
  intros Hm Hk w. unfold bind.
  destruct (Hm w) as (evs1 & Ht1 & HP1 & Hf1).
  destruct (m w) as [[a|e] w1]; cbn [snd] in *.
  - destruct (Hk a w1) as (evs2 & Ht2 & Hshape).
    exists (evs1 ++ evs2). rewrite Ht2, Ht1, app_assoc. split; [reflexivity|].
    destruct Hshape as [Hall | (pre & d & post & -> & Hpre & Hd & Hpost)].
    + left. now apply Forall_app.
    + right. exists (evs1 ++ pre), d, post.
      rewrite <- app_assoc. repeat split; auto. now apply Forall_app.
  - exists evs1. split; [assumption | now left].
Qed.

Lemma orderly_makedirs {A} {HL : FileSystemLaws FS} (E : env) (d : string)
      (k : M FS A) :
  emits_only (aims_at E d) k -> orderly E (bind (os_makedirs d) (fun _ => k)).
Proof.
  intros Hk w. unfold bind, os_makedirs.
  destruct (makedirs (w_fs w) d) as [f'|] eqn:Hmk.
  - match goal with
    | |- context [k ?w0] => destruct (Hk w0) as (evs & Ht & HP & Hf)
    end.
    cbn [w_trace w_fs] in *.
    exists (Makedirs d :: evs). rewrite Ht, <- app_assoc. split; [reflexivity|].
    right. exists [], d, evs. rewrite Hf.
    repeat split; auto. eapply makedirs_isdir; eauto.
  - exists []. cbn. rewrite app_nil_r. split; [reflexivity | now left].
Qed.

Lemma created_before_of_orderly (E : env) (w : world FS) :
  orderly_events E (w_trace w) (w_fs w) -> created_before E w.
Proof.
  intros Hshape pre ev post Ht Hext.
  destruct Hshape as [Hall | (ps & d & after & Heq & Hps & Hd & Hafter)].
  - rewrite Ht in Hall. apply Forall_app in Hall. destruct Hall as [_ Hall].
    inversion Hall as [|? ? Hev _]; subst.
    destruct ev; cbn in *; try contradiction; discriminate.
  - rewrite Heq in Ht. apply app_eq_app in Ht.
    destruct Ht as [l [[-> Hl] | [-> Hl]]].
    + destruct l as [|x l]; cbn in Hl.
      * injection Hl as Hev _. subst ev. discriminate.
      * injection Hl as Hev _. subst x. apply Forall_app in Hps.
        destruct Hps as [_ Hps]. inversion Hps as [|? ? Hev _]; subst.
        destruct ev; cbn in *; try contradiction; discriminate.
    + destruct l as [|x l]; cbn in Hl.
      * injection Hl as Hev _. subst ev. discriminate.
      * injection Hl as Hx Hafter'. subst x after.
        exists d. repeat split; auto.
        -- apply in_or_app. right. now left.
        -- apply Forall_app in Hafter. destruct Hafter as [_ Hafter].
           now inversion Hafter.
Qed.

End Steps.
End StepFacts.

(* ================================================================== *)
(** ** The tree file system obeys the laws *)

Module TreeFacts.
Import Py Rt TreeFS.

Lemma upsert_entry (n : string) (g : node -> option node)
      (es es' : list (string * node)) :
  upsert n g es = Some es' ->
  exists t0 t1, g t0 = Some t1 /\ entry n es' = Some t1.
Proof.
  revert es'. induction es as [|[n' t] es IH]; intros es' Hup; cbn in Hup.
  - destruct (g (Dir [])) as [t1|] eqn:Hg; [|discriminate].
    injection Hup as <-. exists (Dir []), t1. cbn.
    now rewrite String.eqb_refl.
  - destruct (String.eqb_spec n n') as [->|Hne].
    + destruct (g t) as [t1|] eqn:Hg; [|discriminate].
      injection Hup as <-. exists t, t1. cbn.
      now rewrite String.eqb_refl.
    + destruct (upsert n g es) as [es1|] eqn:Hes; [|discriminate].
      injection Hup as <-. destruct (IH es1 eq_refl) as (t0 & t1 & Hg & He).
      exists t0, t1. cbn. apply String.eqb_neq in Hne. now rewrite Hne.
Qed.

Lemma mkdirs_resolve (cs : list string) (t t' : node) :
  mkdirs cs t = Some t' -> exists es, resolve cs t' = Some (Dir es).
Proof.
  revert t t'. induction cs as [|c cs IH]; intros t t' Hmk; cbn in Hmk.
  - destruct t as [|es]; [discriminate|]. injection Hmk as <-.
    now exists es.
  - destruct t as [|es]; [discriminate|].
    destruct (upsert c (mkdirs cs) es) as [es'|] eqn:Hup; [|discriminate].
    injection Hmk as <-.
    destruct (upsert_entry c (mkdirs cs) es es' Hup) as (t0 & t1 & Hg & He).
    cbn. rewrite He. eapply IH; eauto.
Qed.

Lemma tree_fs_laws : FileSystemLaws node.
Proof.
  split.
  - intros f p. cbn.
    destruct (resolve (components p) f) as [[|es]|]; congruence.
  - intros f f' p Hmk. cbn in *.
    destruct (mkdirs_resolve _ _ _ Hmk) as [es ->]. reflexivity.
Qed.

End TreeFacts.

(* ================================================================== *)
(** ** The shape of the traces of the two programs *)

Module RunFacts.
Import Py PosixPath Rt Spec StepFacts.

Section Runs.
Context {FS : Type} {HFS : FileSystem FS} {U : Unicode}.
Variable E : env.

Lemma printed_aims (d : string) (ev : event) : printed ev -> aims_at E d ev.
Proof. destruct ev; cbn; tauto. Qed.

Lemma emits_only_run (P : event -> Prop) (argv : list string) :
  P (Run argv) -> emits_only P (subprocess_run (FS := FS) E argv).
Proof.
  intros HP w. exists [Run argv]. unfold subprocess_run.
  destruct (e_proc E (w_nproc w) argv) as [code| |];
    [destruct (Z.eqb code 0)| |]; cbn; auto.
Qed.

Lemma emits_only_create (P : event -> Prop) :
  (forall app, P (Com app CreateObject)) ->
  emits_only P (create_object (FS := FS) E).
Proof.
  intros HP w. exists [Com (w_napp w) CreateObject]. unfold create_object.
  destruct (e_com E (w_napp w) CreateObject); cbn; auto.
Qed.

Lemma emits_only_com (P : event -> Prop) (app : nat) (c : com_call) :
  P (Com app c) -> emits_only P (com_invoke (FS := FS) E app c).
Proof.
  intros HP w. exists [Com app c]. unfold com_invoke.
  destruct (e_com E app c); cbn; auto.
Qed.

(** *** mkpdf *)

Lemma convert_file_to_md_aims (d file_path : string) :
  emits_only (aims_at E d)
             (Mkpdf.convert_file_to_md (FS := FS) E file_path (Some d)).
Proof.
  unfold Mkpdf.convert_file_to_md.
  apply emits_only_bind; [now apply emits_only_print|]. intros _.
  apply emits_only_try.
  - apply emits_only_bind.
    + apply emits_only_run. cbn. exists file_path. eexists.
      split; [reflexivity | apply PathFacts.output_path_lies_in].
    + intros _. apply emits_only_bind; [now apply emits_only_print|].
      intros _. apply emits_only_ret.
  - intros e. apply emits_only_bind; [now apply emits_only_print|].
    intros _. apply emits_only_ret.
Qed.

Lemma convert_all_aims (input_dir d : string) (files : list string)
      (c : nat) :
  emits_only (aims_at E d) (Mkpdf.convert_all (FS := FS) E input_dir d files c).
Proof.
  revert c. induction files as [|file files IH]; intros c; cbn.
  - apply emits_only_ret.
  - apply emits_only_bind; [apply convert_file_to_md_aims|].
    intros ok. apply IH.
Qed.

Lemma find_and_convert_aims (input_dir d : string) (fmt : Mkpdf.format) :
  emits_only (aims_at E d)
             (Mkpdf.find_and_convert (FS := FS) E input_dir d fmt).
Proof.
  unfold Mkpdf.find_and_convert, Mkpdf.list_target_files.
  apply emits_only_bind.
  - apply emits_only_bind; [apply emits_only_listdir|].
    intros listing. apply emits_only_ret.
  - intros [|file files]; [now apply emits_only_print|].
    apply emits_only_bind; [now apply emits_only_print|]. intros _.
    apply emits_only_bind; [now apply emits_only_ask|]. intros [|].
    + apply emits_only_bind; [apply convert_all_aims|].
      intros n. now apply emits_only_print.
    + now apply emits_only_print.
Qed.

Lemma mkpdf_main_orderly {HL : FileSystemLaws FS} :
  orderly E (Mkpdf.main (FS := FS) E).
Proof.
  unfold Mkpdf.main.
  apply orderly_bind; [now apply emits_only_print|]. intros _.
  apply orderly_bind; [now apply emits_only_ask|]. intros input_dir.
  apply orderly_bind; [now apply emits_only_print|]. intros _.
  apply orderly_bind; [now apply emits_only_ask|]. intros choice.
  apply orderly_bind.
  { destruct (Mkpdf.getitem _ _);
      [apply emits_only_ret | apply emits_only_raise]. }
  intros fmt. apply orderly_bind.
  { destruct (String.eqb choice "4"); [|apply emits_only_ret].
    apply emits_only_bind; [now apply emits_only_ask|].
    intros x. apply emits_only_ret. }
  intros fmt'. apply orderly_bind; [now apply emits_only_ask|].
  intros output_dir. apply orderly_makedirs. apply find_and_convert_aims.
Qed.

(** *** ppt2pdf *)

Lemma export_aims (d : string) (app : nat) (pptx : string) :
  emits_only (aims_at E d)
    (Ppt2pdf.export (FS := FS) E app (e_resolve E pptx)
       (Ppt2pdf.truediv (e_resolve E d)
          (Ppt2pdf.stem (e_resolve E pptx) ++ ".pdf"))).
Proof.
  unfold Ppt2pdf.export.
  apply emits_only_bind.
  { apply emits_only_try; [now apply emits_only_com|].
    intros _. now apply emits_only_print. }
  intros _. apply emits_only_bind.
  { apply emits_only_try; [now apply emits_only_com|].
    intros _. now apply emits_only_com. }
  intros _. apply emits_only_bind.
  { apply emits_only_com. cbn. apply PathFacts.pdf_path_lies_in. }
  intros _. apply emits_only_bind; [now apply emits_only_com|].
  intros _. apply emits_only_ret.
Qed.

Lemma quit_aims (d : string) (app : nat) :
  emits_only (aims_at E d)
    (try_except (com_invoke (FS := FS) E app Quit)
                (fun _ => true) (fun _ => ret tt)).
Proof.
  apply emits_only_try; [now apply emits_only_com|].
  intros _. apply emits_only_ret.
Qed.

Lemma convert_pptx_to_pdf_aims (d : string) (pptx : string) :
  emits_only (aims_at E d)
             (Ppt2pdf.convert_pptx_to_pdf (FS := FS) E pptx d).
Proof.
  intros w. unfold Ppt2pdf.convert_pptx_to_pdf.
  destruct (emits_only_create (aims_at E d) (fun _ => I) w)
    as (evs0 & Ht0 & HP0 & Hf0).
  destruct (create_object E w) as [[app|e0] w0]; cbn [snd] in *.
  - destruct (export_aims d app pptx w0) as (evs1 & Ht1 & HP1 & Hf1).
    destruct (Ppt2pdf.export E app _ _ w0) as [r w1]; cbn [snd] in *.
    pose proof (quit_aims d app) as Hq.
    destruct r as [p|e]; [|destruct (is_Exception e)].
    + destruct (Hq w1) as (evs3 & Ht3 & HP3 & Hf3).
      destruct (try_except _ _ _ w1) as [r3 w3]; cbn [snd] in *.
      exists (evs0 ++ evs1 ++ evs3).
      rewrite Ht3, Ht1, Ht0, Hf3, Hf1, Hf0, <- !app_assoc.
      repeat split; auto. split_forall.
    + match goal with
      | |- context [try_except _ _ _ ?w2] =>
          destruct (Hq w2) as (evs3 & Ht3 & HP3 & Hf3);
          destruct (try_except _ _ _ w2) as [r3 w3]
      end.
      cbn [snd print emit emits w_trace w_fs] in *.
      eexists (evs0 ++ evs1 ++ [_] ++ evs3).
      rewrite Ht3, Ht1, Ht0, Hf3, Hf1, Hf0, <- !app_assoc.
      repeat split; auto. split_forall. exact I.
    + destruct (Hq w1) as (evs3 & Ht3 & HP3 & Hf3).
      destruct (try_except _ _ _ w1) as [r3 w3]; cbn [snd] in *.
      exists (evs0 ++ evs1 ++ evs3).
      rewrite Ht3, Ht1, Ht0, Hf3, Hf1, Hf0, <- !app_assoc.
      repeat split; auto. split_forall.
  - destruct (is_Exception e0); cbn [snd print emit emits w_trace w_fs].
    + eexists (evs0 ++ [_]). rewrite Ht0, Hf0, <- app_assoc.
      repeat split; auto. split_forall. exact I.
    + exists evs0. auto.
Qed.

Lemma convert_each_aims (d : string) (n : nat)
      (numbered : list (nat * string)) :
  emits_only (aims_at E d) (Ppt2pdf.convert_each (FS := FS) E d n numbered).
Proof.
  induction numbered as [|[i file] rest IH]; cbn.
  - apply emits_only_ret.
  - apply emits_only_bind; [now apply emits_only_print|]. intros _.
    apply emits_only_bind; [apply convert_pptx_to_pdf_aims|]. intros _.
    apply emits_only_bind; [now apply emits_only_print|]. intros _.
    exact IH.
Qed.

Lemma get_ppt_files_console (directory : string) :
  emits_only printed (Ppt2pdf.get_ppt_files (FS := FS) directory).
Proof.
  intros w. exists []. cbn. now rewrite app_nil_r.
Qed.

Lemma table_rows_console (numbered : list (nat * string)) :
  emits_only printed (Ppt2pdf.table_rows (FS := FS) numbered).
Proof.
  induction numbered as [|[i file] rest IH]; cbn.
  - apply emits_only_ret.
  - apply emits_only_bind; [apply emits_only_stat|]. intros size.
    apply emits_only_bind; [exact IH|]. intros rows.
    apply emits_only_ret.
Qed.

Lemma select_ppt_files_console (files : list string) :
  emits_only printed (Ppt2pdf.select_ppt_files (FS := FS) files).
Proof.
  destruct files as [|file files]; cbn.
  - apply emits_only_bind; [now apply emits_only_print|]. intros _.
    apply emits_only_ret.
  - apply emits_only_bind.
    { apply (table_rows_console ((1, file) :: Ppt2pdf.enumerate files 2)). }
    intros rows.
    apply emits_only_bind; [now apply emits_only_print|]. intros _.
    now apply emits_only_ask.
Qed.

Lemma ppt2pdf_main_orderly {HL : FileSystemLaws FS} :
  orderly E (Ppt2pdf.main (FS := FS) E).
Proof.
  unfold Ppt2pdf.main.
  apply orderly_bind; [now apply emits_only_print|]. intros _.
  apply orderly_bind; [now apply emits_only_ask|]. intros current_dir.
  apply orderly_bind; [apply get_ppt_files_console|].
  intros [|f fs]; [apply orderly_of_console; now apply emits_only_print|].
  apply orderly_bind; [apply select_ppt_files_console|].
  intros [|s ss]; [apply orderly_of_console; apply emits_only_ret|].
  apply orderly_bind; [now apply emits_only_print|]. intros _.
  apply orderly_bind; [now apply emits_only_ask|].
  intros [|]; cbn [negb];
    [|apply orderly_of_console; now apply emits_only_print].
  apply orderly_bind; [now apply emits_only_ask|]. intros output_dir.
  apply orderly_makedirs.
  apply emits_only_bind; [apply convert_each_aims|]. intros _.
  now apply emits_only_print.
Qed.

End Runs.
End RunFacts.

(* ================================================================== *)
(** ** The batch loops *)

Module BatchFacts.
Import Py PosixPath Rt Spec StepFacts RunFacts.

Section Batch.
Context {FS : Type} {HFS : FileSystem FS} {U : Unicode}.
Variable E : env.

(** Between acquisition and release nothing quits the application. *)
Lemma export_keeps_application (app : nat) (pptx_path pdf_path : string) :
  emits_only (fun ev => ev <> Com app Quit)
             (Ppt2pdf.export (FS := FS) E app pptx_path pdf_path).
Proof.
  unfold Ppt2pdf.export.
  apply emits_only_bind.
  { apply emits_only_try; [apply emits_only_com; discriminate|].
    intros _. apply emits_only_print. discriminate. }
  intros _. apply emits_only_bind.
  { apply emits_only_try; apply emits_only_com || intros _;
      try apply emits_only_com; discriminate. }
  intros _. apply emits_only_bind; [apply emits_only_com; discriminate|].
  intros _. apply emits_only_bind; [apply emits_only_com; discriminate|].
  intros _. apply emits_only_ret.
Qed.

Lemma quit_trace (app : nat) (w : world FS) :
  w_trace (snd (try_except (com_invoke E app Quit) (fun _ => true)
                           (fun _ => ret tt) w))
  = w_trace w ++ [Com app Quit].
Proof.
  unfold try_except, com_invoke, ret.
  destruct (e_com E app Quit); reflexivity.
Qed.

(** One file of the mkpdf batch, when the converter is not
    interrupted. *)
Lemma convert_file_to_md_caught (file_path output_dir : string)
      (w : world FS) :
  let argv := Mkpdf.markitdown_argv
                file_path
                (Mkpdf.output_path_of file_path (Some output_dir)) in
  e_proc E (w_nproc w) argv <> Interrupted ->
  exists m1 m2 w',
    Mkpdf.convert_file_to_md E file_path (Some output_dir) w
    = (Ret (succeeded (e_proc E (w_nproc w) argv)), w') /\
    w_trace w' = w_trace w ++ [Print m1; Run argv; Print m2] /\
    w_nproc w' = S (w_nproc w).
Proof.
  intros argv Hni. unfold Mkpdf.convert_file_to_md.
  unfold bind, try_except, print, emit, emits, subprocess_run, ret.
  cbn [w_nproc w_trace w_stdin w_fs w_napp]. fold argv.
  destruct (e_proc E (w_nproc w) argv) as [code| |]; [| |congruence].
  - cbn [succeeded]. destruct (Z.eqb code 0); cbn;
      do 3 eexists; rewrite <- !app_assoc; cbn; repeat split.
  - cbn. do 3 eexists. rewrite <- !app_assoc; cbn; repeat split.
Qed.

Lemma convert_all_never_aborts (input_dir output_dir : string)
      (files : list string) :
  (forall n argv, e_proc E n argv <> Interrupted) ->
  forall (c : nat) (w : world FS),
  exists evs w',
    Mkpdf.convert_all E input_dir output_dir files c w
    = (Ret (c + successes E input_dir output_dir (w_nproc w) files), w') /\
    w_trace w' = w_trace w ++ evs /\
    w_nproc w' = w_nproc w + List.length files /\
    runs_of evs = map (argv_for input_dir output_dir) files.
Proof.
  intros Hni. induction files as [|file files IH]; intros c w.
  - exists [], w. cbn. rewrite app_nil_r, !Nat.add_0_r. auto.
  - cbn [Mkpdf.convert_all successes List.length map].
    destruct (convert_file_to_md_caught (join input_dir file) output_dir w
                (Hni _ _)) as (m1 & m2 & w1 & Hrun & Ht1 & Hn1).
    unfold bind. rewrite Hrun.
    destruct (IH (if succeeded
                       (e_proc E (w_nproc w)
                          (argv_for input_dir output_dir file))
                  then S c else c) w1) as (evs & w' & Hall & Ht & Hn & Hruns).
    exists ([Print m1; Run (argv_for input_dir output_dir file); Print m2]
              ++ evs), w'.
    unfold argv_for in *. rewrite Hall, Ht, Ht1, Hn, Hn1, <- app_assoc.
    repeat split.
    + f_equal. f_equal.
      destruct (succeeded _); lia.
    + cbn. lia.
    + cbn [runs_of flat_map app]. fold (runs_of evs). now rewrite Hruns.
Qed.

(** What [convert_pptx_to_pdf] returns or raises is what its [try] body
    returned or raised: the handler raises again, and the [finally] block
    lets nothing out. *)
Lemma convert_pptx_to_pdf_outcome (pptx_path output_folder : string)
      (w : world FS) :
  e_com E (w_napp w) CreateObject = None ->
  fst (Ppt2pdf.convert_pptx_to_pdf E pptx_path output_folder w)
  = fst (Ppt2pdf.export
           E (w_napp w) (e_resolve E pptx_path)
           (Ppt2pdf.truediv (e_resolve E output_folder)
                            (Ppt2pdf.stem (e_resolve E pptx_path) ++ ".pdf"))
           (snd (create_object E w))).
Proof.
  intros Hcreate. unfold Ppt2pdf.convert_pptx_to_pdf, create_object.
  rewrite Hcreate. cbn [snd].
  destruct (Ppt2pdf.export E (w_napp w) _ _ _) as [[p|e] w1].
  - destruct (try_except _ _ _ w1). reflexivity.
  - destruct (is_Exception e);
      match goal with
      | |- context [try_except _ _ _ ?w2] => destruct (try_except _ _ _ w2)
      end; reflexivity.
Qed.

Lemma convert_pptx_to_pdf_not_started (pptx_path output_folder : string)
      (w : world FS) (e : exn) :
  e_com E (w_napp w) CreateObject = Some e ->
  fst (Ppt2pdf.convert_pptx_to_pdf E pptx_path output_folder w) = Raise e.
Proof.
  intros Hcreate. unfold Ppt2pdf.convert_pptx_to_pdf, create_object.
  rewrite Hcreate. now destruct (is_Exception e).
Qed.

Lemma export_fails_to_open (app : nat) (pptx_path pdf_path : string)
      (w : world FS) (e : exn) :
  e_com E app (OpenNoWindow pptx_path) <> None ->
  e_com E app (Open pptx_path) = Some e ->
  fst (Ppt2pdf.export E app pptx_path pdf_path w) = Raise e.
Proof.
  intros Hfirst Hsecond.
  unfold Ppt2pdf.export, bind, try_except, com_invoke, print, emit, emits.
  destruct (e_com E app (SetVisible 0)); cbn;
    destruct (e_com E app (OpenNoWindow pptx_path)); cbn;
    try congruence; now rewrite Hsecond.
Qed.

Lemma export_fails_to_save (app : nat) (pptx_path pdf_path : string)
      (w : world FS) (e : exn) :
  e_com E app (OpenNoWindow pptx_path) = None
  \/ e_com E app (Open pptx_path) = None ->
  e_com E app (SaveAs pdf_path 32) = Some e ->
  fst (Ppt2pdf.export E app pptx_path pdf_path w) = Raise e.
Proof.
  intros Hopen Hsave.
  unfold Ppt2pdf.export, bind, try_except, com_invoke, print, emit, emits.
  destruct (e_com E app (SetVisible 0)); cbn;
    destruct (e_com E app (OpenNoWindow pptx_path)) eqn:H1; cbn;
    try (destruct (e_com E app (Open pptx_path)) eqn:H2; cbn);
    try rewrite Hsave; try reflexivity;
    destruct Hopen; congruence.
Qed.

(** A failed conversion is raised again by [convert_pptx_to_pdf]. *)
Lemma convert_pptx_to_pdf_raises (pptx_path output_folder : string)
      (w : world FS) (e : exn) :
  conversion_fails
    E (w_napp w) (e_resolve E pptx_path)
    (Ppt2pdf.truediv (e_resolve E output_folder)
                     (Ppt2pdf.stem (e_resolve E pptx_path) ++ ".pdf")) e ->
  fst (Ppt2pdf.convert_pptx_to_pdf E pptx_path output_folder w) = Raise e.
Proof.
  intros [Hstart | [(Hstart & H1 & H2) | (Hstart & Hopen & Hsave)]].
  - now apply convert_pptx_to_pdf_not_started.
  - rewrite (convert_pptx_to_pdf_outcome _ _ _ Hstart).
    now apply export_fails_to_open.
  - rewrite (convert_pptx_to_pdf_outcome _ _ _ Hstart).
    now apply export_fails_to_save.
Qed.

End Batch.
End BatchFacts.

(* ================================================================== *)
(** ** The selection loop *)

Module SelectFacts.
Import Py PosixPath Rt Spec.

Lemma parse_tokens_reads {U : Unicode} (fields : list string)
      (typed : list Z) :
  Forall2 (fun field n => int (strip field) = Some n) fields typed ->
  Ppt2pdf.parse_tokens fields = Some (map (fun n => (n - 1)%Z) typed).
Proof.
  induction 1 as [|field n fields typed Hn _ IH]; cbn; [reflexivity|].
  now rewrite Hn, IH.
Qed.

(** [files[idx]] is only evaluated for indices that exist: the
    comprehension never raises, and it computes the selection. *)
Lemma pick_selection (files : list Ppt2pdf.Path) (typed : list Z) :
  Ppt2pdf.pick files (map (fun n => (n - 1)%Z) typed)
  = Some (selection_of files typed).
Proof.
  unfold selection_of.
  induction typed as [|n typed IH]; [reflexivity|].
  cbn [map Ppt2pdf.pick filter].
  replace ((0 <=? n - 1)%Z && (n - 1 <? Z.of_nat (List.length files))%Z)
    with (in_range (List.length files) n).
  2:{ unfold in_range.
      destruct (Z.leb_spec 1 n), (Z.leb_spec 0 (n - 1));
        destruct (Z.leb_spec n (Z.of_nat (List.length files))),
                 (Z.ltb_spec (n - 1) (Z.of_nat (List.length files)));
        cbn; try reflexivity; lia. }
  destruct (in_range (List.length files) n) eqn:Hr; [|exact IH].
  unfold in_range in Hr. apply andb_true_iff in Hr.
  destruct Hr as [H1 H2]. apply Z.leb_le in H1, H2.
  rewrite (nth_error_nth' files (""%string : Ppt2pdf.Path)) by lia.
  rewrite IH. reflexivity.
Qed.

Section Select.
Context {FS : Type} {HFS : FileSystem FS} {U : Unicode}.

Lemma ask_line {A} (q : msg) (body : string -> A + msg)
      (w : world FS) (l : string) (rest : list key) :
  w_stdin w = Line l :: rest ->
  ask q body w
  = match body l with
    | inl a => (Ret a, typed_away w rest [Print q])
    | inr complaint =>
        ask q body (typed_away w rest [Print q; Print complaint])
    end.
Proof.
  intros Hin. unfold ask at 1. rewrite Hin. cbn [ask_loop].
  destruct (body l) as [a|complaint]; [reflexivity|].
  unfold ask, typed_away. cbn [w_stdin w_fs w_nproc w_napp w_trace].
  destruct (ask_loop q body rest) as [[r rest'] evs].
  now rewrite <- app_assoc.
Qed.

Lemma table_rows_total (numbered : list (nat * Ppt2pdf.Path)) (w : world FS) :
  all_stat (w_fs w) (map snd numbered) ->
  exists rows, Ppt2pdf.table_rows numbered w = (Ret rows, w).
Proof.
  induction numbered as [|[i file] rest IH]; intros Hstat.
  - now exists [].
  - cbn [map snd] in Hstat. inversion Hstat as [|? ? Hfile Hrest]; subst.
    destruct (IH Hrest) as [rows Hrows].
    cbn [Ppt2pdf.table_rows]. unfold bind, stat_size.
    destruct (getsize (w_fs w) file) as [size|]; [|congruence].
    rewrite Hrows. now eexists.
Qed.

Lemma enumerate_snd {A} (xs : list A) (start : nat) :
  map snd (Ppt2pdf.enumerate xs start) = xs.
Proof.
  revert start. induction xs as [|x xs IH]; intros start; cbn;
    [reflexivity | now rewrite IH].
Qed.

(** With candidates that exist, [select_ppt_files] shows the table and
    enters its loop. *)
Lemma select_ppt_files_asks (files : list Ppt2pdf.Path) (w : world FS) :
  files <> [] -> all_stat (w_fs w) files ->
  exists rows,
    Ppt2pdf.select_ppt_files files w
    = ask PptAskSelection
          (fun l => Ppt2pdf.select_round files (strip l))
          (typed_away w (w_stdin w) [Print (PptTable rows)]).
Proof.
  intros Hne Hstat. destruct files as [|file files]; [congruence|].
  destruct (table_rows_total (Ppt2pdf.enumerate (file :: files) 1) w)
    as [rows Hrows].
  { now rewrite enumerate_snd. }
  exists rows. unfold Ppt2pdf.select_ppt_files, bind.
  rewrite Hrows. reflexivity.
Qed.

End Select.
End SelectFacts.

(* ================================================================== *)
(** ** Sorting by a string key *)

Module OrderFacts.
Import Py Spec.






Section Sorting.
Context {A : Type}.
Variable key : A -> string.

Lemma insert_perm (x : A) (l : list A) :
  Permutation (insert key x l) (x :: l).
Proof.
  induction l as [|y l IH]; cbn; [reflexivity|].
  destruct (lt key y x); [|reflexivity].
  rewrite IH. apply perm_swap.
Qed.

Lemma sorted_perm (l : list A) : Permutation (sorted key l) l.
Proof.
  induction l as [|x l IH]; cbn; [reflexivity|].
  fold (sorted key l). rewrite insert_perm. now constructor.
Qed.



End Sorting.

End OrderFacts.

(* ================================================================== *)
(** ** The listers *)

Module ListerFacts.
Import Py PosixPath Rt Spec.



End ListerFacts.

(* ================================================================== *)
(** ** Traces, results and exceptions of composed steps *)

Module TraceFacts.
Import Py PosixPath Rt Spec Props StepFacts.

Section Traces.
Context {FS : Type} {HFS : FileSystem FS} {U : Unicode}.

Lemma trace_sat_of_emits {A} (P : event -> Prop) (m : M FS A) :
  emits_only P m -> trace_sat (Forall P) m.
Proof.
  intros Hm w. destruct (Hm w) as (evs & Ht & HP & _). now exists evs.
Qed.

Lemma trace_sat_weaken {A} (R R' : list event -> Prop) (m : M FS A) :
  (forall evs, R evs -> R' evs) -> trace_sat R m -> trace_sat R' m.
Proof.
  intros HR Hm w. destruct (Hm w) as (evs & Ht & Hevs).
  exists evs. auto.
Qed.

(** A step that only emits events of [S], followed by steps whose events
    satisfy [R], when [R] does not look at a prefix made of [S]. *)
Lemma trace_sat_after {A B} (S : event -> Prop) (R : list event -> Prop)
      (m : M FS A) (k : A -> M FS B) :
  (forall pre, Forall S pre -> R pre) ->
  (forall pre evs, Forall S pre -> R evs -> R (pre ++ evs)) ->
  trace_sat (Forall S) m ->
  (forall a, trace_sat R (k a)) ->
  trace_sat R (bind m k).
Proof.
  intros Hpre Hcat Hm Hk w. unfold bind.
  destruct (Hm w) as (evs1 & Ht1 & HS).
  destruct (m w) as [[a|e] w1]; cbn [snd] in *.
  - destruct (Hk a w1) as (evs2 & Ht2 & HR).
    exists (evs1 ++ evs2). rewrite Ht2, Ht1, app_assoc. auto.
  - exists evs1. auto.
Qed.

(** Steps whose events satisfy [R], one after the other, when [R] is
    kept by concatenation. *)
Lemma trace_sat_seq {A B} (R : list event -> Prop)
      (m : M FS A) (k : A -> M FS B) :
  (forall evs1 evs2, R evs1 -> R evs2 -> R (evs1 ++ evs2)) ->
  trace_sat R m ->
  (forall a, trace_sat R (k a)) ->
  trace_sat R (bind m k).
Proof.
  intros Hcat Hm Hk w. unfold bind.
  destruct (Hm w) as (evs1 & Ht1 & HR1).
  destruct (m w) as [[a|e] w1]; cbn [snd] in *.
  - destruct (Hk a w1) as (evs2 & Ht2 & HR2).
    exists (evs1 ++ evs2). rewrite Ht2, Ht1, app_assoc. auto.
  - exists evs1. auto.
Qed.

Lemma trace_sat_makedirs (P : event -> Prop) (d : string) :
  P (Makedirs d) -> trace_sat (Forall P) (os_makedirs (FS := FS) d).
Proof.
  intros HP w. unfold os_makedirs.
  destruct (makedirs (w_fs w) d).
  - exists [Makedirs d]. cbn. auto.
  - exists []. cbn. now rewrite app_nil_r.
Qed.

(** The complaints of a prompt are those its body can give. *)
Lemma ask_loop_complains {A} (P : event -> Prop) (q : msg)
      (body : string -> A + msg) (script : list key) :
  P (Print q) ->
  (forall l complaint, body l = inr complaint -> P (Print complaint)) ->
  Forall P (snd (ask_loop q body script)).
Proof.
  intros Hq Hc.
  induction script as [|[l|] script IH]; cbn [ask_loop].
  - repeat constructor; assumption.
  - destruct (body l) as [a|complaint] eqn:Hb.
    + repeat constructor; assumption.
    + destruct (ask_loop q body script) as [[r rest] evs].
      cbn [snd] in *. repeat constructor; eauto.
  - repeat constructor; assumption.
Qed.

Lemma emits_only_ask_body {A} (P : event -> Prop) (q : msg)
      (body : string -> A + msg) :
  P (Print q) ->
  (forall l complaint, body l = inr complaint -> P (Print complaint)) ->
  emits_only P (ask (FS := FS) q body).
Proof.
  intros Hq Hc w. unfold ask.
  pose proof (ask_loop_complains P q body (w_stdin w) Hq Hc) as Hpr.
  destruct (ask_loop q body (w_stdin w)) as [[r rest] evs].
  exists evs. cbn in *. auto.
Qed.

Lemma emits_only_Prompt_ask (P : event -> Prop) (q : msg)
      (default : option string) :
  P (Print q) -> emits_only P (Prompt_ask (FS := FS) q default).
Proof.
  intros Hq. apply emits_only_ask_body; [assumption|]. discriminate.
Qed.

Lemma emits_only_Prompt_ask_choices (P : event -> Prop) (q : msg)
      (choices : list string) (default : string) :
  P (Print q) -> P (Print IllegalChoice) ->
  emits_only P (Prompt_ask_choices (FS := FS) q choices default).
Proof.
  intros Hq Hc. apply emits_only_ask_body; [assumption|].
  intros l complaint. cbn beta.
  destruct (String.eqb l ""); [discriminate|].
  destruct (existsb _ choices); [discriminate|].
  intros Heq. inversion Heq. subst. exact Hc.
Qed.

Lemma emits_only_Confirm_ask (P : event -> Prop) (q : msg)
      (default : option bool) :
  P (Print q) -> P (Print InvalidYesNo) ->
  emits_only P (Confirm_ask (FS := FS) q default).
Proof.
  intros Hq Hc. apply emits_only_ask_body; [assumption|].
  intros l complaint. cbn beta zeta.
  destruct default as [b|], (String.eqb l ""); try discriminate;
    destruct (String.eqb (lower (strip l)) "y"); try discriminate;
    destruct (String.eqb (lower (strip l)) "n"); try discriminate;
    intros Heq; inversion Heq; subst; exact Hc.
Qed.

(** What [ask] returns was accepted by its body. *)
Lemma ask_returns {A} (q : msg) (body : string -> A + msg) :
  returns (fun a => exists l, body l = inl a) (ask (FS := FS) q body).
Proof.
  intros w a w'. unfold ask.
  generalize (w_stdin w) as script.
  intros script. revert w'.
  induction script as [|[l|] script IH]; intros w'; cbn [ask_loop].
  - discriminate.
  - destruct (body l) as [a'|complaint] eqn:Hb.
    + intros [= <- _]. now exists l.
    + destruct (ask_loop q body script) as [[r rest] evs] eqn:Hloop.
      intros [= -> _]. eapply (IH (typed_away w rest evs)). reflexivity.
  - discriminate.
Qed.

Lemma ask_raises {A} (q : msg) (body : string -> A + msg) :
  raises_only (fun e => e = KeyboardInterrupt \/ e = EOFError)
              (ask (FS := FS) q body).
Proof.
  intros w e w'. unfold ask.
  generalize (w_stdin w) as script.
  intros script. revert w'.
  induction script as [|[l|] script IH]; intros w'; cbn [ask_loop].
  - intros [= <- _]. now right.
  - destruct (body l) as [a'|complaint] eqn:Hb; [discriminate|].
    destruct (ask_loop q body script) as [[r rest] evs] eqn:Hloop.
    intros [= -> _]. eapply (IH (typed_away w rest evs)). reflexivity.
  - intros [= <- _]. now left.
Qed.

Lemma raises_only_bind {A B} (P : exn -> Prop) (Q : A -> Prop)
      (m : M FS A) (k : A -> M FS B) :
  raises_only P m -> returns Q m ->
  (forall a, Q a -> raises_only P (k a)) ->
  raises_only P (bind m k).
Proof.
  intros Hm HQ Hk w e w'. unfold bind.
  destruct (m w) as [[a|e1] w1] eqn:Hmw.
  - apply (Hk a (HQ _ _ _ Hmw)).
  - intros [= <- _]. eapply Hm; eauto.
Qed.

Lemma returns_any {A} (m : M FS A) : returns (fun _ => True) m.
Proof. intros w a w' _. exact I. Qed.

Lemma raises_only_weaken {A} (P P' : exn -> Prop) (m : M FS A) :
  (forall e, P e -> P' e) -> raises_only P m -> raises_only P' m.
Proof. intros HP Hm w e w' Hr. eauto. Qed.

Lemma ret_never_raises {A} (P : exn -> Prop) (a : A) :
  raises_only P (ret (FS := FS) a).
Proof. intros w e w'. discriminate. Qed.

End Traces.
End TraceFacts.

(* ================================================================== *)
(** ** The events of one conversion of [ppt2pdf] *)

Module ConvertFacts.
Import Py PosixPath Rt Spec Props StepFacts RunFacts TraceFacts.

Section Convert.
Context {FS : Type} {HFS : FileSystem FS} {U : Unicode}.
Variable E : env.

(** The events of the body of a conversion, whatever they must
    satisfy. *)
Lemma export_emits (P : event -> Prop) (app : nat)
      (pptx_path pdf_path : string) :
  P (Com app (SetVisible 0)) ->
  P (Com app (OpenNoWindow pptx_path)) ->
  P (Com app (Open pptx_path)) ->
  P (Com app (SaveAs pdf_path 32)) ->
  P (Com app Close) ->
  P (Print PptVisibleWarning) ->
  emits_only P (Ppt2pdf.export (FS := FS) E app pptx_path pdf_path).
Proof.
  intros Hv Ho Ho' Hs Hc Hwarn. unfold Ppt2pdf.export.
  apply emits_only_bind.
  { apply emits_only_try; [now apply emits_only_com|].
    intros _. now apply emits_only_print. }
  intros _. apply emits_only_bind.
  { apply emits_only_try; [|intros _]; now apply emits_only_com. }
  intros _. apply emits_only_bind; [now apply emits_only_com|].
  intros _. apply emits_only_bind; [now apply emits_only_com|].
  intros _. apply emits_only_ret.
Qed.

Lemma quit_emits (P : event -> Prop) (app : nat) :
  P (Com app Quit) ->
  emits_only P (try_except (com_invoke (FS := FS) E app Quit)
                           (fun _ => true) (fun _ => ret tt)).
Proof.
  intros HP. apply emits_only_try; [now apply emits_only_com|].
  intros _. apply emits_only_ret.
Qed.

(** The trace of one conversion: the start of the application; when it
    started, calls on it and console output, then its end; when it did not
    start, at most the error message. *)
Lemma convert_pptx_to_pdf_trace (pptx_path output_folder : string)
      (w : world FS) :
  let app := w_napp w in
  exists mid,
    w_trace (snd (Ppt2pdf.convert_pptx_to_pdf E pptx_path output_folder w))
    = w_trace w ++ Com app CreateObject :: mid /\
    match e_com E app CreateObject with
    | None =>
        exists calls,
          mid = calls ++ [Com app Quit] /\ Forall (inner_call app) calls
    | Some _ => Forall printed mid
    end /\
    (forall p w',
        Ppt2pdf.convert_pptx_to_pdf E pptx_path output_folder w
        = (Ret p, w') ->
        forall name e, ~ In (Print (PptConvertError name e)) mid).
Proof.
  intros app. unfold Ppt2pdf.convert_pptx_to_pdf, create_object.
  fold app. destruct (e_com E app CreateObject) as [e0|] eqn:Hcreate.
  - destruct (is_Exception e0); cbn [snd print emit emits w_trace].
    + eexists [_]. rewrite <- app_assoc. repeat split.
      * repeat constructor.
      * discriminate.
    + exists []. repeat split; [constructor | discriminate].
  - match goal with
    | |- context [Ppt2pdf.export E app ?a ?b ?w0] =>
        destruct (export_emits
                    (fun ev => inner_call app ev /\
                               forall name e,
                                 ev <> Print (PptConvertError name e))
                    app a b) with (w := w0)
          as (evs & Ht & Hin & _);
        try (split; [cbn; repeat split; discriminate | discriminate]);
        destruct (Ppt2pdf.export E app a b w0) as [r w1]
    end.
    cbn [snd w_trace] in Ht.
    assert (Hcalls : Forall (inner_call app) evs).
    { eapply Forall_impl; [|exact Hin]. now intros ev [H1 _]. }
    assert (Hnone : forall name e,
               ~ In (Print (PptConvertError name e)) (evs ++ [Com app Quit])).
    { intros name e Hi. apply in_app_or in Hi. destruct Hi as [Hi|[Hi|[]]].
      - rewrite Forall_forall in Hin. now apply (proj2 (Hin _ Hi) name e).
      - discriminate. }
    destruct r as [p|e]; [|destruct (is_Exception e)].
    + pose proof (BatchFacts.quit_trace E app w1) as Hq.
      destruct (try_except _ _ _ w1) as [r3 w3]. cbn [snd] in *.
      exists (evs ++ [Com app Quit]).
      split; [rewrite Hq, Ht, <- !app_assoc; reflexivity|].
      split; [now exists evs | intros; apply Hnone].
    + match goal with
      | |- context [try_except _ _ _ ?w2] =>
          pose proof (BatchFacts.quit_trace E app w2) as Hq;
          destruct (try_except _ _ _ w2) as [r3 w3]
      end.
      cbn [print emit emits snd w_trace] in *.
      exists ((evs ++ [Print (PptConvertError
                                (Ppt2pdf.path_name (e_resolve E pptx_path))
                                e)])
                ++ [Com app Quit]).
      split; [rewrite Hq, Ht, <- !app_assoc; reflexivity|].
      split; [|discriminate].
      eexists. split; [reflexivity|].
      apply Forall_app. split; [exact Hcalls|]. repeat constructor.
    + pose proof (BatchFacts.quit_trace E app w1) as Hq.
      destruct (try_except _ _ _ w1) as [r3 w3]. cbn [snd] in *.
      exists (evs ++ [Com app Quit]).
      split; [rewrite Hq, Ht, <- !app_assoc; reflexivity|].
      split; [now exists evs | discriminate].
Qed.

(** The events of one conversion satisfy [P] when its calls, the warning
    and the error message do. *)
Lemma convert_pptx_to_pdf_emits (P : event -> Prop)
      (pptx_path output_folder : string) :
  (forall app c, call_of E pptx_path output_folder c -> P (Com app c)) ->
  P (Print PptVisibleWarning) ->
  (forall name e, P (Print (PptConvertError name e))) ->
  emits_only P
             (Ppt2pdf.convert_pptx_to_pdf (FS := FS) E pptx_path output_folder).
Proof.
  intros Hcom Hwarn Herr w. unfold Ppt2pdf.convert_pptx_to_pdf.
  assert (Hcall : forall app c,
             call_of E pptx_path output_folder c -> P (Com app c))
    by exact Hcom.
  unfold call_of, pdf_target in Hcall.
  assert (Hstart : emits_only P (create_object (FS := FS) E)).
  { apply emits_only_create. intros app. apply Hcall. tauto. }
  destruct (Hstart w) as (evs0 & Ht0 & HP0 & Hf0).
  destruct (create_object E w) as [[app|e0] w0]; cbn [snd] in *.
  - match goal with
    | |- context [Ppt2pdf.export E app ?a ?b w0] =>
        assert (Hbody : emits_only P (Ppt2pdf.export (FS := FS) E app a b))
          by (apply export_emits; try exact Hwarn; apply Hcall; tauto);
        destruct (Hbody w0) as (evs1 & Ht1 & HP1 & Hf1);
        destruct (Ppt2pdf.export E app a b w0) as [r w1]
    end.
    cbn [snd] in *.
    assert (Hq : emits_only P (try_except (com_invoke (FS := FS) E app Quit)
                                          (fun _ => true) (fun _ => ret tt))).
    { apply quit_emits. apply Hcall. tauto. }
    destruct r as [p|e]; [|destruct (is_Exception e)].
    + destruct (Hq w1) as (evs3 & Ht3 & HP3 & Hf3).
      destruct (try_except _ _ _ w1) as [r3 w3]; cbn [snd] in *.
      exists (evs0 ++ evs1 ++ evs3).
      rewrite Ht3, Ht1, Ht0, Hf3, Hf1, Hf0, <- !app_assoc.
      repeat split; auto. split_forall.
    + match goal with
      | |- context [try_except _ _ _ ?w2] =>
          destruct (Hq w2) as (evs3 & Ht3 & HP3 & Hf3);
          destruct (try_except _ _ _ w2) as [r3 w3]
      end.
      cbn [snd print emit emits w_trace w_fs] in *.
      eexists (evs0 ++ evs1 ++ [_] ++ evs3).
      rewrite Ht3, Ht1, Ht0, Hf3, Hf1, Hf0, <- !app_assoc.
      repeat split; auto. split_forall.
    + destruct (Hq w1) as (evs3 & Ht3 & HP3 & Hf3).
      destruct (try_except _ _ _ w1) as [r3 w3]; cbn [snd] in *.
      exists (evs0 ++ evs1 ++ evs3).
      rewrite Ht3, Ht1, Ht0, Hf3, Hf1, Hf0, <- !app_assoc.
      repeat split; auto. split_forall.
  - destruct (is_Exception e0); cbn [snd print emit emits w_trace w_fs].
    + eexists (evs0 ++ [_]). rewrite Ht0, Hf0, <- app_assoc.
      repeat split; auto. split_forall.
    + exists evs0. auto.
Qed.

(** The events of the loop satisfy [P] when the calls of the conversion
    of each file, the warning and the messages do. *)
Lemma convert_each_emits_for (P : event -> Prop) (d : string) (n : nat)
      (numbered : list (nat * string)) :
  (forall app c file,
      In file (map snd numbered) -> call_of E file d c -> P (Com app c)) ->
  P (Print PptVisibleWarning) ->
  (forall name e, P (Print (PptConvertError name e))) ->
  (forall i total name, P (Print (PptProgress i total name))) ->
  P (Print PptAdvance) ->
  emits_only P (Ppt2pdf.convert_each (FS := FS) E d n numbered).
Proof.
  intros Hcom Hwarn Herr Hprog Hadv.
  induction numbered as [|[i file] rest IH]; cbn [Ppt2pdf.convert_each].
  - apply emits_only_ret.
  - apply emits_only_bind; [now apply emits_only_print|]. intros _.
    apply emits_only_bind.
    { apply convert_pptx_to_pdf_emits; try assumption.
      intros app c. apply Hcom. now left. }
    intros _.
    apply emits_only_bind; [now apply emits_only_print|]. intros _.
    apply IH. intros app c file' Hin. apply Hcom. now right.
Qed.

Lemma convert_each_emits (P : event -> Prop) (d : string) (n : nat)
      (numbered : list (nat * string)) :
  (forall app c, P (Com app c)) ->
  P (Print PptVisibleWarning) ->
  (forall name e, P (Print (PptConvertError name e))) ->
  (forall i total name, P (Print (PptProgress i total name))) ->
  P (Print PptAdvance) ->
  emits_only P (Ppt2pdf.convert_each (FS := FS) E d n numbered).
Proof.
  intros Hcom. apply convert_each_emits_for. intros app c file _ _.
  apply Hcom.
Qed.

Lemma table_rows_emits (P : event -> Prop) (numbered : list (nat * string)) :
  emits_only P (Ppt2pdf.table_rows (FS := FS) numbered).
Proof.
  induction numbered as [|[i file] rest IH]; cbn.
  - apply emits_only_ret.
  - apply emits_only_bind; [apply emits_only_stat|]. intros size.
    apply emits_only_bind; [exact IH|]. intros rows.
    apply emits_only_ret.
Qed.

Lemma select_round_complaint (files : list Ppt2pdf.Path) (selection : string)
      (complaint : msg) :
  Ppt2pdf.select_round files selection = inr complaint ->
  complaint = PptFormatError \/ complaint = PptNoValidSelection.
Proof.
  unfold Ppt2pdf.select_round.
  destruct (String.eqb (lower selection) "0"); [discriminate|].
  destruct (Ppt2pdf.parse_indices selection) as [indices|].
  - destruct (Ppt2pdf.pick files indices) as [[|f sel]|];
      intros Heq; inversion Heq; auto.
  - intros Heq; inversion Heq; auto.
Qed.

Lemma select_ppt_files_emits (P : event -> Prop) (files : list string) :
  P (Print PptNoFiles) ->
  (forall rows, P (Print (PptTable rows))) ->
  P (Print PptAskSelection) ->
  P (Print PptFormatError) ->
  P (Print PptNoValidSelection) ->
  emits_only P (Ppt2pdf.select_ppt_files (FS := FS) files).
Proof.
  intros Hnone Htable Hask Hfmt Hvalid.
  destruct files as [|file files]; cbn.
  - apply emits_only_bind; [now apply emits_only_print|]. intros _.
    apply emits_only_ret.
  - apply emits_only_bind.
    { apply (table_rows_emits P ((1, file) :: Ppt2pdf.enumerate files 2)). }
    intros rows.
    apply emits_only_bind; [now apply emits_only_print|]. intros _.
    apply emits_only_ask_body; [assumption|].
    intros l complaint Hc. apply select_round_complaint in Hc.
    destruct Hc as [-> | ->]; assumption.
Qed.

End Convert.
End ConvertFacts.

(* ================================================================== *)
(** ** Whole runs of [ppt2pdf] *)

Module PptRunFacts.
Import Py PosixPath Rt Spec Props StepFacts RunFacts TraceFacts ConvertFacts.

Section PptRuns.
Context {FS : Type} {HFS : FileSystem FS} {U : Unicode}.
Variable E : env.

Lemma trace_sat_forall_bind {A B} (Q : event -> Prop)
      (m : M FS A) (k : A -> M FS B) :
  trace_sat (Forall Q) m ->
  (forall a, trace_sat (Forall Q) (k a)) ->
  trace_sat (Forall Q) (bind m k).
Proof.
  apply trace_sat_seq. intros evs1 evs2 H1 H2. now apply Forall_app.
Qed.

(** *** The life of the applications *)

(** An application that is asked to quit does so. *)
Hypothesis quit_works : forall app, e_com E app Quit = None.

Lemma run_apps_app (alive : option nat) (evs1 evs2 : list event) :
  run_apps E alive (evs1 ++ evs2)
  = match run_apps E alive evs1 with
    | Some alive' => run_apps E alive' evs2
    | None => None
    end.
Proof.
  revert alive. induction evs1 as [|ev evs1 IH]; intros alive; cbn;
    [reflexivity|].
  destruct (step_app E alive ev); [apply IH | reflexivity].
Qed.

Lemma run_apps_quiet (alive : option nat) (evs : list event) :
  Forall (fun ev => forall a c, ev <> Com a c) evs ->
  run_apps E alive evs = Some alive.
Proof.
  induction 1 as [|ev evs Hev _ IH]; cbn; [reflexivity|].
  destruct ev as [m|p|argv|a c]; cbn; try exact IH.
  now elim (Hev a c).
Qed.

Lemma run_apps_inner (app : nat) (evs : list event) :
  Forall (inner_call app) evs ->
  run_apps E (Some app) evs = Some (Some app).
Proof.
  induction 1 as [|ev evs Hev _ IH]; cbn; [reflexivity|].
  destruct ev as [m|p|argv|a c]; cbn in *; try exact IH; try contradiction.
  destruct Hev as (-> & Hc & Hq). rewrite Nat.eqb_refl.
  destruct c; try exact IH; congruence.
Qed.

Lemma settled_app (evs1 evs2 : list event) :
  (settled E) evs1 -> (settled E) evs2 -> (settled E) (evs1 ++ evs2).
Proof.
  unfold settled. intros H1 H2. now rewrite run_apps_app, H1.
Qed.

Lemma settled_quiet {A} (m : M FS A) :
  emits_only (fun ev => forall a c, ev <> Com a c) m ->
  trace_sat (settled E) m.
Proof.
  intros Hm. eapply trace_sat_weaken; [|apply trace_sat_of_emits, Hm].
  intros evs. apply run_apps_quiet.
Qed.

Lemma convert_pptx_to_pdf_settled (pptx_path output_folder : string) :
  trace_sat (settled E)
            (Ppt2pdf.convert_pptx_to_pdf (FS := FS) E pptx_path output_folder).
Proof.
  intros w.
  destruct (convert_pptx_to_pdf_trace E pptx_path output_folder w)
    as (mid & Ht & Hshape & _).
  eexists. split; [exact Ht|].
  unfold settled. cbn [run_apps step_app].
  destruct (e_com E (w_napp w) CreateObject).
  - apply run_apps_quiet. eapply Forall_impl; [|exact Hshape].
    intros [m|p|argv|a c]; cbn; try contradiction. discriminate.
  - destruct Hshape as (calls & -> & Hcalls).
    rewrite run_apps_app, (run_apps_inner _ _ Hcalls). cbn.
    now rewrite Nat.eqb_refl, quit_works.
Qed.

Lemma convert_each_settled (d : string) (n : nat)
      (numbered : list (nat * string)) :
  trace_sat (settled E) (Ppt2pdf.convert_each (FS := FS) E d n numbered).
Proof.
  induction numbered as [|[i file] rest IH]; cbn.
  - apply settled_quiet, emits_only_ret.
  - apply (trace_sat_seq (settled E)); [exact settled_app| |intros _].
    { apply settled_quiet, emits_only_print. discriminate. }
    apply (trace_sat_seq (settled E)); [exact settled_app| |intros _].
    { apply convert_pptx_to_pdf_settled. }
    apply (trace_sat_seq (settled E)); [exact settled_app| |intros _].
    { apply settled_quiet, emits_only_print. discriminate. }
    exact IH.
Qed.

Lemma main_settled : trace_sat (settled E) (Ppt2pdf.main (FS := FS) E).
Proof.
  assert (Hq : forall m, forall a c, Print m <> Com a c) by discriminate.
  unfold Ppt2pdf.main.
  apply (trace_sat_seq (settled E)); [exact settled_app| |intros _].
  { apply settled_quiet, emits_only_print, Hq. }
  apply (trace_sat_seq (settled E)); [exact settled_app| |intros current_dir].
  { apply settled_quiet, emits_only_ask, Hq. }
  apply (trace_sat_seq (settled E)); [exact settled_app| |intros [|f fs]].
  { apply settled_quiet. intros w. exists []. cbn.
    rewrite app_nil_r. auto. }
  { apply settled_quiet, emits_only_print, Hq. }
  apply (trace_sat_seq (settled E)); [exact settled_app| |intros [|s ss]].
  { apply settled_quiet, select_ppt_files_emits; auto. }
  { apply settled_quiet, emits_only_ret. }
  apply (trace_sat_seq (settled E)); [exact settled_app| |intros _].
  { apply settled_quiet, emits_only_print, Hq. }
  apply (trace_sat_seq (settled E)); [exact settled_app| |intros [|]].
  { apply settled_quiet, emits_only_ask, Hq. }
  2:{ apply settled_quiet, emits_only_print, Hq. }
  cbn [negb].
  apply (trace_sat_seq (settled E)); [exact settled_app| |intros output_dir].
  { apply settled_quiet, emits_only_ask, Hq. }
  apply (trace_sat_seq (settled E)); [exact settled_app| |intros _].
  { eapply trace_sat_weaken; [|apply trace_sat_makedirs].
    - intros evs. apply run_apps_quiet.
    - discriminate. }
  apply (trace_sat_seq (settled E)); [exact settled_app| |intros _].
  { apply convert_each_settled. }
  apply settled_quiet, emits_only_print, Hq.
Qed.

(** *** The completion message *)

Lemma convert_each_clean (d : string) (n : nat)
      (numbered : list (nat * string)) :
  on_return (Forall not_error)
            (Ppt2pdf.convert_each (FS := FS) E d n numbered).
Proof.
  induction numbered as [|[i file] rest IH]; intros w a w'.
  - intros [= _ <-]. exists []. now rewrite app_nil_r.
  - cbn [Ppt2pdf.convert_each]. unfold bind at 1.
    cbn [print emit emits].
    unfold bind at 1.
    match goal with
    | |- context [Ppt2pdf.convert_pptx_to_pdf E file d ?w0] =>
        destruct (convert_pptx_to_pdf_trace E file d w0)
          as (mid & Ht & _ & Hclean);
        destruct (Ppt2pdf.convert_pptx_to_pdf E file d w0)
          as [[p|e] w1] eqn:Hconv; [|discriminate]
    end.
    specialize (Hclean p w1 eq_refl).
    unfold bind at 1. cbn [print emit emits].
    intros Hrest. destruct (IH _ _ _ Hrest) as (evs & Hevs & Hok).
    cbn [snd w_trace] in *.
    exists (Print (PptProgress i n (Ppt2pdf.path_name file))
              :: Com (w_napp w) CreateObject :: mid
              ++ Print PptAdvance :: evs).
    split.
    + rewrite Hevs, Ht. cbn [w_napp]. rewrite <- !app_assoc. reflexivity.
    + constructor; [discriminate|]. constructor; [discriminate|].
      apply Forall_app. split.
      * apply Forall_forall. intros ev Hin name e ->.
        now apply (Hclean name e).
      * constructor; [discriminate | exact Hok].
Qed.

Lemma main_done_clean : trace_sat done_clean (Ppt2pdf.main (FS := FS) E).
Proof.
  set (S := fun ev => not_error ev /\ not_done ev).
  assert (Hpre : forall pre, Forall S pre -> done_clean pre).
  { intros pre Hall [d Hin]. rewrite Forall_forall in Hall.
    now elim (proj2 (Hall _ Hin) d). }
  assert (Hcat : forall pre evs,
             Forall S pre -> done_clean evs -> done_clean (pre ++ evs)).
  { intros pre evs Hall Hevs [d Hin]. apply Forall_app. split.
    - eapply Forall_impl; [|exact Hall]. now intros ev [H1 _].
    - apply Hevs. exists d. apply in_app_or in Hin.
      destruct Hin as [Hin|Hin]; [|exact Hin].
      rewrite Forall_forall in Hall. now elim (proj2 (Hall _ Hin) d). }
  assert (HS : forall m,
             (forall name e, m <> PptConvertError name e) ->
             (forall d, m <> PptDone d) -> S (Print m)).
  { intros m H1 H2. split; intros x; [intros e|]; congruence. }
  assert (Hstep : forall A (m : M FS A),
             emits_only S m -> trace_sat (Forall S) m)
    by (intros; now apply trace_sat_of_emits).
  unfold Ppt2pdf.main.
  apply (trace_sat_after S); [exact Hpre|exact Hcat| |intros _].
  { apply Hstep, emits_only_print, HS; discriminate. }
  apply (trace_sat_after S); [exact Hpre|exact Hcat| |intros current_dir].
  { apply Hstep, emits_only_Prompt_ask, HS; discriminate. }
  apply (trace_sat_after S); [exact Hpre|exact Hcat| |intros [|f fs]].
  { apply Hstep. intros w. exists []. cbn. rewrite app_nil_r. auto. }
  { eapply trace_sat_weaken; [exact Hpre|].
    apply Hstep, emits_only_print, HS; discriminate. }
  apply (trace_sat_after S); [exact Hpre|exact Hcat| |intros [|s ss]].
  { apply Hstep, select_ppt_files_emits; try intros rows;
      apply HS; discriminate. }
  { eapply trace_sat_weaken; [exact Hpre|]. apply Hstep, emits_only_ret. }
  apply (trace_sat_after S); [exact Hpre|exact Hcat| |intros _].
  { apply Hstep, emits_only_print, HS; discriminate. }
  apply (trace_sat_after S); [exact Hpre|exact Hcat| |intros [|]].
  { apply Hstep, emits_only_Confirm_ask; apply HS; discriminate. }
  2:{ eapply trace_sat_weaken; [exact Hpre|].
      apply Hstep, emits_only_print, HS; discriminate. }
  cbn [negb].
  apply (trace_sat_after S); [exact Hpre|exact Hcat| |intros output_dir].
  { apply Hstep, emits_only_Prompt_ask, HS; discriminate. }
  apply (trace_sat_after S); [exact Hpre|exact Hcat| |intros _].
  { apply trace_sat_makedirs. split; intros x; [intros e|]; discriminate. }
  intros w. unfold bind.
  destruct (Ppt2pdf.convert_each E output_dir _ _ w) as [[u|e] w1] eqn:Hrun.
  - destruct (convert_each_clean _ _ _ _ _ _ Hrun) as (evs & Ht & Hok).
    cbn [print emit emits snd w_trace].
    exists (evs ++ [Print (PptDone output_dir)]).
    rewrite Ht, <- app_assoc. split; [reflexivity|].
    intros _. apply Forall_app. split; [exact Hok|].
    constructor; [discriminate | constructor].
  - assert (Hem : emits_only not_done
                    (Ppt2pdf.convert_each (FS := FS) E output_dir
                       (List.length (s :: ss))
                       (Ppt2pdf.enumerate (s :: ss) 1)))
      by (apply convert_each_emits; try intros; discriminate).
    destruct (Hem w) as (evs & Ht & Hnd & _).
    rewrite Hrun in Ht. cbn [snd] in *. exists evs. split; [exact Ht|].
    intros [d Hin]. rewrite Forall_forall in Hnd. now elim (Hnd _ Hin d).
Qed.

(** *** Declining *)

Lemma main_declined_idle :
  trace_sat declined_idle (Ppt2pdf.main (FS := FS) E).
Proof.
  set (S := fun ev => printed ev /\ ev <> Print PptCancelled).
  set (Q := fun ev => ev <> Print PptCancelled).
  assert (Hpre : forall pre, Forall S pre -> declined_idle pre).
  { intros pre Hall _. eapply Forall_impl; [|exact Hall].
    now intros ev [H1 _]. }
  assert (Hcat : forall pre evs,
             Forall S pre -> declined_idle evs -> declined_idle (pre ++ evs)).
  { intros pre evs Hall Hevs Hin. apply Forall_app. split.
    - eapply Forall_impl; [|exact Hall]. now intros ev [H1 _].
    - apply Hevs. apply in_app_or in Hin.
      destruct Hin as [Hin|Hin]; [|exact Hin].
      rewrite Forall_forall in Hall. now elim (proj2 (Hall _ Hin)). }
  assert (HS : forall m, m <> PptCancelled -> S (Print m)).
  { intros m Hm. split; [exact I | congruence]. }
  assert (Hstep : forall A (m : M FS A),
             emits_only S m -> trace_sat (Forall S) m)
    by (intros; now apply trace_sat_of_emits).
  assert (HQ : forall A (m : M FS A),
             emits_only Q m -> trace_sat (Forall Q) m)
    by (intros; now apply trace_sat_of_emits).
  unfold Ppt2pdf.main.
  apply (trace_sat_after S); [exact Hpre|exact Hcat| |intros _].
  { apply Hstep, emits_only_print, HS; discriminate. }
  apply (trace_sat_after S); [exact Hpre|exact Hcat| |intros current_dir].
  { apply Hstep, emits_only_Prompt_ask, HS; discriminate. }
  apply (trace_sat_after S); [exact Hpre|exact Hcat| |intros [|f fs]].
  { apply Hstep. intros w. exists []. cbn. rewrite app_nil_r. auto. }
  { eapply trace_sat_weaken; [exact Hpre|].
    apply Hstep, emits_only_print, HS; discriminate. }
  apply (trace_sat_after S); [exact Hpre|exact Hcat| |intros [|s ss]].
  { apply Hstep, select_ppt_files_emits; try intros rows;
      apply HS; discriminate. }
  { eapply trace_sat_weaken; [exact Hpre|]. apply Hstep, emits_only_ret. }
  apply (trace_sat_after S); [exact Hpre|exact Hcat| |intros _].
  { apply Hstep, emits_only_print, HS; discriminate. }
  apply (trace_sat_after S); [exact Hpre|exact Hcat| |intros [|]].
  { apply Hstep, emits_only_Confirm_ask; apply HS; discriminate. }
  - cbn [negb].
    apply (trace_sat_weaken (Forall Q)).
    { intros evs Hall Hin. rewrite Forall_forall in Hall.
      now elim (Hall _ Hin). }
    apply trace_sat_forall_bind; [|intros output_dir].
    { apply HQ, emits_only_Prompt_ask. discriminate. }
    apply trace_sat_forall_bind; [|intros _].
    { apply trace_sat_makedirs. discriminate. }
    apply trace_sat_forall_bind; [|intros _].
    { apply HQ, convert_each_emits; try intros; discriminate. }
    apply HQ, emits_only_print. discriminate.
  - cbn [negb]. intros w. exists [Print PptCancelled]. split; [reflexivity|].
    intros _. repeat constructor.
Qed.

End PptRuns.
End PptRunFacts.

(* ================================================================== *)
(** ** Whole runs of [mkpdf] *)

Module MdRunFacts.
Import Py PosixPath Rt Spec Props StepFacts RunFacts TraceFacts.

Lemma runs_of_app (evs1 evs2 : list event) :
  runs_of (evs1 ++ evs2) = runs_of evs1 ++ runs_of evs2.
Proof. apply flat_map_app. Qed.

Lemma runs_of_none (evs : list event) :
  Forall (fun ev => forall argv, ev <> Run argv) evs -> runs_of evs = [].
Proof.
  induction 1 as [|ev evs Hev _ IH]; [reflexivity|].
  cbn [runs_of flat_map]. fold (runs_of evs). rewrite IH.
  destruct ev as [m|p|argv|a c]; try reflexivity. now elim (Hev argv).
Qed.

Section MdRuns.
Context {FS : Type} {HFS : FileSystem FS} {U : Unicode}.
Variable E : env.

Lemma convert_file_to_md_emits (P : event -> Prop) (file_path : string)
      (output_dir : option string) :
  P (Run (Mkpdf.markitdown_argv
            file_path (Mkpdf.output_path_of file_path output_dir))) ->
  (forall a b, P (Print (MdConverting a b))) ->
  (forall a, P (Print (MdConverted a))) ->
  (forall a e, P (Print (MdConvertFailed a e))) ->
  emits_only P (Mkpdf.convert_file_to_md (FS := FS) E file_path output_dir).
Proof.
  intros Hrun H1 H2 H3. unfold Mkpdf.convert_file_to_md.
  apply emits_only_bind; [now apply emits_only_print|]. intros _.
  apply emits_only_try.
  - apply emits_only_bind; [now apply emits_only_run|].
    intros _. apply emits_only_bind; [now apply emits_only_print|].
    intros _. apply emits_only_ret.
  - intros e. apply emits_only_bind; [now apply emits_only_print|].
    intros _. apply emits_only_ret.
Qed.

Lemma convert_all_emits_for (P : event -> Prop) (input_dir d : string)
      (files : list string) (c : nat) :
  (forall file, In file files -> P (Run (argv_for input_dir d file))) ->
  (forall a b, P (Print (MdConverting a b))) ->
  (forall a, P (Print (MdConverted a))) ->
  (forall a e, P (Print (MdConvertFailed a e))) ->
  emits_only P (Mkpdf.convert_all (FS := FS) E input_dir d files c).
Proof.
  intros Hrun H1 H2 H3.
  revert c. induction files as [|file files IH]; intros c;
    cbn [Mkpdf.convert_all].
  - apply emits_only_ret.
  - apply emits_only_bind.
    { apply convert_file_to_md_emits; try assumption.
      apply (Hrun file). now left. }
    intros ok. apply IH. intros file' Hin. apply Hrun. now right.
Qed.

Lemma convert_all_emits (P : event -> Prop) (input_dir d : string)
      (files : list string) (c : nat) :
  (forall argv, P (Run argv)) ->
  (forall a b, P (Print (MdConverting a b))) ->
  (forall a, P (Print (MdConverted a))) ->
  (forall a e, P (Print (MdConvertFailed a e))) ->
  emits_only P (Mkpdf.convert_all (FS := FS) E input_dir d files c).
Proof.
  intros Hrun. apply convert_all_emits_for. intros file _. apply Hrun.
Qed.

(** One file is one command, whatever becomes of it. *)
Lemma convert_file_to_md_runs_once (file_path : string)
      (output_dir : option string) (w : world FS) :
  exists evs,
    w_trace (snd (Mkpdf.convert_file_to_md E file_path output_dir w))
    = w_trace w ++ evs /\
    List.length (runs_of evs) = 1.
Proof.
  unfold Mkpdf.convert_file_to_md.
  unfold bind, try_except, print, emit, emits, subprocess_run, ret.
  cbn [w_nproc w_trace w_stdin w_fs w_napp].
  destruct (e_proc E (w_nproc w) _) as [code| |];
    [destruct (Z.eqb code 0)| |]; cbn;
    eexists; rewrite <- !app_assoc; cbn; split; reflexivity.
Qed.

(** Only an interrupt gets out of the conversion of one file. *)
Lemma convert_file_to_md_raises (file_path : string)
      (output_dir : option string) :
  raises_only (fun e => e = KeyboardInterrupt)
              (Mkpdf.convert_file_to_md (FS := FS) E file_path output_dir).
Proof.
  intros w e w'. unfold Mkpdf.convert_file_to_md.
  unfold bind, try_except, print, emit, emits, subprocess_run, ret.
  cbn [w_nproc w_trace w_stdin w_fs w_napp].
  destruct (e_proc E (w_nproc w) _) as [code| |];
    [destruct (Z.eqb code 0)| |]; cbn; congruence.
Qed.

Lemma convert_all_raises (input_dir d : string) (files : list string)
      (c : nat) :
  raises_only (fun e => e = KeyboardInterrupt)
              (Mkpdf.convert_all (FS := FS) E input_dir d files c).
Proof.
  revert c. induction files as [|file files IH]; intros c; cbn.
  - apply ret_never_raises.
  - apply (raises_only_bind _ (fun _ => True));
      [apply convert_file_to_md_raises | apply returns_any |].
    intros ok _. apply IH.
Qed.

(** When the loop returns, it has run one command for each file and
    counted no more successes than files. *)
Lemma convert_all_counts (input_dir d : string) (files : list string) :
  forall (c : nat) (w : world FS) (k : nat) (w' : world FS),
    Mkpdf.convert_all E input_dir d files c w = (Ret k, w') ->
    exists evs,
      w_trace w' = w_trace w ++ evs /\
      List.length (runs_of evs) = List.length files /\
      c <= k <= c + List.length files.
Proof.
  induction files as [|file files IH]; intros c w k w'.
  - intros [= <- <-]. exists []. rewrite app_nil_r. cbn. repeat split; lia.
  - cbn [Mkpdf.convert_all]. unfold bind at 1.
    destruct (convert_file_to_md_runs_once (join input_dir file) (Some d) w)
      as (evs1 & Ht1 & Hone).
    destruct (Mkpdf.convert_file_to_md E (join input_dir file) (Some d) w)
      as [[ok|e] w1]; [|discriminate].
    cbn [snd] in Ht1. intros Hrest.
    destruct (IH _ _ _ _ Hrest) as (evs2 & Ht2 & Hlen & Hk).
    exists (evs1 ++ evs2). rewrite Ht2, Ht1, app_assoc.
    split; [reflexivity|]. rewrite runs_of_app, length_app, Hone, Hlen.
    cbn [List.length]. split; [lia|]. destruct ok; lia.
Qed.

(** *** The summary line *)

Lemma find_and_convert_summary (input_dir output_dir : string)
      (fmt : Mkpdf.format) :
  trace_sat summary_ok
            (Mkpdf.find_and_convert (FS := FS) E input_dir output_dir fmt).
Proof.
  set (S := fun ev => (forall argv, ev <> Run argv) /\
                      (forall k n, ev <> Print (MdSummary k n))).
  assert (Hpre : forall pre, Forall S pre -> summary_ok pre).
  { intros pre Hall k n Hin. rewrite Forall_forall in Hall.
    now elim (proj2 (Hall _ Hin) k n). }
  assert (Hcat : forall pre evs,
             Forall S pre -> summary_ok evs -> summary_ok (pre ++ evs)).
  { intros pre evs Hall Hevs k n Hin.
    rewrite runs_of_app, (runs_of_none pre).
    2:{ eapply Forall_impl; [|exact Hall]. now intros ev [H1 _]. }
    apply Hevs. apply in_app_or in Hin. destruct Hin as [Hin|Hin];
      [|exact Hin].
    rewrite Forall_forall in Hall. now elim (proj2 (Hall _ Hin) k n). }
  assert (HS : forall m, (forall k n, m <> MdSummary k n) -> S (Print m)).
  { intros m Hm. split; [discriminate|]. intros k n. congruence. }
  unfold Mkpdf.find_and_convert, Mkpdf.list_target_files.
  apply (trace_sat_after S); [exact Hpre|exact Hcat| |].
  { apply trace_sat_of_emits.
    apply emits_only_bind; [apply emits_only_listdir|].
    intros listing. apply emits_only_ret. }
  intros [|file files].
  { eapply trace_sat_weaken; [exact Hpre|].
    apply trace_sat_of_emits, emits_only_print, HS. discriminate. }
  apply (trace_sat_after S); [exact Hpre|exact Hcat| |intros _].
  { apply trace_sat_of_emits, emits_only_print, HS. discriminate. }
  apply (trace_sat_after S); [exact Hpre|exact Hcat| |intros [|]].
  { apply trace_sat_of_emits, emits_only_Confirm_ask; apply HS;
      discriminate. }
  2:{ eapply trace_sat_weaken; [exact Hpre|].
      apply trace_sat_of_emits, emits_only_print, HS. discriminate. }
  intros w. unfold bind.
  destruct (Mkpdf.convert_all E input_dir output_dir (file :: files) 0 w)
    as [[k|e] w1] eqn:Hrun.
  - destruct (convert_all_counts _ _ _ _ _ _ _ Hrun)
      as (evs & Ht & Hlen & Hk).
    assert (Hno : Forall (fun ev => forall k n, ev <> Print (MdSummary k n))
                         evs).
    { destruct (convert_all_emits
                  (fun ev => forall k n, ev <> Print (MdSummary k n))
                  input_dir output_dir (file :: files) 0) with (w := w)
        as (evs' & Ht' & Hno & _); try discriminate.
      rewrite Hrun in Ht'. cbn [snd] in Ht'. rewrite Ht in Ht'.
      apply app_inv_head in Ht'. now subst. }
    cbn [print emit emits snd w_trace].
    exists (evs ++ [Print (MdSummary k (List.length (file :: files)))]).
    rewrite Ht, <- app_assoc. split; [reflexivity|].
    intros k' n' Hin. rewrite runs_of_app, length_app, Hlen. cbn.
    apply in_app_or in Hin. destruct Hin as [Hin|[Heq|[]]].
    + rewrite Forall_forall in Hno. now elim (Hno _ Hin k' n').
    + injection Heq as <- <-. cbn in Hk. lia.
  - destruct (convert_all_emits
                (fun ev => forall k n, ev <> Print (MdSummary k n))
                input_dir output_dir (file :: files) 0) with (w := w)
      as (evs & Ht & Hno & _); try discriminate.
    rewrite Hrun in Ht. cbn [snd] in *. exists evs. split; [exact Ht|].
    intros k n Hin. rewrite Forall_forall in Hno. now elim (Hno _ Hin k n).
Qed.

Lemma main_summary : trace_sat summary_ok (Mkpdf.main (FS := FS) E).
Proof.
  set (S := fun ev => (forall argv, ev <> Run argv) /\
                      (forall k n, ev <> Print (MdSummary k n))).
  assert (Hpre : forall pre, Forall S pre -> summary_ok pre).
  { intros pre Hall k n Hin. rewrite Forall_forall in Hall.
    now elim (proj2 (Hall _ Hin) k n). }
  assert (Hcat : forall pre evs,
             Forall S pre -> summary_ok evs -> summary_ok (pre ++ evs)).
  { intros pre evs Hall Hevs k n Hin.
    rewrite runs_of_app, (runs_of_none pre).
    2:{ eapply Forall_impl; [|exact Hall]. now intros ev [H1 _]. }
    apply Hevs. apply in_app_or in Hin. destruct Hin as [Hin|Hin];
      [|exact Hin].
    rewrite Forall_forall in Hall. now elim (proj2 (Hall _ Hin) k n). }
  assert (HS : forall m, (forall k n, m <> MdSummary k n) -> S (Print m)).
  { intros m Hm. split; [discriminate|]. intros k n. congruence. }
  unfold Mkpdf.main.
  apply (trace_sat_after S); [exact Hpre|exact Hcat| |intros _].
  { apply trace_sat_of_emits, emits_only_print, HS. discriminate. }
  apply (trace_sat_after S); [exact Hpre|exact Hcat| |intros input_dir].
  { apply trace_sat_of_emits, emits_only_Prompt_ask, HS. discriminate. }
  apply (trace_sat_after S); [exact Hpre|exact Hcat| |intros _].
  { apply trace_sat_of_emits, emits_only_print, HS. discriminate. }
  apply (trace_sat_after S); [exact Hpre|exact Hcat| |intros choice].
  { apply trace_sat_of_emits, emits_only_Prompt_ask_choices; apply HS;
      discriminate. }
  apply (trace_sat_after S); [exact Hpre|exact Hcat| |intros fmt].
  { apply trace_sat_of_emits. destruct (Mkpdf.getitem _ _);
      [apply emits_only_ret | apply emits_only_raise]. }
  apply (trace_sat_after S); [exact Hpre|exact Hcat| |intros fmt'].
  { apply trace_sat_of_emits.
    destruct (String.eqb choice "4"); [|apply emits_only_ret].
    apply emits_only_bind; [|intros x; apply emits_only_ret].
    apply emits_only_Prompt_ask, HS. discriminate. }
  apply (trace_sat_after S); [exact Hpre|exact Hcat| |intros output_dir].
  { apply trace_sat_of_emits, emits_only_Prompt_ask, HS. discriminate. }
  apply (trace_sat_after S); [exact Hpre|exact Hcat| |intros _].
  { apply trace_sat_makedirs. split; discriminate. }
  apply find_and_convert_summary.
Qed.

(** *** Giving up *)

Lemma calm_print (m : msg) :
  m <> MdCancelled ->
  (forall format_name, m <> MdNoneFound format_name) ->
  calm (Print m).
Proof.
  intros H2 H3. split; [discriminate|].
  intros [Heq | [format_name Heq]]; congruence.
Qed.

Lemma calm_no_gave_up (pre : list event) (ev : event) :
  Forall calm pre -> In ev pre -> gave_up ev -> False.
Proof.
  intros Hall Hin Hg. rewrite Forall_forall in Hall.
  exact (proj2 (Hall _ Hin) Hg).
Qed.

Lemma calm_no_runs (pre : list event) : Forall calm pre -> runs_of pre = [].
Proof.
  intros Hall. apply runs_of_none.
  eapply Forall_impl; [|exact Hall]. now intros ev [H1 _].
Qed.

Lemma find_and_convert_idle (input_dir output_dir : string)
      (fmt : Mkpdf.format) :
  trace_sat idle
            (Mkpdf.find_and_convert (FS := FS) E input_dir output_dir fmt).
Proof.
  assert (Hpre : forall pre, Forall calm pre -> idle pre).
  { intros pre Hall _. now apply calm_no_runs. }
  assert (Hcat : forall pre evs,
             Forall calm pre -> idle evs -> idle (pre ++ evs)).
  { intros pre evs Hall Hevs (ev & Hin & Hg).
    rewrite runs_of_app, (calm_no_runs pre Hall). apply Hevs.
    exists ev. split; [|exact Hg]. apply in_app_or in Hin.
    destruct Hin as [Hin|Hin]; [|exact Hin].
    now elim (calm_no_gave_up pre ev). }
  unfold Mkpdf.find_and_convert, Mkpdf.list_target_files.
  apply (trace_sat_after calm); [exact Hpre|exact Hcat| |].
  { apply trace_sat_of_emits.
    apply emits_only_bind; [apply emits_only_listdir|].
    intros listing. apply emits_only_ret. }
  intros [|file files].
  { intros w. eexists. split; [reflexivity|]. intros _. reflexivity. }
  apply (trace_sat_after calm); [exact Hpre|exact Hcat| |intros _].
  { apply trace_sat_of_emits, emits_only_print, calm_print; discriminate. }
  apply (trace_sat_after calm); [exact Hpre|exact Hcat| |intros [|]].
  { apply trace_sat_of_emits, emits_only_Confirm_ask; apply calm_print;
      discriminate. }
  - apply (trace_sat_weaken (Forall (fun ev => ~ gave_up ev))).
    { intros evs Hall (ev & Hin & Hg). rewrite Forall_forall in Hall.
      now elim (Hall _ Hin). }
    apply trace_sat_of_emits.
    assert (Hp : forall m, m <> MdCancelled ->
                           (forall format_name, m <> MdNoneFound format_name) ->
                           ~ gave_up (Print m)).
    { intros m H1 H2 [Heq | [format_name Heq]]; congruence. }
    apply emits_only_bind; [|intros k; apply emits_only_print, Hp;
                             discriminate].
    apply convert_all_emits; try intros; try (apply Hp; discriminate).
    intros [Heq | [format_name Heq]]; discriminate.
  - intros w. eexists. split; [reflexivity|]. intros _. reflexivity.
Qed.

Lemma main_prepared : trace_sat prepared (Mkpdf.main (FS := FS) E).
Proof.
  assert (Hpre : forall pre, Forall calm pre -> prepared pre).
  { intros pre Hall (ev & Hin & Hg). now elim (calm_no_gave_up pre ev). }
  assert (Hcat : forall pre evs,
             Forall calm pre -> prepared evs -> prepared (pre ++ evs)).
  { intros pre evs Hall Hevs (ev & Hin & Hg).
    rewrite runs_of_app, (calm_no_runs pre Hall).
    destruct Hevs as (Hruns & d & Hd).
    - exists ev. split; [|exact Hg]. apply in_app_or in Hin.
      destruct Hin as [Hin|Hin]; [|exact Hin].
      now elim (calm_no_gave_up pre ev).
    - split; [exact Hruns|]. exists d. apply in_or_app. now right. }
  unfold Mkpdf.main.
  apply (trace_sat_after calm); [exact Hpre|exact Hcat| |intros _].
  { apply trace_sat_of_emits, emits_only_print, calm_print; discriminate. }
  apply (trace_sat_after calm); [exact Hpre|exact Hcat| |intros input_dir].
  { apply trace_sat_of_emits, emits_only_Prompt_ask, calm_print;
      discriminate. }
  apply (trace_sat_after calm); [exact Hpre|exact Hcat| |intros _].
  { apply trace_sat_of_emits, emits_only_print, calm_print; discriminate. }
  apply (trace_sat_after calm); [exact Hpre|exact Hcat| |intros choice].
  { apply trace_sat_of_emits, emits_only_Prompt_ask_choices;
      apply calm_print; discriminate. }
  apply (trace_sat_after calm); [exact Hpre|exact Hcat| |intros fmt].
  { apply trace_sat_of_emits. destruct (Mkpdf.getitem _ _);
      [apply emits_only_ret | apply emits_only_raise]. }
  apply (trace_sat_after calm); [exact Hpre|exact Hcat| |intros fmt'].
  { apply trace_sat_of_emits.
    destruct (String.eqb choice "4"); [|apply emits_only_ret].
    apply emits_only_bind; [|intros x; apply emits_only_ret].
    apply emits_only_Prompt_ask, calm_print; discriminate. }
  apply (trace_sat_after calm); [exact Hpre|exact Hcat| |intros output_dir].
  { apply trace_sat_of_emits, emits_only_Prompt_ask, calm_print;
      discriminate. }
  intros w. unfold bind, os_makedirs.
  destruct (makedirs (w_fs w) output_dir) as [f'|].
  - match goal with
    | |- context [Mkpdf.find_and_convert E input_dir output_dir fmt' ?w1] =>
        destruct (find_and_convert_idle input_dir output_dir fmt' w1)
          as (evs & Ht & Hidle)
    end.
    cbn [w_trace] in Ht. exists (Makedirs output_dir :: evs).
    split; [rewrite Ht, <- app_assoc; reflexivity|].
    intros (ev & Hin & Hg). split.
    + cbn [runs_of flat_map app]. apply Hidle.
      exists ev. split; [|exact Hg].
      destruct Hin as [<-|Hin]; [|exact Hin].
      destruct Hg as [Heq | [format_name Heq]]; discriminate.
    + exists output_dir. now left.
  - exists []. cbn. rewrite app_nil_r. split; [reflexivity|].
    intros (ev & [] & _).
Qed.

(** *** What can leave [main] *)

Lemma leaves_main_later (e : exn) (pre evs : list event) :
  Forall (fun ev => forall argv, ev <> Run argv) pre ->
  leaves_main e evs -> leaves_main e (pre ++ evs).
Proof.
  intros Hpre [->|[Hruns He]]; [now left|]. right. split; [|exact He].
  now rewrite runs_of_app, (runs_of_none pre Hpre).
Qed.

Lemma raises_after_bind {A B} (Q : A -> Prop)
      (m : M FS A) (k : A -> M FS B) :
  trace_sat (Forall (fun ev => forall argv, ev <> Run argv)) m ->
  raises_after leaves_main m ->
  returns Q m ->
  (forall a, Q a -> raises_after leaves_main (k a)) ->
  raises_after leaves_main (bind m k).
Proof.
  intros Ht Hm HQ Hk w e w'. unfold bind.
  destruct (Ht w) as (evs1 & Ht1 & HS1).
  destruct (m w) as [[a|e1] w1] eqn:Hmw; cbn [snd] in *.
  - intros Hrun. destruct (Hk a (HQ _ _ _ Hmw) _ _ _ Hrun)
      as (evs2 & Ht2 & HP).
    exists (evs1 ++ evs2). rewrite Ht2, Ht1, app_assoc.
    split; [reflexivity | now apply leaves_main_later].
  - intros [= <- <-]. apply (Hm _ _ _ Hmw).
Qed.

(** A step that runs no command and raises what a prompt or a call of
    the file system raises. *)
Lemma raises_after_early {A} (m : M FS A) :
  trace_sat (Forall (fun ev => forall argv, ev <> Run argv)) m ->
  raises_only (fun e => leaves_main e []) m ->
  raises_after leaves_main m.
Proof.
  intros Ht Hr w e w' Hrun. destruct (Ht w) as (evs & Htr & HS).
  rewrite Hrun in Htr. exists evs. split; [exact Htr|].
  rewrite <- (app_nil_r evs). apply leaves_main_later; [exact HS|].
  exact (Hr _ _ _ Hrun).
Qed.

Lemma never_raises_after {A} (m : M FS A) :
  (forall w e w', m w <> (Raise e, w')) -> raises_after leaves_main m.
Proof. intros Hm w e w' Hrun. now elim (Hm w e w'). Qed.

Lemma print_raises_after (m : msg) :
  raises_after leaves_main (print (FS := FS) m).
Proof. apply never_raises_after. discriminate. Qed.

Lemma ret_raises_after {A} (a : A) :
  raises_after leaves_main (ret (FS := FS) a).
Proof. apply never_raises_after. discriminate. Qed.

Lemma ask_raises_after {A} (q : msg) (body : string -> A + msg) :
  raises_after leaves_main (ask (FS := FS) q body).
Proof.
  apply raises_after_early.
  - apply trace_sat_of_emits, emits_only_ask. discriminate.
  - eapply raises_only_weaken; [|apply ask_raises].
    intros e [->| ->]; [now left | right; auto].
Qed.

Lemma os_makedirs_raises_after (d : string) :
  raises_after leaves_main (os_makedirs (FS := FS) d).
Proof.
  apply raises_after_early.
  - apply trace_sat_makedirs. discriminate.
  - intros w e w'. unfold os_makedirs.
    destruct (makedirs (w_fs w) d); [discriminate|].
    intros [= <- _]. right. split; [reflexivity|]. right. now exists d.
Qed.

Lemma list_target_files_raises_after (input_dir : string)
      (selected_ext : list string) :
  raises_after leaves_main
               (Mkpdf.list_target_files (FS := FS) input_dir selected_ext).
Proof.
  apply raises_after_early.
  - apply trace_sat_of_emits. unfold Mkpdf.list_target_files.
    apply emits_only_bind; [apply emits_only_listdir|].
    intros listing. apply emits_only_ret.
  - intros w e w'. unfold Mkpdf.list_target_files, bind, os_listdir.
    destruct (listdir (w_fs w) input_dir); [discriminate|].
    intros [= <- _]. right. split; [reflexivity|]. right.
    now exists input_dir.
Qed.

(** The answer to the format question is a key of the table. *)
Lemma choice_in_table :
  returns (fun choice => Mkpdf.getitem Mkpdf.format_choices choice <> None)
          (Prompt_ask_choices (FS := FS) MdAskChoice ["1"; "2"; "3"; "4"] "1").
Proof.
  intros w choice w' Hask.
  destruct (ask_returns _ _ w choice w' Hask) as [l Hl].
  cbn beta in Hl. destruct (String.eqb l "").
  { injection Hl as <-. discriminate. }
  destruct (existsb _ _) eqn:Hex; [|discriminate].
  injection Hl as <-.
  apply existsb_exists in Hex. destruct Hex as (c & Hin & Heq).
  apply String.eqb_eq in Heq. rewrite Heq.
  cbn in Hin. destruct Hin as [<-|[<-|[<-|[<-|[]]]]]; discriminate.
Qed.

(** Once the loop has started, only the interrupt gets out. *)
Lemma convert_all_raises_after (input_dir d : string)
      (files : list string) (c : nat) :
  raises_after leaves_main
               (Mkpdf.convert_all (FS := FS) E input_dir d files c).
Proof.
  intros w e w' Hrun.
  destruct (convert_all_emits (fun _ => True) input_dir d files c) with (w := w)
    as (evs & Ht & _); try (intros; exact I).
  rewrite Hrun in Ht. exists evs. split; [exact Ht|]. left.
  exact (convert_all_raises input_dir d files c _ _ _ Hrun).
Qed.

Lemma find_and_convert_raises (input_dir output_dir : string)
      (fmt : Mkpdf.format) :
  raises_after leaves_main
               (Mkpdf.find_and_convert (FS := FS) E input_dir output_dir fmt).
Proof.
  assert (Hquiet : forall m : msg, forall argv, Print m <> Run argv)
    by discriminate.
  unfold Mkpdf.find_and_convert.
  apply (raises_after_bind (fun _ => True)).
  { apply trace_sat_of_emits. unfold Mkpdf.list_target_files.
    apply emits_only_bind; [apply emits_only_listdir|].
    intros listing. apply emits_only_ret. }
  { apply list_target_files_raises_after. }
  { apply returns_any. }
  intros [|file files] _; [apply print_raises_after|].
  apply (raises_after_bind (fun _ => True));
    [apply trace_sat_of_emits, emits_only_print, Hquiet
    |apply print_raises_after | apply returns_any | intros _ _].
  apply (raises_after_bind (fun _ => True));
    [apply trace_sat_of_emits, emits_only_ask, Hquiet
    |apply ask_raises_after | apply returns_any | intros [|] _].
  - intros w e w'. unfold bind.
    destruct (Mkpdf.convert_all E input_dir output_dir (file :: files) 0 w)
      as [[k|e1] w1] eqn:Hrun; [discriminate|].
    intros [= <- <-].
    exact (convert_all_raises_after _ _ _ _ _ _ _ Hrun).
  - apply print_raises_after.
Qed.

Lemma main_raises :
  raises_after leaves_main (Mkpdf.main (FS := FS) E).
Proof.
  assert (Hquiet : forall m : msg, forall argv, Print m <> Run argv)
    by discriminate.
  unfold Mkpdf.main.
  apply (raises_after_bind (fun _ => True));
    [apply trace_sat_of_emits, emits_only_print, Hquiet
    |apply print_raises_after | apply returns_any | intros _ _].
  apply (raises_after_bind (fun _ => True));
    [apply trace_sat_of_emits, emits_only_ask, Hquiet
    |apply ask_raises_after | apply returns_any | intros input_dir _].
  apply (raises_after_bind (fun _ => True));
    [apply trace_sat_of_emits, emits_only_print, Hquiet
    |apply print_raises_after | apply returns_any | intros _ _].
  apply (raises_after_bind
           (fun choice => Mkpdf.getitem Mkpdf.format_choices choice <> None));
    [apply trace_sat_of_emits, emits_only_ask, Hquiet
    |apply ask_raises_after | apply choice_in_table | intros choice Hchoice].
  apply (raises_after_bind (fun _ => True)); [| |apply returns_any|].
  { apply trace_sat_of_emits. destruct (Mkpdf.getitem _ _);
      [apply emits_only_ret | apply emits_only_raise]. }
  { destruct (Mkpdf.getitem _ _); [apply ret_raises_after | congruence]. }
  intros fmt _.
  apply (raises_after_bind (fun _ => True)); [| |apply returns_any|].
  { apply trace_sat_of_emits.
    destruct (String.eqb choice "4"); [|apply emits_only_ret].
    apply emits_only_bind; [|intros x; apply emits_only_ret].
    apply emits_only_ask, Hquiet. }
  { destruct (String.eqb choice "4"); [|apply ret_raises_after].
    apply (raises_after_bind (fun _ => True));
      [apply trace_sat_of_emits, emits_only_ask, Hquiet
      |apply ask_raises_after | apply returns_any |].
    intros x _. apply ret_raises_after. }
  intros fmt' _.
  apply (raises_after_bind (fun _ => True));
    [apply trace_sat_of_emits, emits_only_ask, Hquiet
    |apply ask_raises_after | apply returns_any | intros output_dir _].
  apply (raises_after_bind (fun _ => True));
    [apply trace_sat_makedirs; discriminate
    |apply os_makedirs_raises_after | apply returns_any | intros _ _].
  apply find_and_convert_raises.
Qed.

End MdRuns.
End MdRunFacts.

(* ================================================================== *)
(** ** The selection and the calls of a conversion *)

Module ChoiceFacts.
Import Py PosixPath Rt Spec Props StepFacts RunFacts BatchFacts SelectFacts.
Import TraceFacts.

Lemma pick_incl (files : list Ppt2pdf.Path) (indices : list Z)
      (chosen : list Ppt2pdf.Path) :
  Ppt2pdf.pick files indices = Some chosen -> incl chosen files.
Proof.
  revert chosen. induction indices as [|idx rest IH]; intros chosen; cbn.
  - intros [= <-]. intros x [].
  - destruct (_ && _); [|apply IH].
    destruct (nth_error files (Z.to_nat idx)) as [f|] eqn:Hnth;
      [|discriminate].
    destruct (Ppt2pdf.pick files rest) as [tail|]; [|discriminate].
    cbn. intros [= <-]. intros x [<-|Hin].
    + eapply nth_error_In; eauto.
    + now apply (IH tail).
Qed.

Lemma select_round_chosen {U : Unicode} (files : list Ppt2pdf.Path)
      (selection : string) (chosen : list Ppt2pdf.Path) :
  Ppt2pdf.select_round files selection = inl chosen ->
  incl chosen files /\ (chosen = files \/ chosen <> []).
Proof.
  unfold Ppt2pdf.select_round.
  destruct (String.eqb (lower selection) "0").
  { intros [= <-]. split; [apply incl_refl | now left]. }
  destruct (Ppt2pdf.parse_indices selection) as [indices|]; [|discriminate].
  destruct (Ppt2pdf.pick files indices) as [[|f sel]|] eqn:Hpick;
    try discriminate.
  intros [= <-]. split; [now apply (pick_incl files indices)|].
  right. discriminate.
Qed.

Lemma parse_tokens_malformed {U : Unicode} (fields : list string) :
  (exists field, In field fields /\ int (strip field) = None) ->
  Ppt2pdf.parse_tokens fields = None.
Proof.
  induction fields as [|f fields IH]; intros (field & Hin & Hbad).
  - destruct Hin.
  - cbn. destruct (int (strip f)) as [n|] eqn:Hf; [|reflexivity].
    rewrite IH; [reflexivity|].
    exists field. split; [|exact Hbad].
    destruct Hin as [<-|Hin]; [congruence | exact Hin].
Qed.

Lemma select_round_malformed {U : Unicode} (files : list Ppt2pdf.Path)
      (selection : string) :
  lower selection <> "0"%string ->
  malformed selection ->
  Ppt2pdf.select_round files selection = inr PptFormatError.
Proof.
  intros Hzero Hbad. unfold Ppt2pdf.select_round, Ppt2pdf.parse_indices.
  destruct (String.eqb_spec (lower selection) "0") as [Hz|_];
    [contradiction|].
  now rewrite (parse_tokens_malformed _ Hbad).
Qed.

Section Choice.
Context {FS : Type} {HFS : FileSystem FS} {U : Unicode}.
Variable E : env.

(** *** The calls of one conversion *)

Lemma export_result (app : nat) (pptx_path pdf_path : string)
      (w : world FS) :
  (forall p, fst (Ppt2pdf.export E app pptx_path pdf_path w) = Ret p ->
             p = pdf_path) /\
  ((exists p, fst (Ppt2pdf.export E app pptx_path pdf_path w) = Ret p) <->
   opened E app pptx_path /\
   e_com E app (SaveAs pdf_path 32) = None /\
   e_com E app Close = None).
Proof.
  unfold Ppt2pdf.export, bind, try_except, com_invoke, print, emit, emits,
    ret, opened.
  destruct (e_com E app (SetVisible 0)); cbn;
    destruct (e_com E app (OpenNoWindow pptx_path)); cbn;
    try destruct (e_com E app (Open pptx_path)); cbn;
    destruct (e_com E app (SaveAs pdf_path 32)); cbn;
    try destruct (e_com E app Close); cbn;
    (split; [intros p; congruence|]);
    (split; [intros [p Hp]; try discriminate; intuition congruence
            | intros (Ho & Hs & Hc); try discriminate;
              try (destruct Ho; discriminate); eauto]).
Qed.

Lemma export_calls (app : nat) (pptx_path pdf_path : string)
      (w : world FS) :
  exists evs,
    w_trace (snd (Ppt2pdf.export E app pptx_path pdf_path w))
    = w_trace w ++ evs /\
    (In (Print PptVisibleWarning) evs <->
     e_com E app (SetVisible 0) <> None) /\
    (In (Com app (Open pptx_path)) evs <->
     e_com E app (OpenNoWindow pptx_path) <> None) /\
    (In (Com app (SaveAs pdf_path 32)) evs <-> opened E app pptx_path) /\
    (In (Com app Close) evs <->
     opened E app pptx_path /\ e_com E app (SaveAs pdf_path 32) = None) /\
    Forall (fun ev => forall name e, ev <> Print (PptConvertError name e)) evs
    /\ ~ In (Com app Quit) evs.
Proof.
  unfold Ppt2pdf.export, bind, try_except, com_invoke, print, emit, emits,
    ret, opened.
  destruct (e_com E app (SetVisible 0)) eqn:Hv; cbn;
    destruct (e_com E app (OpenNoWindow pptx_path)) eqn:Ho; cbn;
    try (destruct (e_com E app (Open pptx_path)) eqn:Ho'; cbn);
    try (destruct (e_com E app (SaveAs pdf_path 32)) eqn:Hs; cbn);
    try (destruct (e_com E app Close) eqn:Hc; cbn);
    eexists; (split; [rewrite <- ?app_assoc; cbn; reflexivity|]);
    cbn [In]; repeat match goal with |- _ /\ _ => split end;
    try (repeat constructor; discriminate);
    intuition congruence.
Qed.

Lemma in_before_quit (app : nat) (ev : event) (evs : list event) :
  ev <> Com app Quit -> In ev (evs ++ [Com app Quit]) <-> In ev evs.
Proof.
  intros Hne. rewrite in_app_iff. cbn. intuition congruence.
Qed.

Lemma in_before_report (m : msg) (ev : event) (evs : list event) :
  ev <> Print m -> In ev (evs ++ [Print m]) <-> In ev evs.
Proof.
  intros Hne. rewrite in_app_iff. cbn. intuition congruence.
Qed.

(** The calls of a conversion whose application has started. *)
Lemma convert_pptx_to_pdf_calls (pptx_path output_folder : string)
      (w : world FS) :
  let app := w_napp w in
  let pptx := e_resolve E pptx_path in
  let pdf := pdf_target E pptx_path output_folder in
  e_com E app CreateObject = None ->
  exists evs,
    w_trace (snd (Ppt2pdf.convert_pptx_to_pdf E pptx_path output_folder w))
    = w_trace w ++ Com app CreateObject :: evs /\
    (In (Print PptVisibleWarning) evs <->
     e_com E app (SetVisible 0) <> None) /\
    (In (Com app (Open pptx)) evs <->
     e_com E app (OpenNoWindow pptx) <> None) /\
    (In (Com app (SaveAs pdf 32)) evs <-> opened E app pptx) /\
    (In (Com app Close) evs <->
     opened E app pptx /\ e_com E app (SaveAs pdf 32) = None).
Proof.
  intros app pptx pdf Hcreate.
  unfold Ppt2pdf.convert_pptx_to_pdf, create_object.
  fold app. rewrite Hcreate. fold pptx.
  change (Ppt2pdf.truediv (e_resolve E output_folder)
                          (Ppt2pdf.stem pptx ++ ".pdf")%string) with pdf.
  match goal with
  | |- context [Ppt2pdf.export E app pptx pdf ?w0] =>
      destruct (export_calls app pptx pdf w0)
        as (evs & Ht & Hv & Ho & Hs & Hc & _ & _);
      destruct (Ppt2pdf.export E app pptx pdf w0) as [r w1]
  end.
  cbn [snd w_trace] in Ht.
  destruct r as [p|e]; [|destruct (is_Exception e)].
  - pose proof (quit_trace E app w1) as Hq.
    destruct (try_except _ _ _ w1) as [r3 w3]. cbn [snd] in *.
    exists (evs ++ [Com app Quit]).
    split; [rewrite Hq, Ht, <- !app_assoc; reflexivity|].
    rewrite !in_before_quit by discriminate. auto.
  - match goal with
    | |- context [try_except _ _ _ ?w2] =>
        pose proof (quit_trace E app w2) as Hq;
        destruct (try_except _ _ _ w2) as [r3 w3]
    end.
    cbn [print emit emits snd w_trace] in *.
    eexists ((evs ++ [Print _]) ++ [Com app Quit]).
    split; [rewrite Hq, Ht, <- !app_assoc; reflexivity|].
    rewrite !in_before_quit by discriminate.
    rewrite !in_before_report by discriminate. auto.
  - pose proof (quit_trace E app w1) as Hq.
    destruct (try_except _ _ _ w1) as [r3 w3]. cbn [snd] in *.
    exists (evs ++ [Com app Quit]).
    split; [rewrite Hq, Ht, <- !app_assoc; reflexivity|].
    rewrite !in_before_quit by discriminate. auto.
Qed.

(** When a conversion returns, and what. *)
Lemma convert_pptx_to_pdf_result (pptx_path output_folder : string)
      (w : world FS) :
  let app := w_napp w in
  let pptx := e_resolve E pptx_path in
  let pdf := pdf_target E pptx_path output_folder in
  (forall p,
      fst (Ppt2pdf.convert_pptx_to_pdf E pptx_path output_folder w) = Ret p ->
      p = pdf) /\
  ((exists p,
       fst (Ppt2pdf.convert_pptx_to_pdf E pptx_path output_folder w) = Ret p)
   <->
   e_com E app CreateObject = None /\
   opened E app pptx /\
   e_com E app (SaveAs pdf 32) = None /\
   e_com E app Close = None).
Proof.
  intros app pptx pdf.
  destruct (e_com E app CreateObject) as [e|] eqn:Hcreate.
  - rewrite (convert_pptx_to_pdf_not_started E _ _ _ e Hcreate).
    split; [discriminate|]. split.
    + intros [p Hp]. discriminate.
    + intros [Hc _]. discriminate.
  - rewrite (convert_pptx_to_pdf_outcome E _ _ _ Hcreate).
    destruct (export_result app pptx pdf (snd (create_object E w)))
      as [Hval Hiff].
    split; [exact Hval|]. split.
    + intros Hp. split; [reflexivity | exact (proj1 Hiff Hp)].
    + intros (_ & Hrest). exact (proj2 Hiff Hrest).
Qed.

(** With an automation that never fails, one conversion is the six
    calls, and the next application has the next handle. *)
Lemma convert_pptx_to_pdf_smooth (pptx_path output_folder : string)
      (w : world FS) :
  (forall app c, e_com E app c = None) ->
  exists evs w',
    Ppt2pdf.convert_pptx_to_pdf E pptx_path output_folder w
    = (Ret (pdf_target E pptx_path output_folder), w') /\
    w_trace w' = w_trace w ++ evs /\
    saves_of evs = [pdf_target E pptx_path output_folder] /\
    apps_of evs = [w_napp w] /\
    w_napp w' = S (w_napp w).
Proof.
  intros Hok.
  unfold Ppt2pdf.convert_pptx_to_pdf, create_object, Ppt2pdf.export, bind,
    try_except, com_invoke, print, emit, emits, ret.
  rewrite !Hok. cbn.
  do 2 eexists. split; [reflexivity|]. cbn.
  rewrite <- !app_assoc. cbn. repeat split.
Qed.

Lemma saves_of_app (evs1 evs2 : list event) :
  saves_of (evs1 ++ evs2) = saves_of evs1 ++ saves_of evs2.
Proof. apply flat_map_app. Qed.

Lemma apps_of_app (evs1 evs2 : list event) :
  apps_of (evs1 ++ evs2) = apps_of evs1 ++ apps_of evs2.
Proof. apply flat_map_app. Qed.

Lemma convert_each_smooth (d : string) (n : nat)
      (numbered : list (nat * string)) :
  (forall app c, e_com E app c = None) ->
  forall w : world FS,
  exists evs w',
    Ppt2pdf.convert_each E d n numbered w = (Ret tt, w') /\
    w_trace w' = w_trace w ++ evs /\
    saves_of evs = map (fun file => pdf_target E (snd file) d) numbered /\
    apps_of evs = seq (w_napp w) (List.length numbered).
Proof.
  intros Hok. induction numbered as [|[i file] rest IH]; intros w.
  - exists [], w. cbn. now rewrite app_nil_r.
  - cbn [Ppt2pdf.convert_each]. unfold bind at 1. cbn [print emit emits].
    unfold bind at 1.
    match goal with
    | |- context [Ppt2pdf.convert_pptx_to_pdf E file d ?w0] =>
        destruct (convert_pptx_to_pdf_smooth file d w0 Hok)
          as (evs1 & w1 & Hrun & Ht1 & Hs1 & Ha1 & Hn1)
    end.
    rewrite Hrun. unfold bind at 1. cbn [print emit emits].
    match goal with
    | |- context [Ppt2pdf.convert_each E d n rest ?w2] =>
        destruct (IH w2) as (evs2 & w' & Hrest & Ht2 & Hs2 & Ha2)
    end.
    cbn [w_trace w_napp] in *.
    exists (Print (PptProgress i n (Ppt2pdf.path_name file))
              :: evs1 ++ Print PptAdvance :: evs2), w'.
    split; [exact Hrest|]. split.
    { rewrite Ht2, Ht1, <- !app_assoc. reflexivity. }
    cbn [map snd List.length seq]. split.
    + change (saves_of (Print ?m :: ?l)) with (saves_of l).
      rewrite saves_of_app, Hs1.
      change (saves_of (Print ?m :: ?l)) with (saves_of l).
      now rewrite Hs2.
    + change (apps_of (Print ?m :: ?l)) with (apps_of l).
      rewrite apps_of_app, Ha1.
      change (apps_of (Print ?m :: ?l)) with (apps_of l).
      now rewrite Ha2, Hn1.
Qed.

(** What the selector returns. *)
Lemma select_ppt_files_returns (files : list Ppt2pdf.Path) :
  returns (fun chosen => incl chosen files /\ (files <> [] -> chosen <> []))
          (Ppt2pdf.select_ppt_files (FS := FS) files).
Proof.
  intros w chosen w'. destruct files as [|file files].
  - cbn. intros [= <- _]. split; [apply incl_refl | congruence].
  - unfold Ppt2pdf.select_ppt_files. unfold bind at 1.
    destruct (Ppt2pdf.table_rows _ w) as [[rows|e] w1]; [|discriminate].
    unfold bind at 1. cbn [print emit emits]. intros Hask.
    destruct (ask_returns _ _ _ _ _ Hask) as [l Hl].
    destruct (select_round_chosen _ _ _ Hl) as [Hincl [->|Hne]]; auto.
Qed.

End Choice.
End ChoiceFacts.

(* ================================================================== *)
(** ** Names of output files *)

Module NameFacts.
Import Py PosixPath Rt Spec Props.
Local Open Scope string_scope.

Lemma plain_first (s : string) :
  plain s -> s <> "" ->
  exists c rest, s = String c rest /\ c <> extsep.
Proof.
  intros [_ Hdot] Hne. destruct s as [|c rest]; [congruence|].
  exists c, rest. split; [reflexivity|].
  now apply StrFacts.rfind_none_cons in Hdot.
Qed.

(** [splitext] of a plain name with a plain extension. *)
Lemma splitext_plain (stem ext : string) :
  plain stem -> stem <> "" -> plain ext ->
  splitext (stem ++ String extsep ext) = (stem, String extsep ext).
Proof.
  intros Hstem Hne Hext.
  destruct (plain_first stem Hstem Hne) as (c & rest & -> & Hc).
  destruct Hstem as [Hs1 Hs2], Hext as [He1 He2].
  unfold splitext.
  assert (Hsep : rfind sep (String c rest ++ String extsep ext) = (-1)%Z).
  { apply StrFacts.rfind_none_app; [exact Hs1|].
    apply StrFacts.rfind_none_cons. split; [discriminate | exact He1]. }
  rewrite Hsep, (StrFacts.rfind_at_last extsep (String c rest) ext He2).
  replace (-1 <? Z.of_nat (String.length (String c rest)))%Z with true
    by (symmetry; apply Z.ltb_lt; lia).
  change (-1 + 1)%Z with 0%Z. change (Z.to_nat 0) with 0.
  rewrite Nat2Z.id, Nat.sub_0_r. cbn [andb].
  unfold slice_to, slice_from. rewrite Nat2Z.id.
  replace (has_non_dot (String c rest ++ String extsep ext) 0
                       (String.length (String c rest))) with true.
  2:{ cbn [String.length has_non_dot append String.get].
      now destruct (Ascii.eqb_spec c extsep). }
  rewrite StrFacts.substring_app_left, StrFacts.substring_app_right.
  rewrite StrFacts.length_app.
  replace (String.length (String c rest)
           + String.length (String extsep ext)
           - String.length (String c rest))
    with (String.length (String extsep ext)) by lia.
  now rewrite StrFacts.substring_all.
Qed.

Lemma plain_file_sep_free (stem ext : string) :
  plain stem -> plain ext ->
  rfind sep (stem ++ String extsep ext) = (-1)%Z.
Proof.
  intros [Hs _] [He _]. apply StrFacts.rfind_none_app; [exact Hs|].
  apply StrFacts.rfind_none_cons. split; [discriminate | exact He].
Qed.

(** The output path of [mkpdf] forgets the extension of the input. *)
Lemma output_path_of_plain (input_dir stem ext : string)
      (output_dir : string) :
  plain stem -> stem <> "" -> plain ext ->
  Mkpdf.output_path_of (join input_dir (stem ++ String extsep ext))
                       (Some output_dir)
  = join output_dir (stem ++ ".md").
Proof.
  intros Hstem Hne Hext. unfold Mkpdf.output_path_of.
  rewrite (PathFacts.basename_join _ _ (plain_file_sep_free _ _ Hstem Hext)).
  now rewrite (splitext_plain _ _ Hstem Hne Hext).
Qed.

End NameFacts.

(* ================================================================== *)
(** ** What is converted, and when *)

Module ConsentFacts.
Import Py PosixPath Rt Spec Props StepFacts RunFacts TraceFacts ConvertFacts.
Import MdRunFacts.

Section Consent.
Context {FS : Type} {HFS : FileSystem FS} {U : Unicode}.
Variable E : env.

(** *** What is read *)

Lemma reads_same {A} (m : M FS A) :
  (forall w, w_stdin (snd (m w)) = w_stdin w) -> reads m.
Proof. intros Hm w. exists []. now rewrite Hm. Qed.

Lemma reads_ret {A} (a : A) : reads (ret (FS := FS) a).
Proof. now apply reads_same. Qed.

Lemma reads_raise {A} (e : exn) : reads (raise (FS := FS) (A := A) e).
Proof. now apply reads_same. Qed.

Lemma reads_print (m : msg) : reads (print (FS := FS) m).
Proof. now apply reads_same. Qed.

Lemma reads_listdir (p : string) : reads (os_listdir (FS := FS) p).
Proof.
  apply reads_same. intros w. unfold os_listdir.
  now destruct (listdir (w_fs w) p).
Qed.

Lemma reads_stat (p : string) : reads (stat_size (FS := FS) p).
Proof.
  apply reads_same. intros w. unfold stat_size.
  now destruct (getsize (w_fs w) p).
Qed.

Lemma reads_makedirs (p : string) : reads (os_makedirs (FS := FS) p).
Proof.
  apply reads_same. intros w. unfold os_makedirs.
  now destruct (makedirs (w_fs w) p).
Qed.

Lemma reads_bind {A B} (m : M FS A) (k : A -> M FS B) :
  reads m -> (forall a, reads (k a)) -> reads (bind m k).
Proof.
  intros Hm Hk w. unfold bind. destruct (Hm w) as [used1 H1].
  destruct (m w) as [[a|e] w1]; cbn [snd] in *.
  - destruct (Hk a w1) as [used2 H2]. exists (used1 ++ used2).
    now rewrite H1, H2, app_assoc.
  - now exists used1.
Qed.

Lemma ask_loop_rest {A} (q : msg) (body : string -> A + msg)
      (script : list key) :
  exists used, script = used ++ snd (fst (ask_loop q body script)).
Proof.
  induction script as [|[l|] script IH]; cbn [ask_loop].
  - now exists [].
  - destruct (body l) as [a|complaint].
    + now exists [Line l].
    + destruct (ask_loop q body script) as [[r rest] evs].
      cbn [fst snd] in *. destruct IH as [used ->].
      now exists (Line l :: used).
  - now exists [CtrlC].
Qed.

Lemma reads_ask {A} (q : msg) (body : string -> A + msg) :
  reads (ask (FS := FS) q body).
Proof.
  intros w. unfold ask.
  destruct (ask_loop_rest q body (w_stdin w)) as [used Hused].
  destruct (ask_loop q body (w_stdin w)) as [[r rest] evs].
  now exists used.
Qed.

Lemma reads_table_rows (numbered : list (nat * string)) :
  reads (Ppt2pdf.table_rows (FS := FS) numbered).
Proof.
  induction numbered as [|[i file] rest IH]; cbn.
  - apply reads_ret.
  - apply reads_bind; [apply reads_stat|]. intros size.
    apply reads_bind; [exact IH|]. intros rows. apply reads_ret.
Qed.

Lemma reads_select_ppt_files (files : list string) :
  reads (Ppt2pdf.select_ppt_files (FS := FS) files).
Proof.
  destruct files as [|file files]; cbn.
  - apply reads_bind; [apply reads_print|]. intros _. apply reads_ret.
  - apply reads_bind.
    { apply (reads_table_rows ((1, file) :: Ppt2pdf.enumerate files 2)). }
    intros rows. apply reads_bind; [apply reads_print|]. intros _.
    apply reads_ask.
Qed.

(** The line that made [ask] return was typed. *)
Lemma ask_accepts {A} (q : msg) (body : string -> A + msg)
      (w w' : world FS) (a : A) :
  ask q body w = (Ret a, w') ->
  exists l, In (Line l) (w_stdin w) /\ body l = inl a.
Proof.
  unfold ask. generalize (w_stdin w) as script. intros script. revert w'.
  induction script as [|[l|] script IH]; intros w'; cbn [ask_loop].
  - discriminate.
  - destruct (body l) as [a'|complaint] eqn:Hb.
    + intros [= <- _]. exists l. split; [now left | exact Hb].
    + destruct (ask_loop q body script) as [[r rest] evs] eqn:Hloop.
      intros [= -> _].
      destruct (IH (typed_away w rest evs) eq_refl) as (l' & Hin & Hl').
      exists l'. split; [now right | exact Hl'].
  - discriminate.
Qed.

Lemma confirm_yes (q : msg) (w w' : world FS) :
  Confirm_ask q None w = (Ret true, w') -> said_yes (w_stdin w).
Proof.
  intros Hask. destruct (ask_accepts _ _ _ _ _ Hask) as (l & Hin & Hl).
  exists l. split; [exact Hin|]. cbn beta iota zeta in Hl.
  destruct (String.eqb_spec (lower (strip l)) "y") as [Hy|_]; [exact Hy|].
  destruct (String.eqb (lower (strip l)) "n"); discriminate.
Qed.

Lemma confirm_accepted (q : msg) (w w' : world FS) :
  Confirm_ask q (Some true) w = (Ret true, w') -> accepted (w_stdin w).
Proof.
  intros Hask. destruct (ask_accepts _ _ _ _ _ Hask) as (l & Hin & Hl).
  exists l. split; [exact Hin|]. cbn beta iota zeta in Hl.
  destruct (String.eqb_spec l "") as [He|_]; [now left|]. right.
  destruct (String.eqb_spec (lower (strip l)) "y") as [Hy|_]; [exact Hy|].
  destruct (String.eqb (lower (strip l)) "n"); discriminate.
Qed.

(** *** Steps that stay within [S] unless [Q] was typed *)

Lemma unless_of_trace {A} (Q : list key -> Prop) (S : event -> Prop)
      (m : M FS A) :
  trace_sat (Forall S) m -> unless Q S m.
Proof.
  intros Hm w. destruct (Hm w) as (evs & Ht & HS). exists evs. auto.
Qed.

Lemma unless_bind {A B} (Q : list key -> Prop) (S : event -> Prop)
      (m : M FS A) (k : A -> M FS B) :
  (forall used rest, Q rest -> Q (used ++ rest)) ->
  trace_sat (Forall S) m -> reads m ->
  (forall a, unless Q S (k a)) ->
  unless Q S (bind m k).
Proof.
  intros Hmono Hm Hr Hk w. unfold bind.
  destruct (Hm w) as (evs1 & Ht1 & HS1). destruct (Hr w) as [used Hu].
  destruct (m w) as [[a|e] w1]; cbn [snd] in *.
  - destruct (Hk a w1) as (evs2 & Ht2 & [HS2|HQ]).
    + exists (evs1 ++ evs2). rewrite Ht2, Ht1, app_assoc.
      split; [reflexivity|]. left. now apply Forall_app.
    + exists (evs1 ++ evs2). rewrite Ht2, Ht1, app_assoc.
      split; [reflexivity|]. right. rewrite Hu. now apply Hmono.
  - exists evs1. auto.
Qed.

(** The confirmation, followed by steps that stay within [S] after a
    no. *)
Lemma unless_confirm {B} (Q : list key -> Prop) (S : event -> Prop)
      (q : msg) (default : option bool) (k : bool -> M FS B) :
  S (Print q) -> S (Print InvalidYesNo) ->
  (forall w w' : world FS,
      Confirm_ask q default w = (Ret true, w') -> Q (w_stdin w)) ->
  trace_sat (Forall (fun _ => True)) (k true) ->
  trace_sat (Forall S) (k false) ->
  unless Q S (bind (Confirm_ask q default) k).
Proof.
  intros Hq Hc Hyes Htail Hno w. unfold bind.
  destruct (emits_only_Confirm_ask S q default Hq Hc w)
    as (evs1 & Ht1 & HS1 & _).
  destruct (Confirm_ask q default w) as [[[|]|e] w1] eqn:Hask;
    cbn [snd] in *.
  - destruct (Htail w1) as (evs2 & Ht2 & _).
    exists (evs1 ++ evs2). rewrite Ht2, Ht1, app_assoc.
    split; [reflexivity|]. right. eapply Hyes; eauto.
  - destruct (Hno w1) as (evs2 & Ht2 & HS2).
    exists (evs1 ++ evs2). rewrite Ht2, Ht1, app_assoc.
    split; [reflexivity|]. left. now apply Forall_app.
  - exists evs1. auto.
Qed.

Lemma said_yes_later (used rest : list key) :
  said_yes rest -> said_yes (used ++ rest).
Proof.
  intros (l & Hin & Hl). exists l. split; [|exact Hl].
  apply in_or_app. now right.
Qed.

Lemma accepted_later (used rest : list key) :
  accepted rest -> accepted (used ++ rest).
Proof.
  intros (l & Hin & Hl). exists l. split; [|exact Hl].
  apply in_or_app. now right.
Qed.

Lemma ppt2pdf_main_consent :
  unless said_yes printed (Ppt2pdf.main (FS := FS) E).
Proof.
  assert (Hstep : forall A (m : M FS A),
             emits_only printed m -> trace_sat (Forall printed) m)
    by (intros; now apply trace_sat_of_emits).
  assert (Hany : forall A (m : M FS A),
             emits_only (fun _ => True) m ->
             trace_sat (Forall (fun _ => True)) m)
    by (intros; now apply trace_sat_of_emits).
  unfold Ppt2pdf.main.
  apply unless_bind; [exact said_yes_later| | |intros _].
  { now apply Hstep, emits_only_print. }
  { apply reads_print. }
  apply unless_bind; [exact said_yes_later| | |intros current_dir].
  { now apply Hstep, emits_only_ask. }
  { apply reads_ask. }
  apply unless_bind; [exact said_yes_later| | |intros [|f fs]].
  { apply Hstep, get_ppt_files_console. }
  { now apply reads_same. }
  { apply unless_of_trace. now apply Hstep, emits_only_print. }
  apply unless_bind; [exact said_yes_later| | |intros [|s ss]].
  { apply Hstep, select_ppt_files_console. }
  { apply reads_select_ppt_files. }
  { apply unless_of_trace, Hstep, emits_only_ret. }
  apply unless_bind; [exact said_yes_later| | |intros _].
  { now apply Hstep, emits_only_print. }
  { apply reads_print. }
  apply unless_confirm; try exact I.
  - apply confirm_yes.
  - cbn [negb].
    apply PptRunFacts.trace_sat_forall_bind; [|intros output_dir].
    { now apply Hany, emits_only_ask. }
    apply PptRunFacts.trace_sat_forall_bind; [|intros _].
    { now apply trace_sat_makedirs. }
    apply PptRunFacts.trace_sat_forall_bind; [|intros _].
    { apply Hany, convert_each_emits; auto. }
    now apply Hany, emits_only_print.
  - cbn [negb]. now apply Hstep, emits_only_print.
Qed.

Lemma mkpdf_main_consent :
  unless accepted (fun ev => forall argv, ev <> Run argv)
         (Mkpdf.main (FS := FS) E).
Proof.
  set (S := fun ev : event => forall argv, ev <> Run argv).
  assert (Hstep : forall A (m : M FS A),
             emits_only S m -> trace_sat (Forall S) m)
    by (intros; now apply trace_sat_of_emits).
  assert (HS : forall m, S (Print m)) by discriminate.
  unfold Mkpdf.main.
  apply unless_bind; [exact accepted_later| | |intros _].
  { apply Hstep, emits_only_print, HS. }
  { apply reads_print. }
  apply unless_bind; [exact accepted_later| | |intros input_dir].
  { apply Hstep, emits_only_ask, HS. }
  { apply reads_ask. }
  apply unless_bind; [exact accepted_later| | |intros _].
  { apply Hstep, emits_only_print, HS. }
  { apply reads_print. }
  apply unless_bind; [exact accepted_later| | |intros choice].
  { apply Hstep, emits_only_ask, HS. }
  { apply reads_ask. }
  apply unless_bind; [exact accepted_later| | |intros fmt].
  { apply Hstep. destruct (Mkpdf.getitem _ _);
      [apply emits_only_ret | apply emits_only_raise]. }
  { destruct (Mkpdf.getitem _ _); [apply reads_ret | apply reads_raise]. }
  apply unless_bind; [exact accepted_later| | |intros fmt'].
  { apply Hstep. destruct (String.eqb choice "4"); [|apply emits_only_ret].
    apply emits_only_bind; [|intros x; apply emits_only_ret].
    apply emits_only_ask, HS. }
  { destruct (String.eqb choice "4"); [|apply reads_ret].
    apply reads_bind; [apply reads_ask|]. intros x. apply reads_ret. }
  apply unless_bind; [exact accepted_later| | |intros output_dir].
  { apply Hstep, emits_only_ask, HS. }
  { apply reads_ask. }
  apply unless_bind; [exact accepted_later| | |intros _].
  { apply trace_sat_makedirs. discriminate. }
  { apply reads_makedirs. }
  unfold Mkpdf.find_and_convert, Mkpdf.list_target_files.
  apply unless_bind; [exact accepted_later| | |intros [|file files]].
  { apply Hstep. apply emits_only_bind; [apply emits_only_listdir|].
    intros listing. apply emits_only_ret. }
  { apply reads_bind; [apply reads_listdir|]. intros listing.
    apply reads_ret. }
  { apply unless_of_trace, Hstep, emits_only_print, HS. }
  apply unless_bind; [exact accepted_later| | |intros _].
  { apply Hstep, emits_only_print, HS. }
  { apply reads_print. }
  apply unless_confirm; try apply HS.
  - apply confirm_accepted.
  - apply trace_sat_of_emits.
    apply emits_only_bind; [|intros k; now apply emits_only_print].
    now apply convert_all_emits.
  - apply Hstep, emits_only_print, HS.
Qed.

(** *** What is converted *)

Lemma concerns_more (files files' : list string) (ev : event) :
  incl files files' -> concerns E files ev -> concerns E files' ev.
Proof.
  intros Hincl. destruct ev as [m|p|argv|a c]; cbn; auto.
  intros (file & d & Hin & Hcall). exists file, d. auto.
Qed.

Lemma convert_each_concerns (d : string) (n : nat)
      (numbered : list (nat * string)) :
  emits_only (concerns E (map snd numbered))
             (Ppt2pdf.convert_each (FS := FS) E d n numbered).
Proof.
  apply convert_each_emits_for; try exact I; try (intros; exact I).
  intros app c file Hin Hcall. cbn. now exists file, d.
Qed.

Lemma sorted_in {A} (key : A -> string) (l : list A) (x : A) :
  In x (sorted key l) -> In x l.
Proof.
  apply Permutation_in. apply OrderFacts.sorted_perm.
Qed.

(** What [main] of [ppt2pdf] does with a selection that is not empty. *)
Lemma selected_concerns (current_dir : string)
      (chosen : list Ppt2pdf.Path) :
  trace_sat
    (Forall (concerns E chosen))
    (print (FS := FS)
           (PptSelected
              (Ppt2pdf.enumerate (map Ppt2pdf.path_name chosen) 1)) ;;
     go <- Confirm_ask PptAskConfirm None ;;
     if negb go then print PptCancelled
     else
       output_dir <-
         Prompt_ask PptAskOutputDir
                    (Some (Ppt2pdf.truediv current_dir "PDF输出")) ;;
       os_makedirs output_dir ;;
       Ppt2pdf.convert_each E output_dir (List.length chosen)
                            (Ppt2pdf.enumerate chosen 1) ;;
       print (PptDone output_dir)).
Proof.
  assert (Hstep : forall A (m : M FS A),
             emits_only printed m ->
             trace_sat (Forall (concerns E chosen)) m).
  { intros A m Hm. eapply trace_sat_weaken; [|apply trace_sat_of_emits, Hm].
    intros evs. apply Forall_impl.
    intros [m0|p|argv|a c]; cbn; tauto. }
  apply PptRunFacts.trace_sat_forall_bind; [|intros _].
  { now apply Hstep, emits_only_print. }
  apply PptRunFacts.trace_sat_forall_bind; [|intros [|]]; cbn [negb].
  { now apply Hstep, emits_only_ask. }
  2:{ now apply Hstep, emits_only_print. }
  apply PptRunFacts.trace_sat_forall_bind; [|intros output_dir].
  { now apply Hstep, emits_only_ask. }
  apply PptRunFacts.trace_sat_forall_bind; [|intros _].
  { now apply trace_sat_makedirs. }
  apply PptRunFacts.trace_sat_forall_bind; [|intros _].
  { apply trace_sat_of_emits.
    rewrite <- (SelectFacts.enumerate_snd chosen 1) at 1.
    apply convert_each_concerns. }
  now apply Hstep, emits_only_print.
Qed.

Lemma ppt2pdf_main_concerns (w : world FS) (l : string)
      (rest : list key) :
  w_stdin w = Line l :: rest ->
  let directory := if String.eqb l "" then e_cwd E else strip l in
  exists evs,
    w_trace (snd (Ppt2pdf.main E w)) = w_trace w ++ evs /\
    Forall (concerns E (Ppt2pdf.glob_pptx (w_fs w) directory)) evs.
Proof.
  intros Hin directory.
  assert (Hpr : forall files evs,
             Forall printed evs -> Forall (concerns E files) evs).
  { intros files evs. apply Forall_impl.
    intros [m|p|argv|a c]; cbn; tauto. }
  unfold Ppt2pdf.main. unfold bind at 1. cbn [print emit emits].
  unfold bind at 1.
  match goal with
  | |- context [Prompt_ask PptAskDir ?d ?w0] =>
      assert (Hp : Prompt_ask PptAskDir d w0
                   = (Ret directory, typed_away w0 rest [Print PptAskDir]))
        by (unfold Prompt_ask;
            rewrite (SelectFacts.ask_line _ _ w0 l rest Hin);
            reflexivity);
      rewrite Hp;
      assert (Ht1 : w_trace (typed_away w0 rest [Print PptAskDir])
                    = w_trace w ++ [Print PptBanner; Print PptAskDir])
        by (cbn; now rewrite <- app_assoc);
      assert (Hf1 : w_fs (typed_away w0 rest [Print PptAskDir]) = w_fs w)
        by reflexivity;
      generalize dependent (typed_away w0 rest [Print PptAskDir])
  end.
  intros w1 _ Ht1 Hf1.
  unfold bind at 1. unfold Ppt2pdf.get_ppt_files at 1.
  rewrite Hf1.
  destruct (sorted Ppt2pdf.path_key
              (Ppt2pdf.glob_pptx (w_fs w) directory))
    as [|f0 fs0] eqn:Hfiles.
  { exists ([Print PptBanner; Print PptAskDir]
              ++ [Print (PptNoneIn directory)]).
    cbn [print emit emits snd w_trace]. rewrite Ht1, <- !app_assoc.
    split; [reflexivity|]. apply Hpr. repeat constructor. }
  assert (Hlisted : incl (f0 :: fs0)
                         (Ppt2pdf.glob_pptx (w_fs w) directory)).
  { intros x Hx. rewrite <- Hfiles in Hx. now apply sorted_in in Hx. }
  unfold bind at 1.
  destruct (select_ppt_files_console (FS := FS) (f0 :: fs0) w1)
    as (evs2 & Ht2 & Hp2 & _).
  pose proof (ChoiceFacts.select_ppt_files_returns (FS := FS) (f0 :: fs0) w1)
    as Hret.
  destruct (Ppt2pdf.select_ppt_files (f0 :: fs0) w1)
    as [[chosen|e] w2]; cbn [snd] in *.
  2:{ exists ([Print PptBanner; Print PptAskDir] ++ evs2).
      rewrite Ht2, Ht1, <- !app_assoc. split; [reflexivity|].
      apply Hpr. apply Forall_app. split; [repeat constructor | exact Hp2]. }
  destruct (Hret chosen w2 eq_refl) as [Hincl _].
  assert (Hfin : forall evs3,
             Forall (concerns E chosen) evs3 ->
             Forall (concerns E (Ppt2pdf.glob_pptx (w_fs w) directory))
                    ([Print PptBanner; Print PptAskDir] ++ evs2 ++ evs3)).
  { intros evs3 Hc3.
    apply Forall_app. split; [apply Hpr; repeat constructor|].
    apply Forall_app. split; [now apply Hpr|].
    eapply Forall_impl; [|exact Hc3].
    intros ev. apply concerns_more.
    intros x Hx. apply Hlisted, Hincl, Hx. }
  destruct chosen as [|s ss].
  - exists ([Print PptBanner; Print PptAskDir] ++ evs2 ++ []).
    cbn [ret snd]. split; [|apply Hfin; constructor].
    rewrite Ht2, Ht1, app_nil_r, <- !app_assoc. reflexivity.
  - destruct (selected_concerns directory (s :: ss) w2)
      as (evs3 & Ht3 & Hc3).
    exists ([Print PptBanner; Print PptAskDir] ++ evs2 ++ evs3).
    split; [|apply Hfin, Hc3].
    rewrite Ht3, Ht2, Ht1, <- !app_assoc. reflexivity.
Qed.

(** *** What [mkpdf] converts *)

Lemma ends_sat_after {A B} (S : event -> Prop)
      (R : world FS -> list event -> Prop)
      (m : M FS A) (k : A -> M FS B) :
  (forall w pre, Forall S pre -> R w pre) ->
  (forall w pre evs, Forall S pre -> R w evs -> R w (pre ++ evs)) ->
  trace_sat (Forall S) m ->
  (forall a, ends_sat R (k a)) ->
  ends_sat R (bind m k).
Proof.
  intros Hpre Hcat Hm Hk w. unfold bind.
  destruct (Hm w) as (evs1 & Ht1 & HS).
  destruct (m w) as [[a|e] w1]; cbn [snd] in *.
  - destruct (Hk a w1) as (evs2 & Ht2 & HR).
    exists (evs1 ++ evs2). rewrite Ht2, Ht1, app_assoc. auto.
  - exists evs1. auto.
Qed.

Lemma find_and_convert_converts (input_dir output_dir : string)
      (fmt : Mkpdf.format) :
  ends_sat (fun w' evs =>
              Forall (converts input_dir output_dir
                               (entries (w_fs w') input_dir)) evs)
           (Mkpdf.find_and_convert (FS := FS) E input_dir output_dir fmt).
Proof.
  intros w.
  assert (Hk : forall names target_files,
             incl target_files names ->
             emits_only
               (converts input_dir output_dir names)
               (match target_files with
                | [] => print (FS := FS) (MdNoneFound (Mkpdf.name fmt))
                | _ :: _ =>
                    print (MdFound (List.length target_files)
                                   (Mkpdf.name fmt)) ;;
                    go <- Confirm_ask MdAskStart (Some true) ;;
                    if go : bool then
                      success_count <-
                        Mkpdf.convert_all E input_dir output_dir
                                          target_files 0 ;;
                      print (MdSummary success_count
                                       (List.length target_files))
                    else print MdCancelled
                end)).
  { intros names target_files Hincl.
    destruct target_files as [|file files] eqn:Htarget;
      [now apply emits_only_print|].
    rewrite <- Htarget in *.
    apply emits_only_bind; [now apply emits_only_print|]. intros _.
    apply emits_only_bind; [now apply emits_only_ask|]. intros [|].
    - apply emits_only_bind; [|intros n; now apply emits_only_print].
      apply convert_all_emits_for; try (intros; exact I).
      intros f Hin. cbn. exists f. eexists.
      split; [now apply Hincl|].
      split; [apply PathFacts.output_path_lies_in | reflexivity].
    - now apply emits_only_print. }
  assert (Hlist : snd (Mkpdf.list_target_files
                          input_dir (Mkpdf.ext fmt) w) = w /\
                  forall target_files,
                    fst (Mkpdf.list_target_files
                           input_dir (Mkpdf.ext fmt) w) = Ret target_files ->
                    incl target_files (entries (w_fs w) input_dir)).
  { unfold Mkpdf.list_target_files, bind, os_listdir, entries.
    destruct (listdir (w_fs w) input_dir) as [names|]; cbn.
    - split; [reflexivity|]. intros target_files [= <-].
      apply incl_filter.
    - split; [reflexivity | discriminate]. }
  destruct Hlist as [Hsame Hincl].
  unfold Mkpdf.find_and_convert.
  change (bind ?m ?k w)
    with (match m w with
          | (Ret a, w') => k a w'
          | (Raise e, w') => (Raise e, w')
          end).
  destruct (Mkpdf.list_target_files input_dir (Mkpdf.ext fmt) w)
    as [[target_files|e] w1]; cbn [fst snd] in *; subst w1.
  - destruct (Hk _ target_files (Hincl _ eq_refl) w)
      as (evs & Ht & Hc & Hf).
    exists evs. split; [exact Ht|].
    match goal with
    | |- Forall (converts _ _ (entries ?f _)) _ =>
        replace f with (w_fs w) by (symmetry; exact Hf)
    end.
    exact Hc.
  - exists []. cbn [snd]. rewrite app_nil_r.
    split; [reflexivity | constructor].
Qed.

Lemma mkpdf_main_converts (w : world FS) (l : string) (rest : list key) :
  w_stdin w = Line l :: rest ->
  let input_dir := if String.eqb l "" then e_script_dir E else strip l in
  exists evs output_dir,
    w_trace (snd (Mkpdf.main E w)) = w_trace w ++ evs /\
    Forall (converts input_dir output_dir
                     (entries (w_fs (snd (Mkpdf.main E w))) input_dir)) evs /\
    (runs_of evs = [] \/ In (Makedirs output_dir) evs).
Proof.
  intros Hin input_dir.
  set (S := fun ev : event =>
              match ev with Print _ => True | _ => False end).
  set (R := fun (w' : world FS) evs =>
              exists output_dir,
                Forall (converts input_dir output_dir
                                 (entries (w_fs w') input_dir)) evs /\
                (runs_of evs = [] \/ In (Makedirs output_dir) evs)).
  assert (HSc : forall output_dir names ev,
             S ev -> converts input_dir output_dir names ev).
  { intros output_dir names [m|p|argv|a c]; cbn; tauto. }
  assert (HSr : forall pre, Forall S pre -> runs_of pre = []).
  { intros pre Hall. apply MdRunFacts.runs_of_none.
    eapply Forall_impl; [|exact Hall].
    intros [m|p|argv|a c]; cbn; try contradiction; discriminate. }
  assert (Hpre : forall w0 pre, Forall S pre -> R w0 pre).
  { intros w0 pre Hall. exists "". split; [|left; now apply HSr].
    eapply Forall_impl; [|exact Hall]. intros ev. apply HSc. }
  assert (Hcat : forall w0 pre evs,
             Forall S pre -> R w0 evs -> R w0 (pre ++ evs)).
  { intros w0 pre evs Hall (output_dir & Hevs & Hmk).
    exists output_dir. split.
    - apply Forall_app. split; [|exact Hevs].
      eapply Forall_impl; [|exact Hall]. intros ev. apply HSc.
    - destruct Hmk as [Hruns|Hmk].
      + left. now rewrite MdRunFacts.runs_of_app, (HSr pre Hall).
      + right. apply in_or_app. now right. }
  assert (Hstep : forall A (m : M FS A),
             emits_only S m -> trace_sat (Forall S) m)
    by (intros; now apply trace_sat_of_emits).
  assert (HS : forall m, S (Print m)) by (intros m; exact I).
  unfold Mkpdf.main.
  match goal with
  | |- context [bind (Prompt_ask MdAskInputDir ?d) ?K] => set (k := K)
  end.
  set (w1 := typed_away (snd (print MdBanner w)) rest
                        [Print MdAskInputDir]).
  assert (Hrun : bind (print MdBanner)
                      (fun _ => bind (Prompt_ask MdAskInputDir
                                                 (Some (e_script_dir E))) k) w
                 = k input_dir w1).
  { unfold bind at 1. cbn [print emit emits]. unfold bind at 1.
    unfold Prompt_ask.
    match goal with
    | |- context [ask ?q ?b ?w0] =>
        rewrite (SelectFacts.ask_line q b w0 l rest Hin)
    end.
    reflexivity. }
  rewrite Hrun.
  assert (Hrest : ends_sat R (k input_dir)).
  { unfold k.
    apply (ends_sat_after S); [exact Hpre|exact Hcat| |intros _].
    { apply Hstep, emits_only_print, HS. }
    apply (ends_sat_after S); [exact Hpre|exact Hcat| |intros choice].
    { apply Hstep, emits_only_ask, HS. }
    apply (ends_sat_after S); [exact Hpre|exact Hcat| |intros fmt].
    { apply Hstep. destruct (Mkpdf.getitem _ _);
        [apply emits_only_ret | apply emits_only_raise]. }
    apply (ends_sat_after S); [exact Hpre|exact Hcat| |intros fmt'].
    { apply Hstep. destruct (String.eqb choice "4"); [|apply emits_only_ret].
      apply emits_only_bind; [|intros x; apply emits_only_ret].
      apply emits_only_ask, HS. }
    apply (ends_sat_after S); [exact Hpre|exact Hcat| |intros output_dir].
    { apply Hstep, emits_only_ask, HS. }
    intros w0. unfold bind, os_makedirs.
    destruct (makedirs (w_fs w0) output_dir) as [f'|].
    - match goal with
      | |- context [Mkpdf.find_and_convert E input_dir output_dir fmt' ?w2] =>
          destruct (find_and_convert_converts input_dir output_dir fmt' w2)
            as (evs & Ht & Hc)
      end.
      cbn [w_trace] in Ht. exists (Makedirs output_dir :: evs).
      split; [rewrite Ht, <- app_assoc; reflexivity|].
      exists output_dir. split; [|right; now left].
      constructor; [exact I | exact Hc].
    - exists []. cbn [snd]. rewrite app_nil_r. split; [reflexivity|].
      exists output_dir. split; [constructor | now left]. }
  destruct (Hrest w1) as (evs & Ht & output_dir & Hc & Hmk).
  exists ([Print MdBanner; Print MdAskInputDir] ++ evs), output_dir.
  split; [|split].
  - rewrite Ht. unfold w1. cbn. now rewrite <- !app_assoc.
  - apply Forall_app. split; [|exact Hc]. repeat constructor.
  - destruct Hmk as [Hruns|Hmk]; [left; exact Hruns|].
    right. apply in_or_app. now right.
Qed.

End Consent.
End ConsentFacts.

(* ================================================================== *)
(** ** The claims *)

Import Py PosixPath Rt Spec TreeFS.

(** C1 (as the code has it).  In [mkpdf] a converter failure that is an
    [Exception] -- a non-zero exit status, a command that cannot be
    started -- is caught inside [convert_file_to_md]: whatever the
    converter does, every target file is handed to it, in order, and the
    count returned is the number of files it handled with status 0.  In
    [ppt2pdf] a failure to start the application, to open the document or
    to export it is raised again by [convert_pptx_to_pdf], and the loop
    over the selected files ends with the first file whose conversion
    raises. *)
Theorem batch_failure_handling :
  forall (FS : Type) (HFS : FileSystem FS) (E : env),
    (forall (input_dir output_dir : string) (files : list string)
            (c : nat) (w : world FS),
        (forall n argv, e_proc E n argv <> Interrupted) ->
        exists evs w',
          Mkpdf.convert_all E input_dir output_dir files c w
          = (Ret (c + successes E input_dir output_dir (w_nproc w) files), w')
          /\ w_trace w' = w_trace w ++ evs
          /\ runs_of evs = map (argv_for input_dir output_dir) files) /\
    (forall (output_dir : string) (file_count i : nat) (pptx_file : string)
            (rest : list (nat * string)) (w w1 : world FS) (e : exn),
        Ppt2pdf.convert_pptx_to_pdf
          E pptx_file output_dir
          (snd (print (PptProgress i file_count
                                   (Ppt2pdf.path_name pptx_file)) w))
        = (Raise e, w1) ->
        Ppt2pdf.convert_each E output_dir file_count
                             ((i, pptx_file) :: rest) w
        = (Raise e, w1)) /\
    (forall (pptx_path output_folder : string) (w : world FS) (e : exn),
        conversion_fails
          E (w_napp w) (e_resolve E pptx_path)
          (Ppt2pdf.truediv (e_resolve E output_folder)
                           (Ppt2pdf.stem (e_resolve E pptx_path) ++ ".pdf"))
          e ->
        fst (Ppt2pdf.convert_pptx_to_pdf E pptx_path output_folder w)
        = Raise e).
Proof.
  intros FS HFS E. split; [|split].
  - intros input_dir output_dir files c w Hni.
    destruct (BatchFacts.convert_all_never_aborts E input_dir output_dir
                files Hni c w) as (evs & w' & Hall & Ht & _ & Hruns).
    now exists evs, w'.
  - intros output_dir file_count i pptx_file rest w w1 e Hfail.
    cbn [Ppt2pdf.convert_each]. unfold bind at 1. cbn [print emit emits].
    cbn [print emit emits snd] in Hfail.
    unfold bind at 1. now rewrite Hfail.
  - intros pptx_path output_folder w e.
    apply BatchFacts.convert_pptx_to_pdf_raises.
Qed.

(** With the first command exiting with status 1, both documents are
    still handed to the converter; with the first export failing, the
    loop over two presentations raises. *)
Lemma batch_failure_handling_witness :
  (exists evs w',
      Mkpdf.convert_all flaky "docs" "out" ["b.pdf"; "c.docx"] 0
                        (initial sample [])
      = (Ret (0 + successes flaky "docs" "out" 0 ["b.pdf"; "c.docx"]), w')
      /\ w_trace w' = [] ++ evs
      /\ runs_of evs = map (argv_for "docs" "out") ["b.pdf"; "c.docx"]) /\
  (exists w1,
      Ppt2pdf.convert_each flaky "out" 2
                           [(1, "docs/a.pptx"); (2, "docs/B.pptx")]
                           (initial sample [])
      = (Raise (COMError 5), w1)) /\
  fst (Ppt2pdf.convert_pptx_to_pdf flaky "docs/a.pptx" "out"
                                   (initial sample []))
  = Raise (COMError 5).
Proof.
  destruct (batch_failure_handling node _ flaky) as (Hmd & Hppt & Hone).
  split; [|split].
  - apply (Hmd "docs" "out" ["b.pdf"; "c.docx"] 0 (initial sample [])).
    intros n argv. cbn. destruct (Nat.eqb n 0); discriminate.
  - eexists. apply Hppt. reflexivity.
  - apply Hone. right. right. cbn. auto.
Defined.

(** C1, as stated, fails for [ppt2pdf]: with two files selected and the
    export of the first one failing, no application is started for the
    second file and the program ends with the exception. *)
Lemma ppt2pdf_batch_stops_at_first_failure :
  In (Print (PptSelected [(1, "a.pptx"); (2, "B.pptx")]))
     (w_trace (snd Scenario.failing_export)) /\
  apps_of (w_trace (snd Scenario.failing_export)) = [0] /\
  ~ In (Print (PptProgress 2 2 "B.pptx"))
       (w_trace (snd Scenario.failing_export)) /\
  traceback (fst Scenario.failing_export) = Some (COMError 5).
Proof.
  vm_compute. repeat split; try tauto.
  intros H. repeat (destruct H as [H|H]; [discriminate|]). exact H.
Qed.




(** The scenario of the specification: with [a.pdf], [b.docx] and
    [c.pdf] listed in that order, the PDF format gives [a.pdf], [c.pdf]. *)
Example pdf_only_scenario :
  Mkpdf.target_files_of (map lower [".pdf"]) ["a.pdf"; "b.docx"; "c.pdf"]
  = ["a.pdf"; "c.pdf"].
Proof. reflexivity. Qed.

(** The two presentations of the sample directory can be looked at. *)
Lemma sample_presentations_exist :
  all_stat sample ["docs/a.pptx"; "docs/B.pptx"].
Proof. repeat constructor; discriminate. Qed.

(** C3 (as the code has it).  With candidates to choose from, the answer
    [0] selects all of them, in their order.  The answer [all] is not
    understood: it is refused as malformed and the question is asked
    again. *)
Theorem select_everything_with_zero :
  forall (FS : Type) (HFS : FileSystem FS) (U : Unicode)
         (files : list Ppt2pdf.Path)
         (w : world FS) (l : string) (rest : list key),
    files <> [] ->
    all_stat (w_fs w) files ->
    w_stdin w = Line l :: rest ->
    exists rows,
      (strip l = "0"%string ->
       Ppt2pdf.select_ppt_files files w
       = (Ret files,
          typed_away w rest [Print (PptTable rows); Print PptAskSelection]))
      /\
      (strip l = "all"%string ->
       Ppt2pdf.select_ppt_files files w
       = ask PptAskSelection
             (fun l' => Ppt2pdf.select_round files (strip l'))
             (typed_away w rest [Print (PptTable rows); Print PptAskSelection;
                                 Print PptFormatError])).
Proof.
  intros FS HFS U files w l rest Hne Hstat Hin.
  destruct (SelectFacts.select_ppt_files_asks files w Hne Hstat)
    as [rows Hsel].
  exists rows. rewrite Hsel.
  rewrite (SelectFacts.ask_line _ _ _ l rest) by exact Hin.
  split; intros ->.
  - change (Ppt2pdf.select_round files "0") with (@inl _ msg files).
    unfold typed_away. cbn. now rewrite <- app_assoc.
  - change (Ppt2pdf.select_round files "all")
      with (@inr (list Ppt2pdf.Path) _ PptFormatError).
    unfold typed_away. cbn. now rewrite <- !app_assoc.
Qed.

(** The answer [0], typed with a space in front, selects both
    presentations and leaves the next line unread. *)
Lemma select_everything_with_zero_witness :
  exists rows,
    Ppt2pdf.select_ppt_files ["docs/a.pptx"; "docs/B.pptx"]
                             (initial sample [Line " 0"; Line "y"])
    = (Ret ["docs/a.pptx"; "docs/B.pptx"],
       typed_away (initial sample [Line " 0"; Line "y"]) [Line "y"]
                  [Print (PptTable rows); Print PptAskSelection]).
Proof.
  destruct (select_everything_with_zero
              node _ _ ["docs/a.pptx"; "docs/B.pptx"]
              (initial sample [Line " 0"; Line "y"]) " 0" [Line "y"]
              ltac:(discriminate) sample_presentations_exist eq_refl)
    as [rows [Hzero _]].
  exists rows. apply Hzero. reflexivity.
Defined.

(** C3, as stated, fails for [all]: the selector complains about the
    format and asks again; what it returns is decided by the next
    answer. *)
Lemma all_is_not_understood :
  fst (Ppt2pdf.select_ppt_files ["docs/a.pptx"; "docs/B.pptx"]
                                (initial sample [Line "all"; Line "2"]))
  = Ret ["docs/B.pptx"] /\
  w_trace (snd (Ppt2pdf.select_ppt_files
                  ["docs/a.pptx"; "docs/B.pptx"]
                  (initial sample [Line "all"; Line "2"])))
  = [Print (PptTable [(1, "a.pptx", 7%Z); (2, "B.pptx", 5%Z)]);
     Print PptAskSelection; Print PptFormatError; Print PptAskSelection].
Proof. split; reflexivity. Qed.

(** C4.  With candidates to choose from, an answer other than the
    select-all answer (the one whose lower-cased form is [0], which line
    61 tests before any number is read) whose comma-separated fields are
    integers is read as 1-based numbers: numbers outside [1, N] are
    dropped, and the candidates with the remaining numbers are returned in
    the order typed, repeats included; when nothing remains, the complaint
    is printed and the question is asked again. *)
Theorem select_by_numbers :
  forall (FS : Type) (HFS : FileSystem FS) (U : Unicode)
         (files : list Ppt2pdf.Path)
         (w : world FS) (l : string) (rest : list key) (typed : list Z),
    files <> [] ->
    all_stat (w_fs w) files ->
    w_stdin w = Line l :: rest ->
    lower (strip l) <> "0"%string ->
    reads_as (strip l) typed ->
    exists rows,
      match selection_of files typed with
      | [] =>
          Ppt2pdf.select_ppt_files files w
          = ask PptAskSelection
                (fun l' => Ppt2pdf.select_round files (strip l'))
                (typed_away w rest [Print (PptTable rows);
                                    Print PptAskSelection;
                                    Print PptNoValidSelection])
      | chosen =>
          Ppt2pdf.select_ppt_files files w
          = (Ret chosen,
             typed_away w rest [Print (PptTable rows); Print PptAskSelection])
      end.
Proof.
  intros FS HFS U files w l rest typed Hne Hstat Hin Hzero Hreads.
  destruct (SelectFacts.select_ppt_files_asks files w Hne Hstat)
    as [rows Hsel].
  exists rows. rewrite Hsel.
  rewrite (SelectFacts.ask_line _ _ _ l rest) by exact Hin.
  unfold Ppt2pdf.select_round, Ppt2pdf.parse_indices.
  destruct (String.eqb_spec (lower (strip l)) "0") as [Hl|_];
    [contradiction|].
  rewrite (SelectFacts.parse_tokens_reads _ _ Hreads).
  rewrite SelectFacts.pick_selection.
  destruct (selection_of files typed) as [|f chosen];
    unfold typed_away; cbn; now rewrite <- !app_assoc.
Qed.

(** The answer [2, 5,1,2] against two candidates: 5 is dropped, the
    second candidate comes first and is repeated. *)
Lemma select_by_numbers_witness :
  exists rows,
    Ppt2pdf.select_ppt_files ["docs/a.pptx"; "docs/B.pptx"]
                             (initial sample [Line "2, 5,1,2"])
    = (Ret ["docs/B.pptx"; "docs/a.pptx"; "docs/B.pptx"],
       typed_away (initial sample [Line "2, 5,1,2"]) []
                  [Print (PptTable rows); Print PptAskSelection]).
Proof.
  assert (Hreads : reads_as (strip "2, 5,1,2") [2; 5; 1; 2]%Z)
    by (repeat constructor).
  exact (select_by_numbers
           node _ _ ["docs/a.pptx"; "docs/B.pptx"]
           (initial sample [Line "2, 5,1,2"]) "2, 5,1,2" [] [2; 5; 1; 2]%Z
           ltac:(discriminate) sample_presentations_exist eq_refl
           ltac:(vm_compute; discriminate) Hreads).
Defined.

(** The number 0 typed among others, or in another spelling, is a number
    outside [1, N] like any other: it is dropped. *)
Example zero_as_a_number_is_dropped :
  lower (strip "0,2") <> "0"%string /\
  reads_as (strip "0,2") [0; 2]%Z /\
  selection_of ["docs/a.pptx"; "docs/B.pptx"] [0; 2]%Z = ["docs/B.pptx"] /\
  Ppt2pdf.select_round ["docs/a.pptx"; "docs/B.pptx"] "0,2"
  = inl ["docs/B.pptx"] /\
  Ppt2pdf.select_round ["docs/a.pptx"; "docs/B.pptx"] "00"
  = inr PptNoValidSelection.
Proof.
  split; [vm_compute; discriminate|]. split; [repeat constructor|].
  repeat split.
Qed.

(** The scenario of the specification: against three candidates, [1,3]
    selects the first and the third, and [5] selects nothing. *)
Example one_three_scenario :
  selection_of ["d/a.pptx"; "d/b.pptx"; "d/c.pptx"] [1; 3]%Z
  = ["d/a.pptx"; "d/c.pptx"] /\
  Ppt2pdf.select_round ["d/a.pptx"; "d/b.pptx"; "d/c.pptx"] "1,3"
  = inl ["d/a.pptx"; "d/c.pptx"] /\
  Ppt2pdf.select_round ["d/a.pptx"; "d/b.pptx"; "d/c.pptx"] "5"
  = inr PptNoValidSelection.
Proof. repeat split. Qed.




(** C6 (as the code has it).  When [main] of [ppt2pdf] ends with
    [KeyboardInterrupt], the guard around it prints the cancellation
    notice and the program ends without a stack trace, with exit status
    0.  [mkpdf] has no guard: the interrupt leaves the program, which ends
    with the stack trace and a non-zero status, printing nothing more. *)
Theorem interrupt_at_top_level :
  forall (FS : Type) (HFS : FileSystem FS) (U : Unicode) (E : env)
         (w w' : world FS),
    (e_missing_deps E = [] ->
     Ppt2pdf.main E w = (Raise KeyboardInterrupt, w') ->
     traceback (fst (Ppt2pdf.program E w)) = None /\
     exit_code (fst (Ppt2pdf.program E w)) = 0%Z /\
     w_trace (snd (Ppt2pdf.program E w))
     = w_trace w' ++ [Print PptCancelled]) /\
    (Mkpdf.main E w = (Raise KeyboardInterrupt, w') ->
     traceback (fst (Mkpdf.program E w)) = Some KeyboardInterrupt /\
     exit_code (fst (Mkpdf.program E w)) <> 0%Z /\
     snd (Mkpdf.program E w) = w').
Proof.
  intros FS HFS U E w w'. split.
  - intros Hdeps Hmain. unfold Ppt2pdf.program. rewrite Hdeps, Hmain.
    cbn. auto.
  - intros Hmain. unfold Mkpdf.program. rewrite Hmain. cbn.
    repeat split. discriminate.
Qed.

(** Ctrl-C at the second prompt of either program. *)
Lemma interrupt_at_top_level_witness :
  (traceback (fst (Ppt2pdf.program quiet (initial sample [Line "docs"; CtrlC])))
   = None /\
   exit_code (fst (Ppt2pdf.program quiet (initial sample [Line "docs"; CtrlC])))
   = 0%Z /\
   w_trace (snd (Ppt2pdf.program quiet (initial sample [Line "docs"; CtrlC])))
   = w_trace (snd (Ppt2pdf.main quiet (initial sample [Line "docs"; CtrlC])))
     ++ [Print PptCancelled]) /\
  (traceback (fst (Mkpdf.program quiet (initial sample [Line "docs"; CtrlC])))
   = Some KeyboardInterrupt /\
   exit_code (fst (Mkpdf.program quiet (initial sample [Line "docs"; CtrlC])))
   <> 0%Z /\
   snd (Mkpdf.program quiet (initial sample [Line "docs"; CtrlC]))
   = snd (Mkpdf.main quiet (initial sample [Line "docs"; CtrlC]))).
Proof.
  split.
  - apply (proj1 (interrupt_at_top_level node _ _ quiet
                    (initial sample [Line "docs"; CtrlC])
                    (snd (Ppt2pdf.main quiet
                            (initial sample [Line "docs"; CtrlC])))));
      reflexivity.
  - apply (proj2 (interrupt_at_top_level node _ _ quiet
                    (initial sample [Line "docs"; CtrlC])
                    (snd (Mkpdf.main quiet
                            (initial sample [Line "docs"; CtrlC])))));
      reflexivity.
Defined.

(** C6, as stated, fails: interrupted at a prompt, [ppt2pdf] ends with
    exit status 0, and [mkpdf] ends with the stack trace of the
    interrupt and no cancellation notice. *)
Lemma interrupt_claim_fails :
  exit_code (fst (Ppt2pdf.program quiet (initial sample [Line "docs"; CtrlC])))
  = 0%Z /\
  traceback (fst (Mkpdf.program quiet (initial sample [Line "docs"; CtrlC])))
  = Some KeyboardInterrupt /\
  ~ In (Print MdCancelled)
       (w_trace (snd (Mkpdf.program quiet
                        (initial sample [Line "docs"; CtrlC])))).
Proof.
  vm_compute. repeat split.
  intros H. repeat (destruct H as [H|H]; [discriminate|]). exact H.
Qed.

(** C7.  Once [CreateObject] has returned an application, every way out
    of [convert_pptx_to_pdf] -- the normal return and every exception
    raised while the document is opened, exported or closed -- ends with
    [Quit] on that application, and nothing quits it earlier. *)
Theorem application_released_on_every_path :
  forall (FS : Type) (HFS : FileSystem FS) (E : env)
         (pptx_path output_folder : string) (w : world FS),
    e_com E (w_napp w) CreateObject = None ->
    exists mid,
      w_trace (snd (Ppt2pdf.convert_pptx_to_pdf E pptx_path output_folder w))
      = w_trace w
        ++ Com (w_napp w) CreateObject :: mid ++ [Com (w_napp w) Quit] /\
      ~ In (Com (w_napp w) Quit) mid.
Proof.
  intros FS HFS E pptx_path output_folder w Hcreate.
  unfold Ppt2pdf.convert_pptx_to_pdf, create_object. rewrite Hcreate.
  set (app := w_napp w).
  match goal with
  | |- context [Ppt2pdf.export E app ?a ?b ?w0] =>
      destruct (BatchFacts.export_keeps_application E app a b w0)
        as (evs & Ht & Hno & _);
      destruct (Ppt2pdf.export E app a b w0) as [r w1]
  end.
  cbn [snd w_trace] in Ht.
  assert (Hmid : forall extra,
             ~ In (Com app Quit) extra -> ~ In (Com app Quit) (evs ++ extra)).
  { intros extra Hex Hin. apply in_app_or in Hin. destruct Hin as [Hin|Hin].
    - rewrite Forall_forall in Hno. now apply (Hno _ Hin).
    - now apply Hex. }
  destruct r as [p|e]; [|destruct (is_Exception e)].
  - pose proof (BatchFacts.quit_trace E app w1) as Hq.
    destruct (try_except _ _ _ w1) as [r3 w3]. cbn [snd] in *.
    rewrite Hq, Ht. exists evs.
    rewrite <- !app_assoc. split; [reflexivity|].
    rewrite <- (app_nil_r evs). apply Hmid. intros [].
  - match goal with
    | |- context [try_except _ _ _ ?w2] =>
        pose proof (BatchFacts.quit_trace E app w2) as Hq;
        destruct (try_except _ _ _ w2) as [r3 w3]
    end.
    cbn [print emit emits snd w_trace] in *.
    rewrite Hq, Ht. eexists (evs ++ [_]).
    rewrite <- !app_assoc. split; [reflexivity|].
    apply Hmid. intros [Heq|[]]. discriminate.
  - pose proof (BatchFacts.quit_trace E app w1) as Hq.
    destruct (try_except _ _ _ w1) as [r3 w3]. cbn [snd] in *.
    rewrite Hq, Ht. exists evs.
    rewrite <- !app_assoc. split; [reflexivity|].
    rewrite <- (app_nil_r evs). apply Hmid. intros [].
Qed.

(** The application whose export fails is quit all the same. *)
Lemma application_released_on_every_path_witness :
  e_com flaky 0 CreateObject = None /\
  exists mid,
    w_trace (snd (Ppt2pdf.convert_pptx_to_pdf
                    flaky "docs/a.pptx" "out"
                    (initial sample [])))
    = [] ++ Com 0 CreateObject :: mid ++ [Com 0 Quit] /\
    ~ In (Com 0 Quit) mid.
Proof.
  split; [reflexivity|].
  exact (application_released_on_every_path
           node _ flaky "docs/a.pptx" "out"
           (initial sample []) eq_refl).
Defined.

(** C8.  In every run of either program, whatever is typed and whatever
    the file system and the external calls do, each call of the converter
    or of the application comes after the creation of an output
    directory, that directory exists, and what the call writes is an
    entry of it: the path after [-o] is that directory joined with one
    name, and the path given to [SaveAs] is the resolved form of that
    directory joined with one name.  (The file system of the model
    changes through the programs only; what the converters write is not
    part of it.) *)
Theorem output_directory_created_before_conversion :
  forall (FS : Type) (HFS : FileSystem FS) (U : Unicode),
    FileSystemLaws FS ->
    forall (E : env) (f : FS) (script : list key),
      created_before E (snd (Mkpdf.main E (initial f script))) /\
      created_before E (snd (Ppt2pdf.main E (initial f script))).
Proof.
  intros FS HFS U HL E f script. split.
  - destruct (RunFacts.mkpdf_main_orderly E (initial f script))
      as (evs & Ht & Hshape).
    apply StepFacts.created_before_of_orderly. now rewrite Ht.
  - destruct (RunFacts.ppt2pdf_main_orderly E (initial f script))
      as (evs & Ht & Hshape).
    apply StepFacts.created_before_of_orderly. now rewrite Ht.
Qed.

(** A run of each program on the sample tree that converts files: the
    Word document of [docs] into the default output directory, which the
    run creates, and the two presentations into [out], which the run
    creates. *)
Lemma output_directory_created_before_conversion_witness :
  (let w := snd (Mkpdf.main quiet
                   (initial sample [Line "docs"; Line "2"; Line "";
                                    Line "y"])) in
   created_before quiet w /\
   isdir sample "docs/markdown_output" = false /\
   isdir (w_fs w) "docs/markdown_output" = true /\
   w_trace w
   = [Print MdBanner; Print MdAskInputDir; Print MdFormatMenu;
      Print MdAskChoice; Print MdAskOutputDir;
      Makedirs "docs/markdown_output";
      Print (MdFound 1 "Word文档 (.doc, .docx)"); Print MdAskStart;
      Print (MdConverting "docs/c.docx" "docs/markdown_output/c.md");
      Run ["markitdown"; "docs/c.docx"; "-o"; "docs/markdown_output/c.md"];
      Print (MdConverted "docs/markdown_output/c.md");
      Print (MdSummary 1 1)]) /\
  (let w := snd (Ppt2pdf.main quiet
                   (initial sample [Line "docs"; Line "0"; Line "y";
                                    Line "out"])) in
   created_before quiet w /\
   isdir sample "out" = false /\
   isdir (w_fs w) "out" = true /\
   In (Makedirs "out") (w_trace w) /\
   In (Com 0 (SaveAs "out/a.pdf" 32)) (w_trace w) /\
   In (Com 1 (SaveAs "out/B.pdf" 32)) (w_trace w)).
Proof.
  split.
  - split; [|vm_compute; tauto].
    exact (proj1 (output_directory_created_before_conversion
                    node _ _ TreeFacts.tree_fs_laws quiet sample _)).
  - split; [|vm_compute; tauto].
    exact (proj2 (output_directory_created_before_conversion
                    node _ _ TreeFacts.tree_fs_laws quiet sample _)).
Defined.



(** C10.  Called without an output directory, [convert_file_to_md] hands
    the converter an output path that lies in the directory of the input
    file and is named after the input: its base name with the extension
    replaced by [.md]. *)
Theorem convert_file_to_md_writes_beside_input :
  forall (FS : Type) (HFS : FileSystem FS) (E : env)
         (file_path : string) (w : world FS),
    let output_path := Mkpdf.output_path_of file_path None in
    dirname output_path = dirname file_path /\
    basename output_path
    = (fst (splitext (basename file_path)) ++ ".md")%string /\
    In (Run ["markitdown"; file_path; "-o"; output_path])
       (w_trace (snd (Mkpdf.convert_file_to_md E file_path None w))).
Proof.
  intros FS HFS E file_path w output_path.
  assert (Hfree : rfind sep (fst (splitext (basename file_path)) ++ ".md")
                  = (-1)%Z).
  { apply StrFacts.rfind_none_app; [|reflexivity].
    apply PathFacts.splitext_root_sep_free, PathFacts.basename_sep_free. }
  split; [|split].
  - apply PathFacts.dirname_join;
      [apply PathFacts.dirname_has_shape | exact Hfree].
  - apply PathFacts.basename_join. exact Hfree.
  - unfold Mkpdf.convert_file_to_md. fold output_path.
    unfold bind, try_except, print, emit, emits, subprocess_run,
      Mkpdf.markitdown_argv.
    cbn [w_nproc w_trace w_stdin w_fs w_napp].
    destruct (e_proc E (w_nproc w) _) as [code| |];
      [destruct (Z.eqb code 0)| |]; cbn;
      rewrite <- !app_assoc; apply in_or_app; right; cbn; auto.
Qed.

(* ================================================================== *)
(** ** Further properties of the two programs *)

Import Props.

(** X1.  When the application honours [Quit], then in every run of
    [ppt2pdf], whatever is typed and whatever the other calls do, an
    application is only started when none is running, every call goes to
    the application that is running, and none is running when the program
    ends. *)
Theorem no_application_left_running :
  forall (FS : Type) (HFS : FileSystem FS) (U : Unicode) (E : env) (f : FS)
         (script : list key),
    (forall app, e_com E app Quit = None) ->
    settled E (w_trace (snd (Ppt2pdf.program E (initial f script)))).
Proof.
  intros FS HFS U E f script Hquit. unfold Ppt2pdf.program.
  destruct (e_missing_deps E); [|reflexivity].
  destruct (PptRunFacts.main_settled E Hquit (initial f script))
    as (evs & Ht & Hs).
  cbn [w_trace initial app] in Ht.
  assert (Hmore : forall m, settled E (evs ++ [Print m])).
  { intros m. now apply PptRunFacts.settled_app. }
  destruct (Ppt2pdf.main E (initial f script)) as [[u|e] w'];
    cbn [snd] in *.
  - now rewrite Ht.
  - destruct e; cbn [is_Exception snd print emit emits w_trace];
      rewrite Ht; try apply Hmore; exact Hs.
Qed.

(** Both presentations of [docs] converted, one application after the
    other. *)
Lemma no_application_left_running_witness :
  (forall app, e_com quiet app Quit = None) /\
  apps_of (w_trace (snd (Ppt2pdf.program
                           quiet
                           (initial sample [Line "docs"; Line "0"; Line "y";
                                            Line "out"])))) = [0; 1] /\
  settled quiet
          (w_trace (snd (Ppt2pdf.program
                           quiet
                           (initial sample [Line "docs"; Line "0"; Line "y";
                                            Line "out"])))).
Proof.
  assert (Hquit : forall app, e_com quiet app Quit = None) by reflexivity.
  split; [exact Hquit|]. split; [reflexivity|].
  exact (no_application_left_running node _ _ quiet sample _ Hquit).
Defined.

(** Without that, nothing of the kind holds: a [Quit] that raises is
    swallowed, the conversion returns as if nothing had happened, and the
    application is still running. *)
Example failed_quit_goes_unnoticed :
  fst (Ppt2pdf.convert_pptx_to_pdf stubborn "docs/a.pptx" "out"
                                   (initial sample []))
  = Ret "out/a.pdf" /\
  run_apps stubborn None
           (w_trace (snd (Ppt2pdf.convert_pptx_to_pdf
                            stubborn "docs/a.pptx" "out"
                            (initial sample []))))
  = Some (Some 0) /\
  w_trace (snd (Ppt2pdf.convert_pptx_to_pdf stubborn "docs/a.pptx" "out"
                                            (initial sample [])))
  = [Com 0 CreateObject; Com 0 (SetVisible 0);
     Com 0 (OpenNoWindow "docs/a.pptx"); Com 0 (SaveAs "out/a.pdf" 32);
     Com 0 Close; Com 0 Quit].
Proof. repeat split. Qed.

(** X2.  When [main] of [ppt2pdf] prints its completion message, no
    conversion error was reported in that run. *)
Theorem completion_means_no_conversion_error :
  forall (FS : Type) (HFS : FileSystem FS) (U : Unicode) (E : env) (f : FS)
         (script : list key) (d : string),
    In (Print (PptDone d))
       (w_trace (snd (Ppt2pdf.main E (initial f script)))) ->
    Forall not_error (w_trace (snd (Ppt2pdf.main E (initial f script)))).
Proof.
  intros FS HFS U E f script d Hin.
  destruct (PptRunFacts.main_done_clean E (initial f script))
    as (evs & Ht & Hclean).
  cbn [w_trace initial app] in Ht. rewrite Ht in *.
  apply Hclean. now exists d.
Qed.

(** Both presentations of [docs] converted into [out]. *)
Lemma completion_means_no_conversion_error_witness :
  In (Print (PptDone "out"))
     (w_trace (snd (Ppt2pdf.main
                      quiet
                      (initial sample [Line "docs"; Line "0"; Line "y";
                                       Line "out"])))) /\
  Forall not_error
         (w_trace (snd (Ppt2pdf.main
                          quiet
                          (initial sample [Line "docs"; Line "0"; Line "y";
                                           Line "out"])))).
Proof.
  assert (Hin : In (Print (PptDone "out"))
                   (w_trace (snd (Ppt2pdf.main
                                    quiet
                                    (initial sample
                                       [Line "docs"; Line "0"; Line "y";
                                        Line "out"])))))
    by (vm_compute; tauto).
  split; [exact Hin|].
  exact (completion_means_no_conversion_error
           node _ _ quiet sample _ "out" Hin).
Defined.

(** X3.  When [main] of [ppt2pdf] prints that the operation was
    cancelled, the run has only written to the console: no directory was
    created and no application was started. *)
Theorem declining_starts_nothing :
  forall (FS : Type) (HFS : FileSystem FS) (U : Unicode) (E : env) (f : FS)
         (script : list key),
    In (Print PptCancelled)
       (w_trace (snd (Ppt2pdf.main E (initial f script)))) ->
    Forall printed (w_trace (snd (Ppt2pdf.main E (initial f script)))).
Proof.
  intros FS HFS U E f script Hin.
  destruct (PptRunFacts.main_declined_idle E (initial f script))
    as (evs & Ht & Hidle).
  cbn [w_trace initial app] in Ht. rewrite Ht in *. now apply Hidle.
Qed.

(** Everything selected, then [n] at the confirmation. *)
Lemma declining_starts_nothing_witness :
  In (Print PptCancelled)
     (w_trace (snd (Ppt2pdf.main
                      quiet
                      (initial sample [Line "docs"; Line "0"; Line "n"])))) /\
  Forall printed
         (w_trace (snd (Ppt2pdf.main
                          quiet
                          (initial sample [Line "docs"; Line "0";
                                           Line "n"])))).
Proof.
  assert (Hin : In (Print PptCancelled)
                   (w_trace (snd (Ppt2pdf.main
                                    quiet
                                    (initial sample
                                       [Line "docs"; Line "0"; Line "n"])))))
    by (vm_compute; tauto).
  split; [exact Hin|].
  exact (declining_starts_nothing node _ _ quiet sample _ Hin).
Defined.

(** X4.  Every summary line [mkpdf] prints gives as its total the number
    of converter commands that were run, and a success count that is not
    larger. *)
Theorem summary_counts_the_commands :
  forall (FS : Type) (HFS : FileSystem FS) (U : Unicode) (E : env) (f : FS)
         (script : list key) (k n : nat),
    In (Print (MdSummary k n))
       (w_trace (snd (Mkpdf.main E (initial f script)))) ->
    k <= n /\
    n = List.length (runs_of (w_trace (snd (Mkpdf.main E (initial f script))))).
Proof.
  intros FS HFS U E f script k n Hin.
  destruct (MdRunFacts.main_summary E (initial f script))
    as (evs & Ht & Hok).
  cbn [w_trace initial app] in Ht. rewrite Ht in *. now apply Hok.
Qed.

(** Two Word and PDF candidates in [docs], the first command failing. *)
Lemma summary_counts_the_commands_witness :
  In (Print (MdSummary 1 2))
     (w_trace (snd (Mkpdf.main
                      flaky
                      (initial sample [Line "docs"; Line "1"; Line "out";
                                       Line "y"])))) /\
  1 <= 2 /\
  2 = List.length
        (runs_of (w_trace (snd (Mkpdf.main
                                  flaky
                                  (initial sample
                                     [Line "docs"; Line "1"; Line "out";
                                      Line "y"]))))).
Proof.
  assert (Hin : In (Print (MdSummary 1 2))
                   (w_trace (snd (Mkpdf.main
                                    flaky
                                    (initial sample
                                       [Line "docs"; Line "1"; Line "out";
                                        Line "y"])))))
    by (vm_compute; tauto).
  split; [exact Hin|].
  exact (summary_counts_the_commands node _ _ flaky sample _ 1 2 Hin).
Defined.

(** X5.  When [mkpdf] prints that nothing was found, or that the
    conversion was cancelled, it has run no converter command, yet it has
    already created the output directory. *)
Theorem giving_up_runs_nothing :
  forall (FS : Type) (HFS : FileSystem FS) (U : Unicode) (E : env) (f : FS)
         (script : list key) (ev : event),
    In ev (w_trace (snd (Mkpdf.main E (initial f script)))) ->
    gave_up ev ->
    runs_of (w_trace (snd (Mkpdf.main E (initial f script)))) = [] /\
    exists d, In (Makedirs d)
                 (w_trace (snd (Mkpdf.main E (initial f script)))).
Proof.
  intros FS HFS U E f script ev Hin Hgave.
  destruct (MdRunFacts.main_prepared E (initial f script))
    as (evs & Ht & Hok).
  cbn [w_trace initial app] in Ht. rewrite Ht in *.
  apply Hok. now exists ev.
Qed.

(** The PDF candidates of [docs] found, then [n] at the confirmation. *)
Lemma giving_up_runs_nothing_witness :
  In (Print MdCancelled)
     (w_trace (snd (Mkpdf.main
                      quiet
                      (initial sample [Line "docs"; Line "1"; Line "out";
                                       Line "n"])))) /\
  gave_up (Print MdCancelled) /\
  runs_of (w_trace (snd (Mkpdf.main
                           quiet
                           (initial sample [Line "docs"; Line "1";
                                            Line "out"; Line "n"])))) = [] /\
  exists d, In (Makedirs d)
               (w_trace (snd (Mkpdf.main
                                quiet
                                (initial sample [Line "docs"; Line "1";
                                                 Line "out"; Line "n"])))).
Proof.
  assert (Hin : In (Print MdCancelled)
                   (w_trace (snd (Mkpdf.main
                                    quiet
                                    (initial sample
                                       [Line "docs"; Line "1"; Line "out";
                                        Line "n"])))))
    by (vm_compute; tauto).
  assert (Hgave : gave_up (Print MdCancelled)) by now left.
  split; [exact Hin|]. split; [exact Hgave|].
  exact (giving_up_runs_nothing node _ _ quiet sample _ _ Hin Hgave).
Defined.

(** X6.  No failure of the converter leaves [convert_file_to_md]: what
    it raises is the interrupt of the operator, and only when the command
    was interrupted.  An exception that leaves [main] of [mkpdf] is that
    interrupt or, as long as no converter command has been run, the end
    of the typed input or an [OSError]; so an [OSError] that leaves
    [main] is one of [os.makedirs] or [os.listdir], never the failure to
    start the converter.  In particular the lookup of the format never
    raises [KeyError]. *)
Theorem mkpdf_main_raises :
  forall (FS : Type) (HFS : FileSystem FS) (U : Unicode) (E : env),
    (forall (file_path : string) (output_dir : option string)
            (w w' : world FS) (e : exn),
        Mkpdf.convert_file_to_md E file_path output_dir w = (Raise e, w') ->
        e = KeyboardInterrupt /\
        e_proc E (w_nproc w)
               ["markitdown"; file_path; "-o";
                Mkpdf.output_path_of file_path output_dir]%string
        = Interrupted) /\
    (forall (w w' : world FS) (e : exn),
        Mkpdf.main E w = (Raise e, w') ->
        e <> KeyError /\
        exists evs,
          w_trace w' = w_trace w ++ evs /\ leaves_main e evs).
Proof.
  intros FS HFS U E. split.
  - intros file_path output_dir w w' e.
    unfold Mkpdf.convert_file_to_md, Mkpdf.markitdown_argv.
    unfold bind, try_except, print, emit, emits, subprocess_run, ret.
    cbn [w_nproc w_trace w_stdin w_fs w_napp].
    destruct (e_proc E (w_nproc w) _) as [code| |];
      [destruct (Z.eqb code 0)| |]; cbn; intros Hrun;
      try discriminate; injection Hrun as <- _; auto.
  - intros w w' e Hrun.
    destruct (MdRunFacts.main_raises E _ _ _ Hrun) as (evs & Ht & He).
    split; [|now exists evs].
    destruct He as [->|[_ [->|[p ->]]]]; discriminate.
Qed.

(** The output directory cannot be created below a file; the converter
    that cannot be started does not stop the run. *)
Lemma mkpdf_main_raises_witness :
  (fst (Mkpdf.main quiet
                   (initial sample [Line "docs"; Line "1";
                                    Line "docs/b.pdf/out"]))
   = Raise (OSError "docs/b.pdf/out") /\
   OSError "docs/b.pdf/out" <> KeyError /\
   exists evs,
     w_trace (snd (Mkpdf.main quiet
                              (initial sample [Line "docs"; Line "1";
                                               Line "docs/b.pdf/out"])))
     = [] ++ evs /\
     leaves_main (OSError "docs/b.pdf/out") evs) /\
  fst (Mkpdf.main unlaunched
                  (initial sample [Line "docs"; Line "2"; Line "out";
                                   Line "y"]))
  = Ret tt.
Proof.
  split; [|reflexivity]. split; [reflexivity|].
  apply (proj2 (mkpdf_main_raises node _ _ quiet)
               (initial sample [Line "docs"; Line "1";
                                Line "docs/b.pdf/out"])
               (snd (Mkpdf.main quiet
                                (initial sample [Line "docs"; Line "1";
                                                 Line "docs/b.pdf/out"])))).
  reflexivity.
Defined.

(** X7.  Whatever is typed, what [select_ppt_files] returns consists of
    candidates only, and it is empty only when there was no candidate. *)
Theorem selection_is_among_candidates :
  forall (FS : Type) (HFS : FileSystem FS) (U : Unicode)
         (files : list Ppt2pdf.Path)
         (w w' : world FS) (chosen : list Ppt2pdf.Path),
    Ppt2pdf.select_ppt_files files w = (Ret chosen, w') ->
    incl chosen files /\ (files <> [] -> chosen <> []).
Proof.
  intros FS HFS U files w w' chosen.
  apply ChoiceFacts.select_ppt_files_returns.
Qed.

(** A number that is out of range, then the second candidate. *)
Lemma selection_is_among_candidates_witness :
  fst (Ppt2pdf.select_ppt_files ["docs/a.pptx"; "docs/B.pptx"]
                                (initial sample [Line "7"; Line "2"]))
  = Ret ["docs/B.pptx"] /\
  incl ["docs/B.pptx"] ["docs/a.pptx"; "docs/B.pptx"] /\
  (["docs/a.pptx"; "docs/B.pptx"] <> [] -> ["docs/B.pptx"] <> []).
Proof.
  split; [reflexivity|].
  apply (selection_is_among_candidates
           node _ _ ["docs/a.pptx"; "docs/B.pptx"]
           (initial sample [Line "7"; Line "2"])
           (snd (Ppt2pdf.select_ppt_files
                   ["docs/a.pptx"; "docs/B.pptx"]
                   (initial sample [Line "7"; Line "2"])))).
  reflexivity.
Defined.

(** X8.  An answer other than the select-all answer with one field for
    which [int] raises [ValueError] is refused as a whole, valid numbers
    in the other fields notwithstanding: the format complaint is printed
    and the question is asked again.  Which fields [int] refuses is
    Python's business: for ASCII text it is written out in [int_ascii],
    for other text it is read from the environment. *)
Theorem malformed_answer_is_refused :
  forall (FS : Type) (HFS : FileSystem FS) (U : Unicode)
         (files : list Ppt2pdf.Path)
         (w : world FS) (l : string) (rest : list key),
    files <> [] ->
    all_stat (w_fs w) files ->
    w_stdin w = Line l :: rest ->
    lower (strip l) <> "0"%string ->
    malformed (strip l) ->
    exists rows,
      Ppt2pdf.select_ppt_files files w
      = ask PptAskSelection
            (fun l' => Ppt2pdf.select_round files (strip l'))
            (typed_away w rest [Print (PptTable rows); Print PptAskSelection;
                                Print PptFormatError]).
Proof.
  intros FS HFS U files w l rest Hne Hstat Hin Hzero Hbad.
  destruct (SelectFacts.select_ppt_files_asks files w Hne Hstat)
    as [rows Hsel].
  exists rows. rewrite Hsel.
  rewrite (SelectFacts.ask_line _ _ _ l rest) by exact Hin.
  rewrite (ChoiceFacts.select_round_malformed files _ Hzero Hbad).
  unfold typed_away. cbn. now rewrite <- !app_assoc.
Qed.

(** The answer [1,x] selects nothing, not even the first candidate. *)
Lemma malformed_answer_is_refused_witness :
  (lower (strip "1,x") <> "0"%string /\ malformed (strip "1,x")) /\
  exists rows,
    Ppt2pdf.select_ppt_files ["docs/a.pptx"; "docs/B.pptx"]
                             (initial sample [Line "1,x"; Line "2"])
    = ask PptAskSelection
          (fun l' => Ppt2pdf.select_round ["docs/a.pptx"; "docs/B.pptx"]
                                          (strip l'))
          (typed_away (initial sample [Line "1,x"; Line "2"]) [Line "2"]
                      [Print (PptTable rows); Print PptAskSelection;
                       Print PptFormatError]).
Proof.
  assert (Hzero : lower (strip "1,x") <> "0"%string)
    by (vm_compute; discriminate).
  assert (Hbad : malformed (strip "1,x")).
  { exists "x". split; [vm_compute; tauto | reflexivity]. }
  split; [now split|].
  exact (malformed_answer_is_refused
           node _ _ ["docs/a.pptx"; "docs/B.pptx"]
           (initial sample [Line "1,x"; Line "2"]) "1,x" [Line "2"]
           ltac:(discriminate) sample_presentations_exist eq_refl
           Hzero Hbad).
Defined.

(** X9.  [convert_pptx_to_pdf] returns exactly when the application
    starts, the document opens one way or the other, the export succeeds
    and the document closes; what it returns is then the path of the PDF
    file below the output folder.  Whether the window could be hidden and
    whether the application could be quit makes no difference, while a
    failure to close the document after a successful export makes the
    conversion fail. *)
Theorem conversion_returns_iff :
  forall (FS : Type) (HFS : FileSystem FS) (E : env)
         (pptx_path output_folder : string) (w : world FS),
    let app := w_napp w in
    let pptx := e_resolve E pptx_path in
    let pdf := pdf_target E pptx_path output_folder in
    (forall p,
        fst (Ppt2pdf.convert_pptx_to_pdf E pptx_path output_folder w) = Ret p ->
        p = pdf) /\
    ((exists p,
         fst (Ppt2pdf.convert_pptx_to_pdf E pptx_path output_folder w) = Ret p)
     <->
     e_com E app CreateObject = None /\
     opened E app pptx /\
     e_com E app (SaveAs pdf 32) = None /\
     e_com E app Close = None).
Proof.
  intros FS HFS E pptx_path output_folder w.
  apply ChoiceFacts.convert_pptx_to_pdf_result.
Qed.

(** X10.  In a conversion whose application has started, the warning is
    printed exactly when the window cannot be hidden, the document is
    opened a second time exactly when the first attempt failed, the
    export is attempted exactly when the document could be opened, and
    the document is closed exactly when it was opened and exported. *)
Theorem conversion_calls :
  forall (FS : Type) (HFS : FileSystem FS) (E : env)
         (pptx_path output_folder : string) (w : world FS),
    let app := w_napp w in
    let pptx := e_resolve E pptx_path in
    let pdf := pdf_target E pptx_path output_folder in
    e_com E app CreateObject = None ->
    exists evs,
      w_trace (snd (Ppt2pdf.convert_pptx_to_pdf E pptx_path output_folder w))
      = w_trace w ++ Com app CreateObject :: evs /\
      (In (Print PptVisibleWarning) evs <->
       e_com E app (SetVisible 0) <> None) /\
      (In (Com app (Open pptx)) evs <->
       e_com E app (OpenNoWindow pptx) <> None) /\
      (In (Com app (SaveAs pdf 32)) evs <-> opened E app pptx) /\
      (In (Com app Close) evs <->
       opened E app pptx /\ e_com E app (SaveAs pdf 32) = None).
Proof.
  intros FS HFS E pptx_path output_folder w.
  apply ChoiceFacts.convert_pptx_to_pdf_calls.
Qed.

(** The export of the first application fails: the document is not
    closed. *)
Lemma conversion_calls_witness :
  e_com flaky 0 CreateObject = None /\
  exists evs,
    w_trace (snd (Ppt2pdf.convert_pptx_to_pdf flaky "docs/a.pptx" "out"
                                              (initial sample [])))
    = [] ++ Com 0 CreateObject :: evs /\
    (In (Print PptVisibleWarning) evs <->
     e_com flaky 0 (SetVisible 0) <> None) /\
    (In (Com 0 (Open "docs/a.pptx")) evs <->
     e_com flaky 0 (OpenNoWindow "docs/a.pptx") <> None) /\
    (In (Com 0 (SaveAs (pdf_target flaky "docs/a.pptx" "out") 32)) evs <->
     opened flaky 0 "docs/a.pptx") /\
    (In (Com 0 Close) evs <->
     opened flaky 0 "docs/a.pptx" /\
     e_com flaky 0 (SaveAs (pdf_target flaky "docs/a.pptx" "out") 32) = None).
Proof.
  split; [reflexivity|].
  exact (conversion_calls node _ flaky "docs/a.pptx" "out"
                          (initial sample []) eq_refl).
Defined.

(** X11.  When no call of the application fails, the loop of [ppt2pdf]
    over the selected files returns, having exported every file, in the
    order of the selection, to its PDF path below the output directory,
    each with an application of its own. *)
Theorem smooth_batch_exports_every_file :
  forall (FS : Type) (HFS : FileSystem FS) (E : env)
         (output_dir : string) (file_count : nat)
         (numbered : list (nat * string)) (w : world FS),
    (forall app c, e_com E app c = None) ->
    exists evs w',
      Ppt2pdf.convert_each E output_dir file_count numbered w = (Ret tt, w') /\
      w_trace w' = w_trace w ++ evs /\
      saves_of evs
      = map (fun file => pdf_target E (snd file) output_dir) numbered /\
      apps_of evs = seq (w_napp w) (List.length numbered).
Proof.
  intros FS HFS E output_dir file_count numbered w Hok.
  now apply ChoiceFacts.convert_each_smooth.
Qed.

(** Both presentations of [docs]. *)
Lemma smooth_batch_exports_every_file_witness :
  (forall app c, e_com quiet app c = None) /\
  exists evs w',
    Ppt2pdf.convert_each quiet "out" 2
                         [(1, "docs/a.pptx"); (2, "docs/B.pptx")]
                         (initial sample [])
    = (Ret tt, w') /\
    w_trace w' = [] ++ evs /\
    saves_of evs
    = map (fun file => pdf_target quiet (snd file) "out")
          [(1, "docs/a.pptx"); (2, "docs/B.pptx")] /\
    apps_of evs = seq 0 2.
Proof.
  assert (Hok : forall app c, e_com quiet app c = None) by reflexivity.
  split; [exact Hok|].
  exact (smooth_batch_exports_every_file
           node _ quiet "out" 2 [(1, "docs/a.pptx"); (2, "docs/B.pptx")]
           (initial sample []) Hok).
Defined.

(** X12.  Called with an output directory that does not end with a
    separator, as [main] of [mkpdf] calls it, [convert_file_to_md] hands
    the converter an output path that lies in that directory and is named
    after the input: its base name with the extension replaced by
    [.md]. *)
Theorem output_path_in_output_dir :
  forall (file_path output_dir : string),
    dirname_shape output_dir ->
    let output_path := Mkpdf.output_path_of file_path (Some output_dir) in
    dirname output_path = output_dir /\
    basename output_path
    = (fst (splitext (basename file_path)) ++ ".md")%string.
Proof.
  intros file_path output_dir Hshape output_path.
  assert (Hfree : rfind sep (fst (splitext (basename file_path)) ++ ".md")
                  = (-1)%Z).
  { apply StrFacts.rfind_none_app; [|reflexivity].
    apply PathFacts.splitext_root_sep_free, PathFacts.basename_sep_free. }
  split.
  - apply PathFacts.dirname_join; [exact Hshape | exact Hfree].
  - apply PathFacts.basename_join. exact Hfree.
Qed.

(** [docs/c.docx] converted into [out]. *)
Lemma output_path_in_output_dir_witness :
  dirname_shape "out" /\
  dirname (Mkpdf.output_path_of "docs/c.docx" (Some "out")) = "out" /\
  basename (Mkpdf.output_path_of "docs/c.docx" (Some "out"))
  = (fst (splitext (basename "docs/c.docx")) ++ ".md")%string.
Proof.
  assert (Hshape : dirname_shape "out") by (left; reflexivity).
  split; [exact Hshape|].
  exact (output_path_in_output_dir "docs/c.docx" "out" Hshape).
Defined.

(** X13.  The output path of [mkpdf] depends on the name of the input
    without its extension only: two entries of the input directory that
    differ in their extension, such as [a.doc] and [a.docx], are
    converted into the same file of the output directory. *)
Theorem same_stem_same_output :
  forall (input_dir output_dir stem ext1 ext2 : string),
    plain stem -> stem <> ""%string -> plain ext1 -> plain ext2 ->
    Mkpdf.output_path_of (join input_dir (stem ++ String extsep ext1))
                         (Some output_dir)
    = join output_dir (stem ++ ".md") /\
    Mkpdf.output_path_of (join input_dir (stem ++ String extsep ext1))
                         (Some output_dir)
    = Mkpdf.output_path_of (join input_dir (stem ++ String extsep ext2))
                           (Some output_dir).
Proof.
  intros input_dir output_dir stem ext1 ext2 Hstem Hne H1 H2.
  rewrite !NameFacts.output_path_of_plain by assumption. now split.
Qed.

(** [docs/a.doc] and [docs/a.docx] both become [out/a.md]. *)
Lemma same_stem_same_output_witness :
  (plain "a" /\ plain "doc" /\ plain "docx") /\
  Mkpdf.output_path_of (join "docs" "a.doc") (Some "out") = join "out" "a.md"
  /\
  Mkpdf.output_path_of (join "docs" "a.doc") (Some "out")
  = Mkpdf.output_path_of (join "docs" "a.docx") (Some "out").
Proof.
  assert (Ha : plain "a") by (split; reflexivity).
  assert (H1 : plain "doc") by (split; reflexivity).
  assert (H2 : plain "docx") by (split; reflexivity).
  split; [now repeat split|].
  exact (same_stem_same_output "docs" "out" "a" "doc" "docx"
                               Ha ltac:(discriminate) H1 H2).
Defined.

(** X14.  Nothing is converted without the consent of the operator.  A
    run of [ppt2pdf] in which no line typed reads [y] once stripped and
    lower-cased (by Python's [str.strip] and [str.lower], whatever they
    do with text that is not ASCII) only writes to the console: it
    creates no directory and starts no application.  A run of [mkpdf] in
    which no line typed is empty or reads [y] in that sense runs no
    converter command; an empty line counts because the confirmation of
    [mkpdf] defaults to yes. *)
Theorem no_conversion_without_consent :
  forall (FS : Type) (HFS : FileSystem FS) (U : Unicode) (E : env) (f : FS)
         (script : list key),
    (Forall printed (w_trace (snd (Ppt2pdf.main E (initial f script)))) \/
     said_yes script) /\
    (runs_of (w_trace (snd (Mkpdf.main E (initial f script)))) = [] \/
     accepted script).
Proof.
  intros FS HFS U E f script. split.
  - destruct (ConsentFacts.ppt2pdf_main_consent E (initial f script))
      as (evs & Ht & Hok).
    cbn [w_trace w_stdin initial app] in *. rewrite Ht. exact Hok.
  - destruct (ConsentFacts.mkpdf_main_consent E (initial f script))
      as (evs & Ht & [Hquiet|Hyes]).
    + cbn [w_trace initial app] in Ht. rewrite Ht. left.
      now apply MdRunFacts.runs_of_none.
    + now right.
Qed.

(** X15.  In a run of [ppt2pdf] whose first typed line is [l], every
    call made on an application belongs to the conversion of a
    presentation that the lister finds in the directory this line names
    (the current directory when the line is empty), in the file system of
    the start; the program opens and exports nothing else, and runs no
    command.  A run in which nothing could be typed only writes to the
    console. *)
Theorem only_listed_presentations_are_converted :
  forall (FS : Type) (HFS : FileSystem FS) (U : Unicode) (E : env) (f : FS),
    (forall (l : string) (rest : list key),
        let directory := if String.eqb l "" then e_cwd E else strip l in
        Forall (concerns E (Ppt2pdf.glob_pptx f directory))
               (w_trace (snd (Ppt2pdf.main E (initial f (Line l :: rest))))))
    /\
    (forall (rest : list key),
        Forall printed (w_trace (snd (Ppt2pdf.main E (initial f [])))) /\
        Forall printed
               (w_trace (snd (Ppt2pdf.main E (initial f (CtrlC :: rest)))))).
Proof.
  intros FS HFS U E f. split.
  - intros l rest directory.
    destruct (ConsentFacts.ppt2pdf_main_concerns
                E (initial f (Line l :: rest)) l rest eq_refl)
      as (evs & Ht & Hok).
    cbn [w_trace w_fs initial app] in *. now rewrite Ht.
  - intros rest. split; repeat constructor.
Qed.

(** The two presentations of [docs] are what the lister finds there, and
    the run that selects the second one opens and exports it. *)
Example the_second_presentation_only :
  Ppt2pdf.glob_pptx sample "docs" = ["docs/B.pptx"; "docs/a.pptx"] /\
  filter external
         (w_trace (snd (Ppt2pdf.main
                          quiet
                          (initial sample [Line "docs"; Line "2"; Line "y";
                                           Line "out"]))))
  = [Com 0 CreateObject; Com 0 (SetVisible 0);
     Com 0 (OpenNoWindow "docs/B.pptx"); Com 0 (SaveAs "out/B.pdf" 32);
     Com 0 Close; Com 0 Quit].
Proof. split; reflexivity. Qed.

(** X16.  In a run of [mkpdf] whose first typed line is [l], every
    command run is [markitdown <input_dir>/<entry> -o <output path>],
    where [input_dir] is the directory this line names (the directory of
    the script when the line is empty), the entry is one of the listing
    of [input_dir] in the file system as the run leaves it, and the
    output path is an entry of a directory that this run has created.
    The program runs no other command and makes no call on an
    application. *)
Theorem only_listed_entries_are_converted :
  forall (FS : Type) (HFS : FileSystem FS) (U : Unicode) (E : env) (f : FS)
         (l : string) (rest : list key),
    let input_dir := if String.eqb l "" then e_script_dir E else strip l in
    let w' := snd (Mkpdf.main E (initial f (Line l :: rest))) in
    (forall argv,
        In (Run argv) (w_trace w') ->
        exists file output_dir output_path,
          In file (entries (w_fs w') input_dir) /\
          In (Makedirs output_dir) (w_trace w') /\
          lies_in output_dir output_path /\
          argv = ["markitdown"; join input_dir file; "-o";
                  output_path]%string) /\
    (forall app c, ~ In (Com app c) (w_trace w')).
Proof.
  intros FS HFS U E f l rest input_dir w'.
  destruct (ConsentFacts.mkpdf_main_converts
              E (initial f (Line l :: rest)) l rest eq_refl)
    as (evs & output_dir & Ht & Hok & Hmk).
  fold input_dir in Hok. fold w' in Ht, Hok.
  cbn [w_trace initial app] in Ht. rewrite Ht.
  rewrite Forall_forall in Hok. split.
  - intros argv Hin.
    destruct (Hok _ Hin) as (file & output_path & Hfile & Hlies & Hargv).
    exists file, output_dir, output_path. repeat split; try assumption.
    destruct Hmk as [Hruns|Hmk]; [|exact Hmk].
    exfalso. clear - Hin Hruns. induction evs as [|ev evs IH]; [easy|].
    destruct Hin as [->|Hin]; [discriminate|].
    apply IH; [|exact Hin].
    destruct ev; cbn in Hruns; try exact Hruns. discriminate.
  - intros app c Hin. exact (Hok _ Hin).
Qed.

(** The Word document of [docs] is converted into the output directory
    the run creates. *)
Example the_word_document_only :
  let w' := snd (Mkpdf.main quiet
                   (initial sample [Line "docs"; Line "2"; Line "out";
                                    Line "y"])) in
  entries (w_fs w') "docs"
  = ["b.pdf"; "a.pdf"; "c.docx"; "B.pptx"; "a.pptx"] /\
  In (Makedirs "out") (w_trace w') /\
  runs_of (w_trace w') = [["markitdown"; "docs/c.docx"; "-o"; "out/c.md"]].
Proof. repeat split. vm_compute. tauto. Qed.
